(** * The instance profiler of [openmdao/devtools/profile.py]

    A shallow embedding of the call-stack tracker ([setup], [start], [stop],
    [_instance_profile]), of the finalize step ([_finalize_profile]), of the
    raw-trace reader ([_iter_raw_prof_file]) and of the merge engine
    ([process_profile]), followed by the properties established about them.

    Conventions.
    - A Python [float] is an IEEE binary64 number: Rocq's primitive [float].
    - A Python [int] is a [Z].  A [str] is a [string] that holds the UTF-8
      encoding of the text, one byte per character of the [string].
    - The builtins on text are those of CPython 3 as it is set up by
      default: [str.split()] and [int()] go by the character classes of the
      Unicode database (version 14.0), [int()] refuses a literal of more than
      4300 digits, ["%f"] rounds the exact binary value.  The numbers that
      the profiler itself formats with ["%d"] (ranks, ordinals and call
      counts) are taken to stay below that number of digits.
    - A Python [dict] is an association list without repeated keys, listed in
      iteration (insertion) order; assigning to a key that is present keeps
      its position.
    - A Python list used as a stack grows at its end ([append]/[pop]).
    - A raised exception is a value of type [exn]; functions that work on local
      data return a [result], functions that work on the module globals return
      an [outcome], which keeps the globals as they are at the raise. *)

From Stdlib Require Import Floats Uint63 NArith ZArith String Ascii List Bool
  Lia.
From Stdlib Require Import DecimalString Finite.
Import ListNotations.

Local Open Scope string_scope.
Local Open Scope list_scope.

Set Implicit Arguments.

(** ** Exceptions and results *)

(** What a [ValueError] raised by the builtins reports: the number of fields
    found by a failed unpacking, or the literal refused by [int] or [float]. *)
Inductive value_error : Type :=
| unpack_got (expected got : nat)
| invalid_int_literal (lit : string)
| invalid_float_literal (lit : string).

Inductive exn : Type :=
| KeyError (key : string)
| IndexError
| ValueError (what : value_error)
| ZeroDivisionError
| RuntimeError (msg : string)
| IOError (fname : string)
| TypeError.

Inductive result (A : Type) : Type :=
| Return (a : A)
| Raise (e : exn).

Arguments Return {A} a.
Arguments Raise {A} e.

Definition bind {A B : Type} (m : result A) (k : A -> result B) : result B :=
  match m with
  | Return a => k a
  | Raise e => Raise e
  end.

Notation "x <- m ;; k" := (bind m (fun x => k))
  (at level 61, m at next level, right associativity).
Notation "' p <- m ;; k" := (bind m (fun x => match x with p => k end))
  (at level 61, p pattern, m at next level, right associativity).

Definition raises {A : Type} (m : result A) : Prop := exists e, m = Raise e.

(** [foldM f xs a]: a [for] loop over [xs] whose body may raise. *)
Fixpoint foldM {A B : Type} (f : A -> B -> result A) (xs : list B) (a : A)
  : result A :=
  match xs with
  | [] => Return a
  | x :: xs' => a' <- f a x ;; foldM f xs' a'
  end.

(** ** Builtins on strings *)

Module Str.

Definition at_sign : ascii := "@"%char.
Definition dot : ascii := "."%char.
Definition slash : ascii := "/"%char.
Definition hash : ascii := "#"%char.

Fixpoint chars (s : string) : list ascii :=
  match s with
  | EmptyString => []
  | String c s' => c :: chars s'
  end.

(** [sep.join(parts)] *)
Fixpoint join (sep : string) (parts : list string) : string :=
  match parts with
  | [] => ""
  | [p] => p
  | p :: ps => p ++ sep ++ join sep ps
  end.

(** [s.split(sep)] for a one-character separator: never the empty list. *)
Fixpoint split (sep : ascii) (s : string) : list string :=
  match s with
  | EmptyString => [""]
  | String c s' =>
      if Ascii.eqb c sep then "" :: split sep s'
      else match split sep s' with
           | h :: t => String c h :: t
           | [] => [String c ""]
           end
  end.

(** [s.rsplit(sep, 1)]: [(None, s)] stands for the one-element list [[s]],
    [(Some h, t)] for the two-element list [[h, t]]. *)
Fixpoint rsplit1 (sep : ascii) (s : string) : option string * string :=
  match s with
  | EmptyString => (None, "")
  | String c s' =>
      match rsplit1 sep s' with
      | (Some h, t) => (Some (String c h), t)
      | (None, t) =>
          if Ascii.eqb c sep then (Some "", t) else (None, String c t)
      end
  end.

(** [parts[-1]] and [parts[0]] of the result of [rsplit(sep, 1)], and
    [len(parts) > 1]. *)
Definition parts_last (p : option string * string) : string := snd p.
Definition parts_first (p : option string * string) : string :=
  match fst p with
  | Some h => h
  | None => snd p
  end.
Definition parts_many (p : option string * string) : bool :=
  match fst p with
  | Some _ => true
  | None => false
  end.

(** [s.lstrip(c)] for a one-character set. *)
Fixpoint lstrip (c : ascii) (s : string) : string :=
  match s with
  | String c' s' => if Ascii.eqb c' c then lstrip c s' else s
  | EmptyString => ""
  end.

(** *** Characters

    A [str] is held as its UTF-8 encoding, one [ascii] per byte.  The
    characters that the code cuts at ([@], [#], [.], [/]) are single bytes
    that occur in no longer sequence, so that [split], [rsplit], [join] and
    [lstrip] work on the bytes.  [str.split()] and [int()] go by the class of
    a character and work on the decoded characters. *)

(** A character of a string, with its code point and the bytes that encode
    it; or a byte that belongs to no well-formed sequence (what the
    [surrogateescape] handler makes of such a byte in a file name), which is
    of no class. *)
Inductive symbol : Type :=
| Char (cp : N) (bytes : string)
| Stray (b : ascii).

(** The payload of a continuation byte, [10xxxxxx]. *)
Definition continuation (c : ascii) : option N :=
  let n := N_of_ascii c in
  if ((128 <=? n) && (n <? 192))%N then Some (n - 128)%N else None.

(** A leading byte: the number of continuation bytes that follow it, its
    payload and the least code point that needs a sequence of that length. *)
Definition lead (c : ascii) : option (nat * N * N) :=
  let n := N_of_ascii c in
  if ((192 <=? n) && (n <? 224))%N then Some (1%nat, n - 192, 0x80)%N
  else if ((224 <=? n) && (n <? 240))%N then Some (2%nat, n - 224, 0x800)%N
  else if ((240 <=? n) && (n <? 248))%N then Some (3%nat, n - 240, 0x10000)%N
  else None.

(** [k] continuation bytes at the head of the decoded rest: the code point
    they complete, the bytes and what follows them. *)
Fixpoint continue (k : nat) (cp : N) (syms : list symbol)
  : option (N * string * list symbol) :=
  match k with
  | O => Some (cp, "", syms)
  | S k' =>
      match syms with
      | Stray b :: rest =>
          match continuation b with
          | Some v =>
              match continue k' (64 * cp + v)%N rest with
              | Some (cp', bytes, rest') => Some (cp', String b bytes, rest')
              | None => None
              end
          | None => None
          end
      | _ => None
      end
  end.

(** A code point that a sequence starting at [lo] may encode: not one with a
    shorter encoding, no surrogate, at most U+10FFFF. *)
Definition scalar (lo cp : N) : bool :=
  ((lo <=? cp) && (cp <=? 0x10FFFF)
   && negb ((0xD800 <=? cp) && (cp <=? 0xDFFF)))%N.

(** One more byte in front of a decoded string. *)
Definition decode_byte (c : ascii) (syms : list symbol) : list symbol :=
  if (N_of_ascii c <? 128)%N then Char (N_of_ascii c) (String c "") :: syms
  else
    match lead c with
    | Some (k, payload, lo) =>
        match continue k payload syms with
        | Some (cp, bytes, rest) =>
            if scalar lo cp then Char cp (String c bytes) :: rest
            else Stray c :: syms
        | None => Stray c :: syms
        end
    | None => Stray c :: syms
    end.

(** The characters of a string. *)
Fixpoint symbols (s : string) : list symbol :=
  match s with
  | EmptyString => []
  | String c s' => decode_byte c (symbols s')
  end.

Definition bytes_of (sym : symbol) : string :=
  match sym with
  | Char _ bytes => bytes
  | Stray b => String b ""
  end.

(** [c.isspace()]: the whitespace of [str.split()] and [str.strip()]. *)
Definition isspace (cp : N) : bool :=
  ((9 <=? cp) && (cp <=? 13) || (28 <=? cp) && (cp <=? 32)
   || (cp =? 0x85) || (cp =? 0xA0) || (cp =? 0x1680)
   || (0x2000 <=? cp) && (cp <=? 0x200A)
   || (cp =? 0x2028) || (cp =? 0x2029) || (cp =? 0x202F) || (cp =? 0x205F)
   || (cp =? 0x3000))%N.

Definition is_space (sym : symbol) : bool :=
  match sym with
  | Char cp _ => isspace cp
  | Stray _ => false
  end.

(** [s.split()]: the maximal runs of non-whitespace characters.  [cur] is the
    run being read. *)
Fixpoint split_ws_aux (cur : string) (syms : list symbol) : list string :=
  let flush (rest : list string) :=
    match cur with
    | EmptyString => rest
    | _ => cur :: rest
    end in
  match syms with
  | [] => flush []
  | sym :: syms' =>
      if is_space sym then flush (split_ws_aux "" syms')
      else split_ws_aux (cur ++ bytes_of sym) syms'
  end.

Definition split_ws (s : string) : list string := split_ws_aux "" (symbols s).

(** The decimal digits: the code points of the digit zero of each script
    (Unicode 14.0); the nine code points after each are its digits 1 to 9. *)
Definition decimal_zeros : list N :=
  [0x30; 0x660; 0x6F0; 0x7C0; 0x966; 0x9E6; 0xA66; 0xAE6; 0xB66; 0xBE6;
   0xC66; 0xCE6; 0xD66; 0xDE6; 0xE50; 0xED0; 0xF20; 0x1040; 0x1090; 0x17E0;
   0x1810; 0x1946; 0x19D0; 0x1A80; 0x1A90; 0x1B50; 0x1BB0; 0x1C40; 0x1C50;
   0xA620; 0xA8D0; 0xA900; 0xA9D0; 0xA9F0; 0xAA50; 0xABF0; 0xFF10; 0x104A0;
   0x10D30; 0x11066; 0x110F0; 0x11136; 0x111D0; 0x112F0; 0x11450; 0x114D0;
   0x11650; 0x116C0; 0x11730; 0x118E0; 0x11950; 0x11C50; 0x11D50; 0x11DA0;
   0x16A60; 0x16AC0; 0x16B50; 0x1D7CE; 0x1D7D8; 0x1D7E2; 0x1D7EC; 0x1D7F6;
   0x1E140; 0x1E2F0; 0x1E950; 0x1FBF0]%N.

(** The value of a character as a decimal digit. *)
Definition todecimal (cp : N) : option Z :=
  match find (fun z => (z <=? cp) && (cp <? z + 10))%N decimal_zeros with
  | Some z => Some (Z.of_N (cp - z))
  | None => None
  end.

(** What [int()] makes of a character: the ASCII whitespace of C, the other
    Unicode whitespace (but not the separators U+001C to U+001F), a sign, an
    underscore, a decimal digit of any script, or a character it refuses. *)
Inductive int_token : Type :=
| IntSpace
| IntPlus
| IntMinus
| IntUnderscore
| IntDigit (d : Z)
| IntOther.

Definition int_token_of (sym : symbol) : int_token :=
  match sym with
  | Stray _ => IntOther
  | Char cp _ =>
      if (cp <? 127)%N then
        if ((9 <=? cp) && (cp <=? 13) || (cp =? 32))%N then IntSpace
        else if (cp =? 43)%N then IntPlus
        else if (cp =? 45)%N then IntMinus
        else if (cp =? 95)%N then IntUnderscore
        else if ((48 <=? cp) && (cp <=? 57))%N
             then IntDigit (Z.of_N (cp - 48))
        else IntOther
      else if isspace cp then IntSpace
      else match todecimal cp with
           | Some d => IntDigit d
           | None => IntOther
           end
  end.

Fixpoint lstrip_space (ts : list int_token) : list int_token :=
  match ts with
  | IntSpace :: ts' => lstrip_space ts'
  | _ => ts
  end.

Definition rstrip_space (ts : list int_token) : list int_token :=
  rev (lstrip_space (rev ts)).

(** The digits of a decimal literal, single underscores allowed between
    digits.  [prev] says whether the previous character was a digit. *)
Fixpoint int_digits (acc : Z) (prev : bool) (ts : list int_token) : option Z :=
  match ts with
  | [] => if prev then Some acc else None
  | IntDigit d :: ts' => int_digits (10 * acc + d)%Z true ts'
  | IntUnderscore :: ts' => if prev then int_digits acc false ts' else None
  | _ => None
  end.

Definition is_digit (t : int_token) : bool :=
  match t with
  | IntDigit _ => true
  | _ => false
  end.

(** [sys.get_int_max_str_digits()]: the number of digits above which [int()]
    refuses a literal, as CPython sets it by default. *)
Definition int_max_str_digits : Z := 4300.

(** [int(s)] in base 10: surrounding whitespace, an optional sign, digits.
    [None] stands for the [ValueError]. *)
Definition py_int (s : string) : option Z :=
  let ts := rstrip_space (lstrip_space (map int_token_of (symbols s))) in
  if (int_max_str_digits <? Z.of_nat (length (filter is_digit ts)))%Z
  then None
  else
    match ts with
    | IntPlus :: ts' => int_digits 0 false ts'
    | IntMinus :: ts' => option_map Z.opp (int_digits 0 false ts')
    | _ => int_digits 0 false ts
    end.

(** [os.path.basename(p)] *)
Definition basename (p : string) : string := snd (rsplit1 slash p).

(** [os.path.splitext(p)[1]]: the part of the last path component from its
    last dot on, the leading dots of the component not counting; [""] when
    there is no such dot. *)
Definition splitext_ext (p : string) : string :=
  match rsplit1 dot (lstrip dot (basename p)) with
  | (Some _, t) => String dot t
  | (None, _) => ""
  end.

(** [os.path.join(a, b)] (posix) *)
Definition path_join (a b : string) : string :=
  match b with
  | String "/" _ => b
  | _ =>
      match rev (chars a) with
      | [] => b
      | c :: _ => if Ascii.eqb c slash then a ++ b else a ++ "/" ++ b
      end
  end.

(** ["%d" % z] *)
Definition fmt_d (z : Z) : string := NilZero.string_of_int (Z.to_int z).

Fixpoint zeros (n : nat) : string :=
  match n with
  | O => ""
  | S n' => String "0" (zeros n')
  end.

(** ["%f" % x]: the exact value of [x] rounded to six digits after the
    point, to the nearest and to the even digit at a tie; the sign also of a
    zero; [inf] and [nan] by their names. *)
Definition fmt_f (x : float) : string :=
  match Prim2SF x with
  | S754_nan => "nan"
  | S754_infinity s => if s then "-inf" else "inf"
  | S754_zero s => if s then "-0.000000" else "0.000000"
  | S754_finite s m e =>
      let num := (Z.pos m * 1000000)%Z in
      let r :=
        if (0 <=? e)%Z then (num * 2 ^ e)%Z
        else
          let d := (2 ^ (- e))%Z in
          let q := (num / d)%Z in
          let rem := (num mod d)%Z in
          if (2 * rem <? d)%Z then q
          else if (d <? 2 * rem)%Z then (q + 1)%Z
          else if Z.even q then q else (q + 1)%Z in
      let fp := fmt_d (r mod 1000000) in
      (if s then "-" else "") ++ fmt_d (r / 1000000) ++ "."
      ++ zeros (6 - String.length fp) ++ fp
  end.

Definition newline : string := String "010"%char "".

End Str.

(** ** Dictionaries *)

Module Dict.

Section Ops.
Variable V : Type.

Definition t := list (string * V).

Fixpoint get (d : t) (k : string) : option V :=
  match d with
  | [] => None
  | (k', v) :: d' => if String.eqb k' k then Some v else get d' k
  end.

Definition mem (d : t) (k : string) : bool :=
  match get d k with
  | Some _ => true
  | None => false
  end.

(** [d[k] = v] *)
Fixpoint set (d : t) (k : string) (v : V) : t :=
  match d with
  | [] => [(k, v)]
  | (k', v') :: d' =>
      if String.eqb k' k then (k', v) :: d' else (k', v') :: set d' k v
  end.

(** [d[k]] *)
Definition lookup (d : t) (k : string) : result V :=
  match get d k with
  | Some v => Return v
  | None => Raise (KeyError k)
  end.

Definition keys (d : t) : list string := map fst d.
Definition values (d : t) : list V := map snd d.
End Ops.

End Dict.

(** ** Profile nodes *)

(** An instance whose method is profiled: [id(self)], the names of the classes
    it is an instance of, and its [pathname] attribute when it has one. *)
Record pyobj : Type := {
  obj_id : Z;
  obj_classes : list string;
  obj_pathname : option string
}.

(** The dictionary built by [_prof_node].  The keys [child_time] and [obj] are
    deleted by [process_profile]: [None] stands for a deleted key, and
    [Some None] in [obj] for the value [None]. *)
Record node : Type := {
  name : string;
  short_name : string;
  time : float;
  count : Z;
  tot_time : float;
  tot_count : Z;
  pct_total : float;
  tot_pct_total : float;
  pct_parent : float;
  child_time : option float;
  obj : option (option pyobj)
}.

Definition set_time (n : node) (x : float) : node :=
  {| name := name n; short_name := short_name n; time := x; count := count n;
     tot_time := tot_time n; tot_count := tot_count n;
     pct_total := pct_total n; tot_pct_total := tot_pct_total n;
     pct_parent := pct_parent n; child_time := child_time n; obj := obj n |}.

Definition set_count (n : node) (x : Z) : node :=
  {| name := name n; short_name := short_name n; time := time n; count := x;
     tot_time := tot_time n; tot_count := tot_count n;
     pct_total := pct_total n; tot_pct_total := tot_pct_total n;
     pct_parent := pct_parent n; child_time := child_time n; obj := obj n |}.

Definition set_tot_time (n : node) (x : float) : node :=
  {| name := name n; short_name := short_name n; time := time n;
     count := count n; tot_time := x; tot_count := tot_count n;
     pct_total := pct_total n; tot_pct_total := tot_pct_total n;
     pct_parent := pct_parent n; child_time := child_time n; obj := obj n |}.

Definition set_tot_count (n : node) (x : Z) : node :=
  {| name := name n; short_name := short_name n; time := time n;
     count := count n; tot_time := tot_time n; tot_count := x;
     pct_total := pct_total n; tot_pct_total := tot_pct_total n;
     pct_parent := pct_parent n; child_time := child_time n; obj := obj n |}.

Definition set_pct_total (n : node) (x : float) : node :=
  {| name := name n; short_name := short_name n; time := time n;
     count := count n; tot_time := tot_time n; tot_count := tot_count n;
     pct_total := x; tot_pct_total := tot_pct_total n;
     pct_parent := pct_parent n; child_time := child_time n; obj := obj n |}.

Definition set_tot_pct_total (n : node) (x : float) : node :=
  {| name := name n; short_name := short_name n; time := time n;
     count := count n; tot_time := tot_time n; tot_count := tot_count n;
     pct_total := pct_total n; tot_pct_total := x;
     pct_parent := pct_parent n; child_time := child_time n; obj := obj n |}.

Definition set_pct_parent (n : node) (x : float) : node :=
  {| name := name n; short_name := short_name n; time := time n;
     count := count n; tot_time := tot_time n; tot_count := tot_count n;
     pct_total := pct_total n; tot_pct_total := tot_pct_total n;
     pct_parent := x; child_time := child_time n; obj := obj n |}.

Definition set_child_time (n : node) (x : option float) : node :=
  {| name := name n; short_name := short_name n; time := time n;
     count := count n; tot_time := tot_time n; tot_count := tot_count n;
     pct_total := pct_total n; tot_pct_total := tot_pct_total n;
     pct_parent := pct_parent n; child_time := x; obj := obj n |}.

Definition set_obj (n : node) (x : option (option pyobj)) : node :=
  {| name := name n; short_name := short_name n; time := time n;
     count := count n; tot_time := tot_time n; tot_count := tot_count n;
     pct_total := pct_total n; tot_pct_total := tot_pct_total n;
     pct_parent := pct_parent n; child_time := child_time n; obj := x |}.

(** [parts[-1]] *)
Definition last_part (parts : list string) : result string :=
  match rev parts with
  | [] => Raise IndexError
  | p :: _ => Return p
  end.

Definition _prof_node (parts : list string) (o : option pyobj) : result node :=
  let name := Str.join "@" parts in
  short <- last_part parts ;;
  Return {| name := name; short_name := short; time := 0; count := 0;
            tot_time := 0; tot_count := 0; pct_total := 0;
            tot_pct_total := 0; pct_parent := 0; child_time := Some 0%float;
            obj := Some o |}.

(** [node['child_time']] and [del node[key]] *)
Definition get_child_time (n : node) : result float :=
  match child_time n with
  | Some c => Return c
  | None => Raise (KeyError "child_time")
  end.

Definition del_obj (n : node) : result node :=
  match obj n with
  | Some _ => Return (set_obj n None)
  | None => Raise (KeyError "obj")
  end.

Definition del_child_time (n : node) : result node :=
  match child_time n with
  | Some _ => Return (set_child_time n None)
  | None => Raise (KeyError "child_time")
  end.

(** Float division as Python does it: a zero divisor raises. *)
Definition fdiv (a b : float) : result float :=
  if PrimFloat.eqb b 0 then Raise ZeroDivisionError
  else Return (PrimFloat.div a b).

(** ** The raw-trace reader *)

(** A raw record: [(funcpath, count, elapsed_time)]. *)
Definition record : Type := string * Z * float.

(** What iterating over a generator gives: the items it yields, then either its
    normal end or the exception that ends it. *)
Record stream (A : Type) : Type := {
  yielded : list A;
  ended : option exn
}.

Definition yields {A : Type} (xs : list A) : stream A :=
  {| yielded := xs; ended := None |}.

(** The files that can be opened for reading, as their lines. *)
Definition files : Type := string -> option (list string).

Section Reader.

(** The builtin [float] on a string; [None] stands for its [ValueError]. *)
Variable py_float : string -> option float.

(** [path, count, elapsed = line.split()] and
    [path, int(count), float(elapsed)] *)
Definition parse_line (line : string) : result record :=
  match Str.split_ws line with
  | [path; count; elapsed] =>
      match Str.py_int count with
      | None => Raise (ValueError (invalid_int_literal count))
      | Some c =>
          match py_float elapsed with
          | None => Raise (ValueError (invalid_float_literal elapsed))
          | Some t => Return (path, c, t)
          end
      end
  | fields => Raise (ValueError (unpack_got 3 (length fields)))
  end.

Fixpoint read_lines (lines : list string) : stream record :=
  match lines with
  | [] => yields []
  | l :: ls =>
      match parse_line l with
      | Return r =>
          let s := read_lines ls in
          {| yielded := r :: yielded s; ended := ended s |}
      | Raise e => {| yielded := []; ended := Some e |}
      end
  end.

Definition _iter_raw_prof_file (fs : files) (rawname : string)
  : stream record :=
  match fs rawname with
  | None => {| yielded := []; ended := Some (IOError rawname) |}
  | Some lines => read_lines lines
  end.

End Reader.

(** ** The merge engine: [process_profile] *)

(** [dec]: the extension of the file name when what follows its dots reads as
    an integer, [None] (for [False]) otherwise. *)
Definition decoration (fname : string) : option string :=
  let ext := Str.splitext_ext fname in
  match Str.py_int (Str.lstrip Str.dot ext) with
  | Some _ => Some ext
  | None => None
  end.

(** [nfiles > 1 and dec] as a condition, with the suffix to append. *)
Definition decorating (nfiles : nat) (dec : option string) : option string :=
  if (1 <? nfiles)%nat then
    match dec with
    | Some (String c e) => Some (String c e)
    | _ => None
    end
  else None.

Record merge : Type := {
  tree_nodes : Dict.t node;
  totals : Dict.t node
}.

(** The body of the loop over the records of one file. *)
Definition add_record (nfiles : nat) (dec : option string) (m : merge)
  (r : record) : result merge :=
  let '(funcpath, cnt, t) := r in
  let parts := Str.split Str.at_sign funcpath in
  let '(parts, funcpath) :=
    match decorating nfiles dec with
    | Some d =>
        let parts := map (fun p => (p ++ d)%string) parts in
        (parts, Str.join "@" parts)
    | None => (parts, funcpath)
    end in
  node <- _prof_node parts None ;;
  let node := set_time node (time node + t) in
  let node := set_count node (count node + cnt) in
  let tree := Dict.set (tree_nodes m) funcpath node in
  funcname <- last_part parts ;;
  if String.eqb funcname "$parent" then
    Return {| tree_nodes := tree; totals := totals m |}
  else
    tnode <- match Dict.get (totals m) funcname with
             | Some tnode => Return tnode
             | None => _prof_node parts None
             end ;;
    let tnode := set_tot_time tnode (tot_time tnode + t) in
    let tnode := set_tot_count tnode (tot_count tnode + cnt) in
    Return {| tree_nodes := tree;
              totals := Dict.set (totals m) funcname tnode |}.

(** The loop over the files: each one is read to its end, and an exception of
    the reader ends the whole call. *)
Definition read_file (iter : string -> stream record) (nfiles : nat)
  (m : merge) (fname : string) : result merge :=
  let dec := decoration fname in
  m <- foldM (add_record nfiles dec) (yielded (iter fname)) m ;;
  match ended (iter fname) with
  | Some e => Raise e
  | None => Return m
  end.

(** The body of the loop that fills in totals and percentages.  [node] is the
    object stored under [funcpath]; no earlier iteration has changed it. *)
Definition percentages (tot : Dict.t node) (tree : Dict.t node)
  (item : string * node) : result (Dict.t node) :=
  let '(funcpath, node) := item in
  let parts := Str.rsplit1 Str.at_sign funcpath in
  node <-
    (if negb (String.eqb (Str.parts_last parts) "$parent") then
       tn <- Dict.lookup tot (Str.parts_last parts) ;;
       let node := set_tot_time node (tot_time tn) in
       tn <- Dict.lookup tot (Str.parts_last parts) ;;
       let node := set_tot_count node (tot_count tn) in
       parent <- Dict.lookup tree (Str.parts_first parts) ;;
       pp <- fdiv (time node) (time parent) ;;
       let node := set_pct_parent node pp in
       root <- Dict.lookup tree "$total" ;;
       pt <- fdiv (time node) (time root) ;;
       let node := set_pct_total node pt in
       tn <- Dict.lookup tot (Str.parts_last parts) ;;
       root <- Dict.lookup tree "$total" ;;
       tpt <- fdiv (tot_time tn) (time root) ;;
       Return (set_tot_pct_total node tpt)
     else Return node) ;;
  node <- del_obj node ;;
  node <- del_child_time node ;;
  Return (Dict.set tree funcpath node).

(** The body of the last loop: the parent of a [$parent] node loses its
    time. *)
Definition zero_parent (tree : Dict.t node) (item : string * node)
  : result (Dict.t node) :=
  let parts := Str.rsplit1 Str.at_sign (fst item) in
  if String.eqb (Str.parts_last parts) "$parent" then
    p <- Dict.lookup tree (Str.parts_first parts) ;;
    Return (Dict.set tree (Str.parts_first parts) (set_time p 0))
  else Return tree.

(** [iter fname] is what [_iter_raw_prof_file(fname)] yields. *)
Definition process_profile (iter : string -> stream record)
  (flist : list string) : result (list node * Dict.t node) :=
  let nfiles := length flist in
  m <- foldM (read_file iter nfiles) flist
         {| tree_nodes := []; totals := [] |} ;;
  tree <- foldM (percentages (totals m)) (tree_nodes m) (tree_nodes m) ;;
  root <- Dict.lookup tree "$total" ;;
  let tree := Dict.set tree "$total" (set_tot_time root (time root)) in
  tree <- foldM zero_parent tree tree ;;
  Return (Dict.values tree, totals m).

(** [process_profile] on files of the file system [fs]. *)
Definition process_profile_files (py_float : string -> option float)
  (fs : files) (flist : list string) : result (list node * Dict.t node) :=
  process_profile (_iter_raw_prof_file py_float fs) flist.

(** ** The module globals and the host runtime *)

(** What [sys.getprofile()] returns when it is not [None]. *)
Inductive profiler : Type :=
| instance_profile
| other_profiler.

(** The stack frame handed to the profile function: the code object's file,
    first line and name, and [f_locals['self']] when there is one. *)
Record frame : Type := {
  co_filename : string;
  co_firstlineno : Z;
  co_name : string;
  f_self : option pyobj
}.

Inductive event : Type :=
| call
| return_
| other_event.

(** The part of a parsed source file that [ClassVisitor] looks at. *)
#[warning="-register-all"]
Inductive ast : Type :=
| ClassDef (cname : string) (body : list ast)
| FunctionDef (fname : string) (lineno : Z)
| OtherNode (children : list ast).

(** What the profiler takes from its surroundings: the working directory,
    the MPI rank (0 without MPI), [func_group('openmdao')] of
    [openmdao.devtools.trace], the members of a class with their
    callability, [fnmatchcase], whether a file can be opened for writing, and
    the syntax tree of a source file. *)
Record host : Type := {
  getcwd : string;
  abspath : string -> string;
  mpi_rank : Z;
  func_group_openmdao : Dict.t (list string);
  getmembers : string -> list (string * bool);
  fnmatchcase : string -> string -> bool;
  can_open : string -> bool;
  parse_source : string -> result ast
}.

(** What a line of the file written at finalize is formatted from: the tuple
    [(new_name, data['count'], data['time'])]. *)
Definition out_record : Type := string * Z * float.

(** ["%s %d %f\n" % (new_name, data['count'], data['time'])] *)
Definition fmt_line (l : out_record) : string :=
  let '(new_name, cnt, t) := l in
  new_name ++ " " ++ Str.fmt_d cnt ++ " " ++ Str.fmt_f t ++ Str.newline.

Record globals : Type := {
  _profile_methods : option (Dict.t (list string));
  _profile_prefix : option string;
  _profile_out : option string;
  _profile_start : option float;
  _profile_setup : bool;
  _profile_total : float;
  _profile_matches : Dict.t (list string);
  _call_stack : list string;
  _timing_stack : list float;
  _inst_data : Dict.t node;
  sys_profile : option profiler;
  atexit_registered : nat;
  stdout : list string;
  written : Dict.t (list string)
}.

(** The globals as the module defines them. *)
Definition initial : globals :=
  {| _profile_methods := None; _profile_prefix := None; _profile_out := None;
     _profile_start := None; _profile_setup := false; _profile_total := 0;
     _profile_matches := []; _call_stack := []; _timing_stack := [];
     _inst_data := []; sys_profile := None; atexit_registered := 0;
     stdout := []; written := [] |}.

Definition set_profile_start (g : globals) (x : option float) : globals :=
  {| _profile_methods := _profile_methods g;
     _profile_prefix := _profile_prefix g; _profile_out := _profile_out g;
     _profile_start := x; _profile_setup := _profile_setup g;
     _profile_total := _profile_total g;
     _profile_matches := _profile_matches g; _call_stack := _call_stack g;
     _timing_stack := _timing_stack g; _inst_data := _inst_data g;
     sys_profile := sys_profile g; atexit_registered := atexit_registered g;
     stdout := stdout g; written := written g |}.

Definition set_profile_total (g : globals) (x : float) : globals :=
  {| _profile_methods := _profile_methods g;
     _profile_prefix := _profile_prefix g; _profile_out := _profile_out g;
     _profile_start := _profile_start g; _profile_setup := _profile_setup g;
     _profile_total := x;
     _profile_matches := _profile_matches g; _call_stack := _call_stack g;
     _timing_stack := _timing_stack g; _inst_data := _inst_data g;
     sys_profile := sys_profile g; atexit_registered := atexit_registered g;
     stdout := stdout g; written := written g |}.

Definition set_call_stack (g : globals) (x : list string) : globals :=
  {| _profile_methods := _profile_methods g;
     _profile_prefix := _profile_prefix g; _profile_out := _profile_out g;
     _profile_start := _profile_start g; _profile_setup := _profile_setup g;
     _profile_total := _profile_total g;
     _profile_matches := _profile_matches g; _call_stack := x;
     _timing_stack := _timing_stack g; _inst_data := _inst_data g;
     sys_profile := sys_profile g; atexit_registered := atexit_registered g;
     stdout := stdout g; written := written g |}.

Definition set_timing_stack (g : globals) (x : list float) : globals :=
  {| _profile_methods := _profile_methods g;
     _profile_prefix := _profile_prefix g; _profile_out := _profile_out g;
     _profile_start := _profile_start g; _profile_setup := _profile_setup g;
     _profile_total := _profile_total g;
     _profile_matches := _profile_matches g; _call_stack := _call_stack g;
     _timing_stack := x; _inst_data := _inst_data g;
     sys_profile := sys_profile g; atexit_registered := atexit_registered g;
     stdout := stdout g; written := written g |}.

Definition set_inst_data (g : globals) (x : Dict.t node) : globals :=
  {| _profile_methods := _profile_methods g;
     _profile_prefix := _profile_prefix g; _profile_out := _profile_out g;
     _profile_start := _profile_start g; _profile_setup := _profile_setup g;
     _profile_total := _profile_total g;
     _profile_matches := _profile_matches g; _call_stack := _call_stack g;
     _timing_stack := _timing_stack g; _inst_data := x;
     sys_profile := sys_profile g; atexit_registered := atexit_registered g;
     stdout := stdout g; written := written g |}.

Definition set_sys_profile (g : globals) (x : option profiler) : globals :=
  {| _profile_methods := _profile_methods g;
     _profile_prefix := _profile_prefix g; _profile_out := _profile_out g;
     _profile_start := _profile_start g; _profile_setup := _profile_setup g;
     _profile_total := _profile_total g;
     _profile_matches := _profile_matches g; _call_stack := _call_stack g;
     _timing_stack := _timing_stack g; _inst_data := _inst_data g;
     sys_profile := x; atexit_registered := atexit_registered g;
     stdout := stdout g; written := written g |}.

Definition set_stdout (g : globals) (x : list string) : globals :=
  {| _profile_methods := _profile_methods g;
     _profile_prefix := _profile_prefix g; _profile_out := _profile_out g;
     _profile_start := _profile_start g; _profile_setup := _profile_setup g;
     _profile_total := _profile_total g;
     _profile_matches := _profile_matches g; _call_stack := _call_stack g;
     _timing_stack := _timing_stack g; _inst_data := _inst_data g;
     sys_profile := sys_profile g; atexit_registered := atexit_registered g;
     stdout := x; written := written g |}.

Definition set_written (g : globals) (x : Dict.t (list string))
  : globals :=
  {| _profile_methods := _profile_methods g;
     _profile_prefix := _profile_prefix g; _profile_out := _profile_out g;
     _profile_start := _profile_start g; _profile_setup := _profile_setup g;
     _profile_total := _profile_total g;
     _profile_matches := _profile_matches g; _call_stack := _call_stack g;
     _timing_stack := _timing_stack g; _inst_data := _inst_data g;
     sys_profile := sys_profile g; atexit_registered := atexit_registered g;
     stdout := stdout g; written := x |}.

(** The result of a function that works on mutable state: the state at its
    normal end, or the exception with the state as the raise leaves it. *)
Inductive outcome (S : Type) : Type :=
| Done (s : S)
| Raised (e : exn) (s : S).

Arguments Done {S} s.
Arguments Raised {S} e s.

Definition andthen {S : Type} (m : outcome S) (k : S -> outcome S)
  : outcome S :=
  match m with
  | Done s => k s
  | Raised e s => Raised e s
  end.

Notation "s <~ m ;; k" := (andthen m (fun s => k))
  (at level 61, m at next level, right associativity).

Definition state_of {S : Type} (m : outcome S) : S :=
  match m with
  | Done s => s
  | Raised _ s => s
  end.

(** A [for] loop whose body mutates the state and may raise. *)
Fixpoint forM {S B : Type} (body : S -> B -> outcome S) (xs : list B) (s : S)
  : outcome S :=
  match xs with
  | [] => Done s
  | x :: xs' => s' <~ body s x ;; forM body xs' s'
  end.

(** [stack.pop()]: the stack without its last element, and that element. *)
Definition pop {A : Type} (stack : list A) : option (list A * A) :=
  match rev stack with
  | [] => None
  | x :: r => Some (rev r, x)
  end.

(** A local computation inside a function on mutable state: when it raises,
    the state is as it was. *)
Definition try_ {S A : Type} (r : result A) (s : S) (k : A -> outcome S)
  : outcome S :=
  match r with
  | Return a => k a
  | Raise e => Raised e s
  end.

(** ** The call-stack tracker *)

Definition add_match (matches : Dict.t (list string)) (name class_ : string)
  : Dict.t (list string) :=
  match Dict.get matches name with
  | Some cs => Dict.set matches name (cs ++ [class_])
  | None => Dict.set matches name [class_]
  end.

Definition _collect_methods (h : host) (method_dict : Dict.t (list string))
  : Dict.t (list string) :=
  fold_left
    (fun matches (entry : string * list string) =>
       let (pattern, classes) := entry in
       fold_left
         (fun matches class_ =>
            fold_left
              (fun matches (member : string * bool) =>
                 let (name, is_callable) := member in
                 if is_callable
                    && (String.eqb pattern "*" || fnmatchcase h name pattern)
                 then add_match matches name class_
                 else matches)
              (getmembers h class_) matches)
         classes matches)
    method_dict [].

Definition setup (h : host) (prefix : string)
  (methods : option (Dict.t (list string))) (prof_dir : option string)
  (g : globals) : outcome globals :=
  if _profile_setup g then
    Raised (RuntimeError "profiling is already set up.") g
  else
    let pfx :=
      match prof_dir with
      | None => Str.path_join (getcwd h) prefix
      | Some d => Str.path_join (abspath h d) prefix
      end in
    let ms :=
      match methods with
      | None => func_group_openmdao h
      | Some m => m
      end in
    let g1 :=
      {| _profile_methods := Some ms; _profile_prefix := Some pfx;
         _profile_out := _profile_out g; _profile_start := _profile_start g;
         _profile_setup := true; _profile_total := _profile_total g;
         _profile_matches := _profile_matches g;
         _call_stack := _call_stack g; _timing_stack := _timing_stack g;
         _inst_data := _inst_data g; sys_profile := sys_profile g;
         atexit_registered := atexit_registered g; stdout := stdout g;
         written := written g |} in
    let out := (pfx ++ "." ++ Str.fmt_d (mpi_rank h))%string in
    if can_open h out then
      Done
        {| _profile_methods := Some ms; _profile_prefix := Some pfx;
           _profile_out := Some out; _profile_start := _profile_start g;
           _profile_setup := true; _profile_total := _profile_total g;
           _profile_matches := _collect_methods h ms;
           _call_stack := _call_stack g; _timing_stack := _timing_stack g;
           _inst_data := _inst_data g; sys_profile := sys_profile g;
           atexit_registered := S (atexit_registered g); stdout := stdout g;
           written := written g |}
    else Raised (IOError out) g1.

(** [isinstance(self, classes)] *)
Definition isinstance (self : pyobj) (classes : list string) : bool :=
  existsb (fun c => existsb (String.eqb c) (obj_classes self)) classes.

(** The three nested tests of the profile function: the instance when the
    frame is one to record. *)
Definition matched (g : globals) (f : frame) : option pyobj :=
  match Dict.get (_profile_matches g) (co_name f) with
  | None => None
  | Some classes =>
      match f_self f with
      | None => None
      | Some self => if isinstance self classes then Some self else None
      end
  end.

(** ["%s#%d#%d#%s" % (co_filename, co_firstlineno, id(self), func_name)] *)
Definition token (f : frame) (self : pyobj) : string :=
  (co_filename f ++ "#" ++ Str.fmt_d (co_firstlineno f) ++ "#"
   ++ Str.fmt_d (obj_id self) ++ "#" ++ co_name f)%string.

(** [now] is what [etime()] returns in this call. *)
Definition _instance_profile (now : float) (f : frame) (ev : event)
  (g : globals) : outcome globals :=
  match ev with
  | call =>
      match matched g f with
      | Some self =>
          let g := set_call_stack g (_call_stack g ++ [token f self]) in
          Done (set_timing_stack g (_timing_stack g ++ [now]))
      | None => Done g
      end
  | return_ =>
      match matched g f with
      | Some self =>
          let final := now in
          let path := Str.join "@" (_call_stack g) in
          g <~ (if Dict.mem (_inst_data g) path then Done g
                else try_ (_prof_node (_call_stack g) (Some self)) g
                       (fun n =>
                          Done (set_inst_data g
                                  (Dict.set (_inst_data g) path n)))) ;;
          match pop (_call_stack g) with
          | None => Raised IndexError g
          | Some (stack, _) =>
              let g := set_call_stack g stack in
              try_ (Dict.lookup (_inst_data g) path) g
                (fun pdata =>
                   match pop (_timing_stack g) with
                   | None => Raised IndexError g
                   | Some (tstack, t0) =>
                       let g := set_timing_stack g tstack in
                       let pdata :=
                         set_time pdata (time pdata + (final - t0)) in
                       let pdata := set_count pdata (count pdata + 1) in
                       Done (set_inst_data g
                               (Dict.set (_inst_data g) path pdata))
                   end)
          end
      | None => Done g
      end
  | other_event => Done g
  end.

Definition start (h : host) (now : float) (g : globals) : outcome globals :=
  match _profile_start g with
  | Some _ => Done (set_stdout g (stdout g ++ ["profiling is already active."]))
  | None =>
      g <~ (if _profile_setup g then Done g
            else setup h "iprof" None None g) ;;
      let g := set_profile_start g (Some now) in
      let g := set_call_stack g (_call_stack g ++ ["$total"]) in
      g <~ (if Dict.mem (_inst_data g) "$total" then Done g
            else try_ (_prof_node ["$total"] None) g
                   (fun n =>
                      Done (set_inst_data g
                              (Dict.set (_inst_data g) "$total" n)))) ;;
      match sys_profile g with
      | Some _ =>
          Raised (RuntimeError "another profile function is already active.")
            g
      | None => Done (set_sys_profile g (Some instance_profile))
      end
  end.

Definition stop (now : float) (g : globals) : outcome globals :=
  match _profile_start g with
  | None => Done g
  | Some t0 =>
      let g := set_sys_profile g None in
      match pop (_call_stack g) with
      | None => Raised IndexError g
      | Some (stack, _) =>
          let g := set_call_stack g stack in
          let g := set_profile_total g (_profile_total g + (now - t0)) in
          try_ (Dict.lookup (_inst_data g) "$total") g
            (fun root =>
               let root := set_time root (_profile_total g) in
               let root := set_count root (count root + 1) in
               let g :=
                 set_inst_data g (Dict.set (_inst_data g) "$total" root) in
               Done (set_profile_start g None))
      end
  end.

(** ** The name resolver *)

(** A dictionary whose keys are compared with [eqb]. *)
Section Assoc.
Variables K V : Type.
Variable eqb : K -> K -> bool.

Fixpoint aget (d : list (K * V)) (k : K) : option V :=
  match d with
  | [] => None
  | (k', v) :: d' => if eqb k' k then Some v else aget d' k
  end.

Fixpoint aset (d : list (K * V)) (k : K) (v : V) : list (K * V) :=
  match d with
  | [] => [(k, v)]
  | (k', v') :: d' =>
      if eqb k' k then (k', v) :: d' else (k', v') :: aset d' k v
  end.
End Assoc.

(** [(qfile, qclass, qname)] *)
Definition qual : Type := option string * option string * string.

(** [ClassVisitor(fname, cache).visit(node)]: a function definition is
    recorded under its line and not entered; a class body is visited with the
    class name on the stack; any other node passes the visit on to its
    children. *)
Fixpoint visit (fname : string) (class_stack : list string)
  (cache : list (Z * qual)) (n : ast) : list (Z * qual) :=
  match n with
  | ClassDef cname body =>
      fold_left (visit fname (class_stack ++ [cname])) body cache
  | FunctionDef name line =>
      let q : qual :=
        match class_stack with
        | [] => (Some ("<" ++ fname ++ ">")%string, None, name)
        | _ => (None, Some (Str.join "." class_stack), name)
        end in
      aset Z.eqb cache line q
  | OtherNode children => fold_left (visit fname class_stack) children cache
  end.

(** The per-file cache of the source only saves parsing a file again; it is
    left out. *)
Definition _find_qualified_name (h : host) (filename : string) (line : Z)
  : result qual :=
  tree <- parse_source h filename ;;
  match aget Z.eqb (visit filename [] [] tree) line with
  | Some q => Return q
  | None => Raise (KeyError (Str.fmt_d line))
  end.

(** ["%s" % x] for a string or [None] *)
Definition fmt_s (x : option string) : string :=
  match x with
  | Some s => s
  | None => "None"
  end.

Definition option_string_eqb (a b : option string) : bool :=
  match a, b with
  | Some x, Some y => String.eqb x y
  | None, None => true
  | _, _ => false
  end.

Definition owner_eqb (a b : option string * option string) : bool :=
  option_string_eqb (fst a) (fst b) && option_string_eqb (snd a) (snd b).

Record names : Type := {
  _obj_map : Dict.t string;
  idents : list ((option string * option string) * Dict.t Z)
}.

(** The body of the loop that fixes the names in [_inst_data]. *)
Definition fix_name (h : host) (st : names) (item : string * node)
  : result names :=
  let '(funcpath, data) := item in
  let fname := Str.parts_last (Str.rsplit1 Str.at_sign funcpath) in
  if String.eqb fname "$total" then Return st
  else
    match Str.split Str.hash fname with
    | [filename; line; ident; _] =>
        ln <- match Str.py_int line with
              | Some z => Return z
              | None => Raise (ValueError (invalid_int_literal line))
              end ;;
        q <- _find_qualified_name h filename ln ;;
        let '(qfile, qclass, qname) := q in
        let idict :=
          match aget owner_eqb (idents st) (qfile, qclass) with
          | Some d => d
          | None => []
          end in
        let '(idict, ident) :=
          match Dict.get idict ident with
          | Some i => (idict, i)
          | None =>
              let i := Z.of_nat (length idict) in
              (Dict.set idict ident i, i)
          end in
        let ids := aset owner_eqb (idents st) (qfile, qclass) idict in
        o <- match obj data with
             | Some o => Return o
             | None => Raise (KeyError "obj")
             end ;;
        let display :=
          match match o with
                | Some self => obj_pathname self
                | None => None
                end with
          | None =>
              match qfile with
              | None =>
                  ("<" ++ fmt_s qclass ++ "#" ++ Str.fmt_d ident ++ "."
                   ++ qname ++ ">")%string
              | Some qf => ("<" ++ qf ++ "." ++ qname ++ ">")%string
              end
          | Some name =>
              Str.join "." [name; ("<" ++ fmt_s qclass ++ "." ++ qname ++ ">")%string]
          end in
        Return {| _obj_map := Dict.set (_obj_map st) fname display;
                  idents := ids |}
    | fields => Raise (ValueError (unpack_got 4 (length fields)))
    end.

Definition fix_names (h : host) (inst : Dict.t node) : result (Dict.t string) :=
  st <- foldM (fix_name h) inst {| _obj_map := []; idents := [] |} ;;
  let m := Dict.set (_obj_map st) "$total" "$total" in
  Return (Dict.set m "$parent" "$parent").

(** ** The finalize step *)

(** The body of the loop that computes child times: the time of a node whose
    path has more than one segment is added to the [child_time] of the node
    stored under the path without its last segment. *)
Definition add_child_time (inst : Dict.t node) (item : string * node)
  : outcome (Dict.t node) :=
  let '(funcpath, data) := item in
  let parts := Str.rsplit1 Str.at_sign funcpath in
  if Str.parts_many parts then
    try_ (Dict.lookup inst (Str.parts_first parts)) inst
      (fun p =>
         try_ (get_child_time p) inst
           (fun c =>
              Done (Dict.set inst (Str.parts_first parts)
                      (set_child_time p (Some (c + time data)%float)))))
  else Done inst.

Definition child_times (inst : Dict.t node) : outcome (Dict.t node) :=
  forM add_child_time inst inst.

(** The body of the loop that builds [parnodes]: what it appends. *)
Definition parent_node (item : string * node) : result (list (string * node)) :=
  let '(funcpath, node) := item in
  ct <- get_child_time node ;;
  if PrimFloat.ltb 0 ct then
    let parts := Str.split Str.at_sign funcpath in
    let pparts := parts ++ ["$parent"] in
    ex_child_node <- _prof_node pparts None ;;
    let ex_child_node := set_time ex_child_node (time node - ct) in
    let ex_child_node := set_count ex_child_node 1 in
    Return [(Str.join "@" pparts, ex_child_node)]
  else Return [].

Definition parent_nodes (inst : Dict.t node) : result (list (string * node)) :=
  foldM (fun parnodes item =>
           new <- parent_node item ;; Return (parnodes ++ new))
        inst [].

(** [new_name] of a line and the tuple that the line is formatted from: the
    segments of the path are looked up in [_obj_map]. *)
Definition out_line (obj_map : Dict.t string) (item : string * node)
  : result out_record :=
  let '(name, data) := item in
  segs <- foldM (fun acc s => d <- Dict.lookup obj_map s ;; Return (acc ++ [d]))
            (Str.split Str.at_sign name) [] ;;
  Return (Str.join "@" segs, count data, time data).

(** The tuples of the lines written until the loop ends or raises. *)
Fixpoint out_lines (obj_map : Dict.t string) (items : list (string * node))
  : stream out_record :=
  match items with
  | [] => yields []
  | item :: rest =>
      match out_line obj_map item with
      | Return l =>
          let s := out_lines obj_map rest in
          {| yielded := l :: yielded s; ended := ended s |}
      | Raise e => {| yielded := []; ended := Some e |}
      end
  end.

Definition _finalize_profile (h : host) (now : float) (g : globals)
  : outcome globals :=
  g <~ stop now g ;;
  try_ (fix_names h (_inst_data g)) g
    (fun obj_map =>
       let passed := child_times (_inst_data g) in
       let g := set_inst_data g (state_of passed) in
       match passed with
       | Raised e _ => Raised e g
       | Done inst =>
           try_ (parent_nodes inst) g
             (fun parnodes =>
                match _profile_prefix g with
                | None => Raised TypeError g
                | Some prefix =>
                    let out :=
                      (Str.basename prefix ++ "."
                       ++ Str.fmt_d (mpi_rank h))%string in
                    if can_open h out then
                      let lines := out_lines obj_map (inst ++ parnodes) in
                      let g :=
                        set_written g
                          (Dict.set (written g) out
                             (map fmt_line (yielded lines))) in
                      match ended lines with
                      | Some e => Raised e g
                      | None => Done g
                      end
                    else Raised (IOError out) g
                end)
       end).

(** ** Vocabulary of the properties *)



(** The sum of a list of floats, added from the left starting at zero, as
    Python's [sum] does. *)
Definition fsum (xs : list float) : float := fold_left PrimFloat.add xs 0%float.





(** ** Scenarios *)

(** A node as the tracker stores it under [path], with a count and a time. *)
Definition stored (path : string) (cnt : Z) (t : float) : node :=
  {| name := path;
     short_name := Str.parts_last (Str.rsplit1 Str.at_sign path);
     time := t; count := cnt; tot_time := 0; tot_count := 0;
     pct_total := 0; tot_pct_total := 0; pct_parent := 0;
     child_time := Some 0%float; obj := Some None |}.

(** What a node shows of a record: its name, count and time. *)
Definition summary (n : node) : string * Z * float :=
  (name n, count n, time n).

(** The records [A 1 2.0], [A@B 1 1.0], [$total 1 3.0]: as nodes in memory,
    for the loops over the child times and the synthetic nodes, and as the
    records of a raw file. *)
Definition scenario_inst : Dict.t node :=
  [("A", stored "A" 1 2); ("A@B", stored "A@B" 1 1);
   ("$total", stored "$total" 1 3)].

Definition scenario_raw : list record :=
  [("A", 1%Z, 2%float); ("A@B", 1%Z, 1%float); ("$total", 1%Z, 3%float)].

(** A raw file that holds, after these three records, the record
    [A@$parent 1 1.0] of a synthetic node. *)
Definition parented_raw : list record :=
  scenario_raw ++ [("A@$parent", 1%Z, 1%float)].

(** A raw file in which the path [A] comes twice. *)
Definition repeated_raw : list record :=
  [("A", 1%Z, 2%float); ("A", 1%Z, 1%float); ("$total", 1%Z, 3%float)].

(** Two raw files of an MPI run, one per rank, each with its root record. *)
Definition ranked_iter (fname : string) : stream record :=
  if String.eqb fname "iprof.0" then yields [("$total", 1%Z, 1%float)]
  else yields [("$total", 1%Z, 2%float)].

(** A host: one class [System] with a method [run], defined at line 10 of
    the file it is parsed from. *)
Definition host0 : host :=
  {| getcwd := "/home/u"; abspath := fun d => d; mpi_rank := 0;
     func_group_openmdao := [("*", ["System"])];
     getmembers := fun _ => [("run", true)];
     fnmatchcase := fun _ _ => false;
     can_open := fun _ => true;
     parse_source := fun _ => Return (ClassDef "System" [FunctionDef "run" 10]) |}.

Definition system0 : pyobj :=
  {| obj_id := 7; obj_classes := ["System"]; obj_pathname := None |}.

(** The frame of [run] on [system0], in the file [f.py]. *)
Definition frame0 : frame :=
  {| co_filename := "f.py"; co_firstlineno := 10; co_name := "run";
     f_self := Some system0 |}.

(** The globals after a first [start()] at time 1. *)
Definition active0 : globals := state_of (start host0 1 initial).

(** The globals of that session while [run] is running on [system0], called
    at time 2, and after it has returned at time 4. *)
Definition running0 : globals :=
  state_of (_instance_profile 2 frame0 call active0).

Definition session0 : globals :=
  state_of (_instance_profile 4 frame0 return_ running0).

(** The globals of an active session whose call stack has, above the root, a
    token that is not the token of [frame0], entered at time 3. *)
Definition mismatched0 : globals :=
  set_timing_stack (set_call_stack active0 ["$total"; "g.py#1#2#other"]) [3%float].

(** The globals before any session, with a profile function of another
    tool registered. *)
Definition foreign0 : globals := set_sys_profile initial (Some other_profiler).

(** Where [setup()] opens its output file when called without arguments. *)
Definition default_out (h : host) : string :=
  (Str.path_join (getcwd h) "iprof" ++ "." ++ Str.fmt_d (mpi_rank h))%string.

(** The profile data of the scenario after the child-time pass. *)
Definition scenario_timed : Dict.t node := state_of (child_times scenario_inst).

(** A line of a raw file is well formed when it has three fields, of which
    the second reads as an [int] and the third as a [float]. *)
Definition well_formed (py_float : string -> option float) (line : string)
  : bool :=
  match Str.split_ws line with
  | [_; c; e] =>
      match Str.py_int c, py_float e with
      | Some _, Some _ => true
      | _, _ => false
      end
  | _ => false
  end.

(** A reader of floats for the scenarios: plain literals [digits.digits] of
    at most fifteen digits, whose value is the quotient of two integers that
    binary64 holds exactly; it refuses everything else. *)
Definition sample_float (s : string) : option float :=
  match Str.split Str.dot s with
  | [ip; fp] =>
      match Str.py_int (ip ++ fp) with
      | Some num =>
          if (String.length (ip ++ fp) <=? 15)%nat
             && forallb (fun c => (48 <=? nat_of_ascii c)%nat
                                  && (nat_of_ascii c <=? 57)%nat)
                  (Str.chars (ip ++ fp))
             && negb (String.eqb ip "") && negb (String.eqb fp "")
          then Some (PrimFloat.div (PrimFloat.of_uint63 (Uint63.of_Z num))
                       (PrimFloat.of_uint63
                          (Uint63.of_Z (10 ^ Z.of_nat (String.length fp)))))
          else None
      | None => None
      end
  | _ => None
  end.

(** The whitespace characters U+00A0 and U+2003. *)
Definition no_break_space : string := String "194" (String "160" "").
Definition em_space : string := String "226" (String "128" (String "131" "")).

(** A file system with one raw file, whose second line has a count that is
    not an integer. *)
Definition broken_files : files :=
  fun fname =>
    if String.eqb fname "iprof.0"
    then Some ["A 1 2.0"; "A@B one 1.0"; "$total 1 3.0"]
    else None.

(** ** Auxiliary notions of the proofs *)



(** A rank suffix: a dot, and no separator after it. *)
Definition ranked (d : string) : Prop :=
  exists t, d = String Str.dot t /\ ~ In Str.at_sign (Str.chars t).

(** The last segment of a path has a dot. *)
Definition dotted (k : string) : Prop :=
  In Str.dot (Str.chars (Str.parts_last (Str.rsplit1 Str.at_sign k))).

(** The path under which a record is stored. *)
Definition stored_path (nfiles : nat) (dec : option string) (funcpath : string)
  : string :=
  match decorating nfiles dec with
  | Some d =>
      Str.join "@"
        (map (fun p => (p ++ d)%string) (Str.split Str.at_sign funcpath))
  | None => funcpath
  end.

(** Every path of the tree has a dot in its last segment. *)
Definition all_dotted (m : merge) : Prop :=
  forall k, In k (Dict.keys (tree_nodes m)) -> dotted k.

(** ** Vocabulary of the further properties *)

(** The count of the root node, 0 when there is none yet. *)
Definition root_count (inst : Dict.t node) : Z :=
  match Dict.get inst "$total" with
  | Some root => count root
  | None => 0
  end.

(** The class [class_] is listed under the method name [name]. *)
Definition lists (matches : Dict.t (list string)) (name class_ : string)
  : Prop :=
  exists classes, Dict.get matches name = Some classes /\ In class_ classes.

(** The line of a node in the file that the finalize step writes: the
    segments of its path, each replaced by its entry of [_obj_map], then its
    count and its time. *)
Definition line_of (obj_map : Dict.t string) (item : string * node)
  (line : string) : Prop :=
  exists segs,
    Forall2 (fun s d => Dict.get obj_map s = Some d)
      (Str.split Str.at_sign (fst item)) segs
    /\ line = fmt_line (Str.join "@" segs, count (snd item), time (snd item)).

(** Two nodes stored under the same path that differ in their child time at
    most. *)
Definition same_but_child_time (a b : string * node) : Prop :=
  fst a = fst b /\ exists c, snd b = set_child_time (snd a) c.

(** The name of the file that the finalize step writes. *)
Definition finalize_out (h : host) (prefix : string) : string :=
  (Str.basename prefix ++ "." ++ Str.fmt_d (mpi_rank h))%string.

(** The ordinals of the instances of one owner are 0, 1, 2, ... in the order
    in which the instances were met, one per instance. *)
Definition numbered (idict : Dict.t Z) : Prop :=
  map snd idict = map Z.of_nat (seq 0 (length idict))
  /\ NoDup (Dict.keys idict).

(** The loop of the finalize step that fixes the names, with its state. *)
Definition fix_names_loop (h : host) (inst : Dict.t node) : result names :=
  foldM (fix_name h) inst {| _obj_map := []; idents := [] |}.

(** Profile data with two instances of the class of [host0]. *)
Definition two_instances : Dict.t node :=
  [("$total", stored "$total" 1 3);
   ("$total@f.py#10#7#run", stored "$total@f.py#10#7#run" 1 1);
   ("$total@f.py#10#8#run", stored "$total@f.py#10#8#run" 1 1)].

(** *** The merge *)

(** The first loop of [process_profile]. *)
Definition read_files (iter : string -> stream record) (flist : list string)
  : result merge :=
  foldM (read_file iter (length flist)) flist
    {| tree_nodes := []; totals := [] |}.

(** The records of the files, in the order in which they are read, each with
    the decoration of its file. *)
Definition labelled (iter : string -> stream record) (flist : list string)
  : list (option string * record) :=
  flat_map (fun f => map (fun r => (decoration f, r)) (yielded (iter f)))
    flist.

(** The segments under which a record is stored, and the last of them. *)
Definition stored_parts (nfiles : nat) (dec : option string)
  (funcpath : string) : list string :=
  match decorating nfiles dec with
  | Some d => map (fun p => (p ++ d)%string) (Str.split Str.at_sign funcpath)
  | None => Str.split Str.at_sign funcpath
  end.

Definition stored_name (nfiles : nat) (dec : option string)
  (funcpath : string) : string :=
  last (stored_parts nfiles dec funcpath) "".

(** The node that [_prof_node] makes for the segments of a record. *)
Definition fresh_node (nfiles : nat) (dec : option string) (funcpath : string)
  : node :=
  {| name := Str.join "@" (stored_parts nfiles dec funcpath);
     short_name := stored_name nfiles dec funcpath;
     time := 0; count := 0; tot_time := 0; tot_count := 0;
     pct_total := 0; tot_pct_total := 0; pct_parent := 0;
     child_time := Some 0%float; obj := Some None |}.

(** The tree node that a record leaves, and the totals node after it. *)
Definition record_node (nfiles : nat) (lr : option string * record) : node :=
  let '(dec, (funcpath, cnt, t)) := lr in
  set_count (set_time (fresh_node nfiles dec funcpath) (0 + t)) (0 + cnt).

Definition bump_total (nfiles : nat) (lr : option string * record)
  (old : option node) : node :=
  let '(dec, (funcpath, cnt, t)) := lr in
  let tnode :=
    match old with
    | Some tnode => tnode
    | None => fresh_node nfiles dec funcpath
    end in
  set_tot_count (set_tot_time tnode (tot_time tnode + t))
    (tot_count tnode + cnt).

Definition path_of (nfiles : nat) (lr : option string * record) : string :=
  stored_path nfiles (fst lr) (fst (fst (snd lr))).

Definition name_of (nfiles : nat) (lr : option string * record) : string :=
  stored_name nfiles (fst lr) (fst (fst (snd lr))).

Definition add_record_result (nfiles : nat) (m : merge)
  (lr : option string * record) : merge :=
  {| tree_nodes :=
       Dict.set (tree_nodes m) (path_of nfiles lr) (record_node nfiles lr);
     totals :=
       if String.eqb (name_of nfiles lr) "$parent" then totals m
       else Dict.set (totals m) (name_of nfiles lr)
              (bump_total nfiles lr (Dict.get (totals m) (name_of nfiles lr)))
  |}.

(** The records that count for the totals of the function [f]: those whose
    last stored segment is [f], the segment [$parent] apart. *)
Definition counted_for (nfiles : nat) (f : string)
  (lrs : list (option string * record)) : list (option string * record) :=
  filter (fun lr => String.eqb (name_of nfiles lr) f
                    && negb (String.eqb f "$parent")) lrs.

Definition zsum (xs : list Z) : Z := fold_left Z.add xs 0%Z.

Definition record_count (lr : option string * record) : Z := snd (fst (snd lr)).
Definition record_time (lr : option string * record) : float := snd (snd lr).


(** What the second loop of [process_profile] makes of the node stored under
    [funcpath]: the body of the loop, without the assignment to the tree. *)
Definition percent_node (tot tree : Dict.t node) (funcpath : string)
  (n : node) : result node :=
  let parts := Str.rsplit1 Str.at_sign funcpath in
  node <-
    (if negb (String.eqb (Str.parts_last parts) "$parent") then
       tn <- Dict.lookup tot (Str.parts_last parts) ;;
       let node := set_tot_time n (tot_time tn) in
       tn <- Dict.lookup tot (Str.parts_last parts) ;;
       let node := set_tot_count node (tot_count tn) in
       parent <- Dict.lookup tree (Str.parts_first parts) ;;
       pp <- fdiv (time node) (time parent) ;;
       let node := set_pct_parent node pp in
       root <- Dict.lookup tree "$total" ;;
       pt <- fdiv (time node) (time root) ;;
       let node := set_pct_total node pt in
       tn <- Dict.lookup tot (Str.parts_last parts) ;;
       root <- Dict.lookup tree "$total" ;;
       tpt <- fdiv (tot_time tn) (time root) ;;
       Return (set_tot_pct_total node tpt)
     else Return n) ;;
  node <- del_obj node ;;
  del_child_time node.

(** Some key of [ks] is [k] extended by the segment [$parent] (or is the
    one-segment path [$parent] itself, for [k] that path): the last loop
    zeroes the time of the node stored under [k]. *)
Definition zeroed_by (ks : list string) (k : string) : bool :=
  existsb
    (fun k2 =>
       String.eqb (Str.parts_last (Str.rsplit1 Str.at_sign k2)) "$parent"
       && String.eqb (Str.parts_first (Str.rsplit1 Str.at_sign k2)) k)
    ks.

(** What the last part of [process_profile] makes of a node of the second
    loop: the root gets its own time as total time, and the parents of
    [$parent] nodes lose their time. *)
Definition finish (ks : list string) (k : string) (n : node) : node :=
  let n := if String.eqb k "$total" then set_tot_time n (time n) else n in
  if zeroed_by ks k then set_time n 0 else n.

(** Two trees hold the same times under the same keys. *)
Definition same_times (d T : Dict.t node) : Prop :=
  forall k, option_map time (Dict.get d k) = option_map time (Dict.get T k).


(** The merge of the raw file with the record of a synthetic node. *)
Definition scenario_iter (fname : string) : stream record :=
  yields parented_raw.

Definition scenario_result : list node * Dict.t node :=
  match process_profile scenario_iter ["iprof.0"] with
  | Return r => r
  | Raise _ => ([], [])
  end.


(** The nodes as the tracker stores them: the name of a node is the path it
    is stored under, its child time is zero and it has its [obj] key. *)
Definition nodes_ok (inst : Dict.t node) : Prop :=
  forall p n, Dict.get inst p = Some n ->
    name n = p /\ child_time n = Some 0%float /\ obj n <> None.


(** A qualified name is that of a free function of the file [fname] or that
    of a method of a class, nested classes joined by dots. *)
Definition qualified_in (fname : string) (q : qual) : Prop :=
  (fst (fst q) = Some ("<" ++ fname ++ ">")%string /\ snd (fst q) = None)
  \/ (fst (fst q) = None
      /\ exists class_stack,
           class_stack <> [] /\ snd (fst q) = Some (Str.join "." class_stack)).

(** Every owner met so far has its instances numbered. *)
Definition all_numbered
  (ids : list ((option string * option string) * Dict.t Z)) : Prop :=
  forall o idict, aget owner_eqb ids o = Some idict -> numbered idict.

(** Every entry of the cache built for the file [fname] is qualified. *)
Definition cache_ok (fname : string) (cache : list (Z * qual)) : Prop :=
  forall l q, aget Z.eqb cache l = Some q -> qualified_in fname q.

(** Induction on syntax trees, with the hypothesis for the children. *)
Fixpoint ast_rect' (P : ast -> Prop)
  (HC : forall c body, Forall P body -> P (ClassDef c body))
  (HF : forall n l, P (FunctionDef n l))
  (HO : forall children, Forall P children -> P (OtherNode children))
  (a : ast) : P a :=
  match a with
  | ClassDef c body =>
      HC c body
        ((fix go (l : list ast) : Forall P l :=
            match l with
            | [] => Forall_nil P
            | x :: l' => Forall_cons x (ast_rect' HC HF HO x) (go l')
            end) body)
  | FunctionDef n l => HF n l
  | OtherNode children =>
      HO children
        ((fix go (l : list ast) : Forall P l :=
            match l with
            | [] => Forall_nil P
            | x :: l' => Forall_cons x (ast_rect' HC HF HO x) (go l')
            end) children)
  end.

(** * Properties *)

(** ** Strings *)

Module StrFacts.
Import Str.

Lemma chars_app (a b : string) : chars (a ++ b) = chars a ++ chars b.
Proof. induction a as [|c a IH]; simpl; [reflexivity | now rewrite IH]. Qed.

Lemma chars_of_list (l : list ascii) : chars (string_of_list_ascii l) = l.
Proof. induction l as [|c l IH]; simpl; [reflexivity | now rewrite IH]. Qed.

Lemma app_empty_r (a : string) : (a ++ "")%string = a.
Proof. induction a as [|c a IH]; simpl; [reflexivity | now rewrite IH]. Qed.

Lemma app_assoc (a b c : string) : ((a ++ b) ++ c = a ++ (b ++ c))%string.
Proof. induction a as [|x a IH]; simpl; [reflexivity | now rewrite IH]. Qed.




(** *** [rsplit] *)

Lemma rsplit1_some (sep : ascii) (s h t : string) :
  rsplit1 sep s = (Some h, t) ->
  s = (h ++ String sep t)%string /\ ~ In sep (chars t).
Proof.
  revert h t; induction s as [|c s IH]; simpl; intros h t H.
  - discriminate.
  - destruct (rsplit1 sep s) as [[h'|] t'] eqn:E.
    + injection H as <- <-. destruct (IH h' t' eq_refl) as [-> N].
      now split.
    + destruct (Ascii.eqb_spec c sep) as [->|N]; [|discriminate].
      injection H as <- <-. split.
      * simpl. f_equal.
        clear IH. revert t' E. induction s as [|d s IH]; simpl; intros t' E.
        -- now injection E as <-.
        -- destruct (rsplit1 sep s) as [[?|] u]; [discriminate|].
           destruct (Ascii.eqb d sep); [discriminate|].
           injection E as <-. now rewrite (IH u eq_refl).
      * clear IH. revert t' E. induction s as [|d s IH]; simpl; intros t' E.
        -- injection E as <-. auto.
        -- destruct (rsplit1 sep s) as [[?|] u]; [discriminate|].
           destruct (Ascii.eqb_spec d sep) as [|N]; [discriminate|].
           injection E as <-. simpl. intros [->|I]; [now apply N|].
           now apply (IH u eq_refl).
Qed.

Lemma rsplit1_none (sep : ascii) (s t : string) :
  rsplit1 sep s = (None, t) -> t = s /\ ~ In sep (chars s).
Proof.
  revert t; induction s as [|d s IH]; simpl; intros t E.
  - injection E as <-. auto.
  - destruct (rsplit1 sep s) as [[?|] u]; [discriminate|].
    destruct (Ascii.eqb_spec d sep) as [|N]; [discriminate|].
    injection E as <-. destruct (IH u eq_refl) as [-> M]. split; [reflexivity|].
    simpl. intros [->|I]; [now apply N | now apply M].
Qed.

Lemma rsplit1_clean (sep : ascii) (s : string) :
  ~ In sep (chars s) -> rsplit1 sep s = (None, s).
Proof.
  induction s as [|d s IH]; simpl; intros N; [reflexivity|].
  rewrite IH by tauto.
  destruct (Ascii.eqb_spec d sep) as [->|_]; [exfalso; tauto | reflexivity].
Qed.

Lemma rsplit1_app (sep : ascii) (h t : string) :
  ~ In sep (chars t) -> rsplit1 sep (h ++ String sep t) = (Some h, t).
Proof.
  intros N. induction h as [|c h IH]; simpl.
  - rewrite (rsplit1_clean _ _ N). now rewrite Ascii.eqb_refl.
  - now rewrite IH.
Qed.

(** The last part of [rsplit(sep, 1)] is free of the separator. *)
Lemma rsplit1_last_clean (sep : ascii) (s : string) :
  ~ In sep (chars (snd (rsplit1 sep s))).
Proof.
  destruct (rsplit1 sep s) as [[h|] t] eqn:E; simpl.
  - now destruct (rsplit1_some _ _ E).
  - destruct (rsplit1_none _ _ E) as [-> N]. exact N.
Qed.

(** *** [split] and [join] *)

Lemma split_not_nil (sep : ascii) (s : string) : split sep s <> [].
Proof.
  destruct s as [|c s]; simpl; [discriminate|].
  destruct (Ascii.eqb c sep); [discriminate|].
  destruct (split sep s); discriminate.
Qed.

Lemma split_clean (sep : ascii) (s : string) :
  Forall (fun p => ~ In sep (chars p)) (split sep s).
Proof.
  induction s as [|c s IH]; simpl.
  - constructor; [simpl; tauto | constructor].
  - destruct (Ascii.eqb_spec c sep) as [->|N].
    + constructor; [simpl; tauto | exact IH].
    + destruct (split sep s) as [|h t]; [constructor; [|constructor]|].
      * simpl. intros [E|[]]. now apply N.
      * inversion IH as [|? ? Hh Ht]; subst. constructor; [|exact Ht].
        simpl. intros [E|I]; [now apply N | now apply Hh].
Qed.

Lemma join_split (sep : ascii) (s : string) :
  join (String sep "") (split sep s) = s.
Proof.
  induction s as [|c s IH]; simpl; [reflexivity|].
  destruct (Ascii.eqb_spec c sep) as [->|N].
  - pose proof (split_not_nil sep s) as NN.
    destruct (split sep s) as [|h t]; [congruence|].
    simpl in *. now rewrite IH.
  - pose proof (split_not_nil sep s) as NN.
    destruct (split sep s) as [|h t]; [congruence|].
    destruct t as [|h' t]; simpl in *; now rewrite <- IH.
Qed.

Lemma join_snoc (sep : string) (l : list string) (x : string) :
  l <> [] -> join sep (l ++ [x]) = (join sep l ++ sep ++ x)%string.
Proof.
  induction l as [|p l IH]; [congruence|]. intros _.
  destruct l as [|q l].
  - reflexivity.
  - change (join sep ((p :: q :: l) ++ [x]))
      with (p ++ sep ++ join sep ((q :: l) ++ [x]))%string.
    rewrite IH by discriminate.
    change (join sep (p :: q :: l)) with (p ++ sep ++ join sep (q :: l))%string.
    now rewrite !app_assoc.
Qed.

Lemma last_part_snoc (l : list string) (x : string) :
  last_part (l ++ [x]) = Return x.
Proof. unfold last_part. now rewrite rev_app_distr. Qed.

Lemma last_part_not_nil (l : list string) :
  l <> [] -> exists x, last_part l = Return x /\ In x l.
Proof.
  intros N. destruct (exists_last N) as [l' [x ->]].
  exists x. split; [apply last_part_snoc | apply in_or_app; simpl; auto].
Qed.


End StrFacts.

(** ** Dictionaries *)

Module DictFacts.

Section Facts.
Variable V : Type.
Implicit Types (d : Dict.t V) (k : string) (v : V).

Lemma get_set_same d k v : Dict.get (Dict.set d k v) k = Some v.
Proof.
  induction d as [|[k' v'] d IH]; simpl.
  - now rewrite String.eqb_refl.
  - destruct (String.eqb k' k) eqn:E; simpl; rewrite E; [reflexivity|exact IH].
Qed.

Lemma get_set_other d k k' v :
  k' <> k -> Dict.get (Dict.set d k v) k' = Dict.get d k'.
Proof.
  intros N. induction d as [|[k0 v0] d IH]; simpl.
  - destruct (String.eqb_spec k k'); [congruence|reflexivity].
  - destruct (String.eqb_spec k0 k) as [->|M]; simpl.
    + destruct (String.eqb_spec k k'); [congruence|reflexivity].
    + destruct (String.eqb k0 k'); [reflexivity|exact IH].
Qed.

Lemma keys_set_present d k v v0 :
  Dict.get d k = Some v0 -> Dict.keys (Dict.set d k v) = Dict.keys d.
Proof.
  induction d as [|[k' v'] d IH]; simpl; [discriminate|].
  destruct (String.eqb k' k); simpl; [reflexivity|].
  intros H. now rewrite (IH H).
Qed.

Lemma keys_set_incl d k v k' :
  In k' (Dict.keys (Dict.set d k v)) -> k' = k \/ In k' (Dict.keys d).
Proof.
  induction d as [|[k0 v0] d IH]; simpl.
  - intros [<-|[]]; auto.
  - destruct (String.eqb k0 k); simpl; intros [<-|I]; auto.
    destruct (IH I); auto.
Qed.

Lemma get_none_iff d k : Dict.get d k = None <-> ~ In k (Dict.keys d).
Proof.
  induction d as [|[k' v'] d IH]; simpl; [tauto|].
  destruct (String.eqb_spec k' k) as [->|N].
  - split; [discriminate | intros H; exfalso; auto].
  - rewrite IH. tauto.
Qed.

Lemma get_in d k v : Dict.get d k = Some v -> In (k, v) d.
Proof.
  induction d as [|[k' v'] d IH]; simpl; [discriminate|].
  destruct (String.eqb_spec k' k) as [->|N].
  - intros H; injection H as ->. now left.
  - intros H. right. now apply IH.
Qed.

Lemma in_get d k v : NoDup (Dict.keys d) -> In (k, v) d -> Dict.get d k = Some v.
Proof.
  induction d as [|[k' v'] d IH]; simpl; [tauto|].
  intros ND [E|I].
  - injection E as -> ->. now rewrite String.eqb_refl.
  - inversion ND as [|? ? NI ND']; subst.
    destruct (String.eqb_spec k' k) as [->|N].
    + exfalso. apply NI. now apply (in_map fst) in I.
    + now apply IH.
Qed.


Lemma lookup_get d k v : Dict.get d k = Some v -> Dict.lookup d k = Return v.
Proof. unfold Dict.lookup. now intros ->. Qed.

Lemma lookup_missing d k : Dict.get d k = None -> Dict.lookup d k = Raise (KeyError k).
Proof. unfold Dict.lookup. now intros ->. Qed.
End Facts.

End DictFacts.

(** ** The child-time pass *)

Module ChildTime.
Import Str StrFacts DictFacts.










(** The pass leaves every stored time as it is, also when it raises. *)
Lemma add_child_time_time (d : Dict.t node) (item : string * node) (p : string) :
  option_map time (Dict.get (state_of (add_child_time d item)) p)
  = option_map time (Dict.get d p)
  /\ forall e s, add_child_time d item = Raised e s -> s = d.
Proof.
  destruct item as [q c]. unfold add_child_time.
  destruct (parts_many (rsplit1 at_sign q)); simpl;
    [|split; [reflexivity | discriminate]].
  unfold Dict.lookup.
  destruct (Dict.get d (parts_first (rsplit1 at_sign q))) as [pn|] eqn:G;
    simpl; [|split; [reflexivity | now intros e s [= _ <-]]].
  unfold get_child_time. destruct (child_time pn) as [c0|]; simpl;
    [|split; [reflexivity | now intros e s [= _ <-]]].
  split; [|discriminate].
  destruct (String.eqb_spec p (parts_first (rsplit1 at_sign q))) as [->|N].
  - now rewrite get_set_same, G.
  - now rewrite get_set_other by exact N.
Qed.

Lemma child_loop_time (xs : Dict.t node) : forall (d : Dict.t node) (p : string),
  option_map time (Dict.get (state_of (forM add_child_time xs d)) p)
  = option_map time (Dict.get d p).
Proof.
  induction xs as [|item xs IH]; intros d p; [reflexivity|].
  simpl. destruct (add_child_time_time d item p) as [T R].
  destruct (add_child_time d item) as [d1|e s] eqn:E; simpl in *.
  - now rewrite IH.
  - exact T.
Qed.

End ChildTime.


(** ** The synthetic self-time nodes *)

Module ParentNodes.
Import Str StrFacts DictFacts.

Lemma split_app (sep : ascii) (a b : string) :
  split sep (a ++ String sep b) = split sep a ++ split sep b.
Proof.
  induction a as [|c a IH]; simpl.
  - now rewrite Ascii.eqb_refl.
  - destruct (Ascii.eqb c sep); [now rewrite IH|].
    rewrite IH. pose proof (split_not_nil sep a) as N.
    destruct (split sep a) as [|h t]; [congruence | reflexivity].
Qed.









End ParentNodes.


(** ** The merge engine *)

Module MergeFacts.
Import Str StrFacts DictFacts.

Lemma foldM_inv {A B : Type} (f : A -> B -> result A) (P : A -> Prop) :
  (forall a x a', f a x = Return a' -> P a -> P a') ->
  forall xs a a', foldM f xs a = Return a' -> P a -> P a'.
Proof.
  intros Step. induction xs as [|x xs IH]; simpl; intros a a' H Pa.
  - now injection H as <-.
  - destruct (f a x) as [a1|e] eqn:E; simpl in H; [|discriminate].
    apply (IH a1 a' H). now apply (Step a x).
Qed.

(** *** What [int] accepts *)

Lemma continue_rest (k : nat) : forall cp syms cp' bytes rest,
  continue k cp syms = Some (cp', bytes, rest) ->
  forall x, In x syms -> (exists b, x = Stray b) \/ In x rest.
Proof.
  induction k as [|k IH]; cbn [continue]; intros cp syms cp' bytes rest H x I.
  - injection H as <- <- <-. now right.
  - destruct syms as [|[cp0 b0|b] syms]; try discriminate.
    destruct (continuation b) as [v|]; [|discriminate].
    destruct (continue k (64 * cp + v) syms) as [[[cp1 bytes1] rest1]|] eqn:E;
      [|discriminate].
    injection H as <- <- <-.
    destruct I as [<-|I]; [left; now exists b|].
    exact (IH _ _ _ _ _ E x I).
Qed.

(** A byte in front does not take a decoded character away. *)
Lemma decode_byte_keeps (c : ascii) (syms : list symbol) (cp : N)
  (bytes : string) :
  In (Char cp bytes) syms -> In (Char cp bytes) (decode_byte c syms).
Proof.
  intros I. unfold decode_byte.
  destruct (N_of_ascii c <? 128)%N; [now right|].
  destruct (lead c) as [[[k payload] lo]|]; [|now right].
  destruct (continue k payload syms) as [[[cp' bytes'] rest]|] eqn:E;
    [|now right].
  destruct (scalar lo cp'); [|now right].
  right. destruct (continue_rest _ _ _ E _ I) as [[b B]|J];
    [discriminate | exact J].
Qed.

(** An ASCII byte of a string is a character of it. *)
Lemma symbols_ascii (s : string) (c : ascii) :
  (N_of_ascii c <? 128)%N = true -> In c (chars s) ->
  In (Char (N_of_ascii c) (String c "")) (symbols s).
Proof.
  intros A. induction s as [|a s IH]; simpl; [tauto|].
  intros [->|I].
  - unfold decode_byte. rewrite A. now left.
  - apply decode_byte_keeps. now apply IH.
Qed.

Lemma int_digits_other (ts : list int_token) :
  In IntOther ts -> forall acc prev, int_digits acc prev ts = None.
Proof.
  induction ts as [|t ts IH]; simpl; [tauto|].
  intros [->|I] acc prev; [reflexivity|].
  destruct t; try reflexivity.
  - destruct prev; [now apply IH | reflexivity].
  - now apply IH.
Qed.

Lemma lstrip_space_other (ts : list int_token) :
  In IntOther ts -> In IntOther (lstrip_space ts).
Proof.
  induction ts as [|t ts IH]; simpl; [tauto|].
  intros [->|I]; [now left|].
  destruct t; try (now right). now apply IH.
Qed.

Lemma rstrip_space_other (ts : list int_token) :
  In IntOther ts -> In IntOther (rstrip_space ts).
Proof.
  intros I. unfold rstrip_space. apply in_rev in I.
  apply lstrip_space_other in I. now apply in_rev in I.
Qed.

(** [int] refuses a literal with a character that it does not know. *)
Lemma py_int_other (s : string) (sym : symbol) :
  In sym (symbols s) -> int_token_of sym = IntOther -> py_int s = None.
Proof.
  intros I O. unfold py_int. cbv zeta.
  destruct (int_max_str_digits <? _)%Z; [reflexivity|].
  assert (J : In IntOther
                (rstrip_space (lstrip_space (map int_token_of (symbols s))))).
  { apply rstrip_space_other, lstrip_space_other.
    rewrite <- O. now apply in_map. }
  destruct (rstrip_space (lstrip_space (map int_token_of (symbols s))))
    as [|t ts]; [destruct J|].
  destruct J as [->|J]; [reflexivity|].
  destruct t; cbn [int_digits]; try reflexivity;
    rewrite (int_digits_other _ J); reflexivity.
Qed.

Lemma py_int_no_at_sign (s : string) (z : Z) :
  py_int s = Some z -> ~ In at_sign (chars s).
Proof.
  intros H I.
  rewrite (@py_int_other s (Char (N_of_ascii at_sign) (String at_sign "")))
    in H; [discriminate | | reflexivity].
  now apply symbols_ascii.
Qed.

Lemma lstrip_chars (a : ascii) (s : string) (c : ascii) :
  In c (chars s) -> c = a \/ In c (chars (lstrip a s)).
Proof.
  induction s as [|b s IH]; simpl; [tauto|].
  destruct (Ascii.eqb_spec b a) as [->|N].
  - intros [<-|I]; [now left | now apply IH].
  - intros I. now right.
Qed.

(** *** Rank decoration *)

Lemma decoration_ranked (fname d : string) :
  decoration fname = Some d -> ranked d.
Proof.
  unfold decoration, splitext_ext.
  destruct (rsplit1 dot (lstrip dot (basename fname))) as [[h|] t].
  - destruct (py_int (lstrip dot (String dot t))) as [z|] eqn:P;
      [|discriminate].
    intros [= <-]. exists t. split; [reflexivity|]. intros I.
    change (lstrip dot (String dot t)) with (lstrip dot t) in P.
    destruct (lstrip_chars dot _ _ I) as [E|J]; [discriminate|].
    exact (py_int_no_at_sign _ P J).
  - simpl. discriminate.
Qed.

Lemma decorating_ranked (fname d : string) (n : nat) :
  decoration fname = Some d -> decorating (S (S n)) (Some d) = Some d.
Proof.
  intros H. destruct (decoration_ranked _ H) as [t [-> _]]. reflexivity.
Qed.

Lemma dotted_not_parent (k : string) :
  dotted k -> parts_last (rsplit1 at_sign k) <> "$parent".
Proof.
  unfold dotted. intros D E. rewrite E in D. simpl in D.
  unfold dot in D. intuition discriminate.
Qed.

Lemma dotted_not_total (k : string) : dotted k -> k <> "$total".
Proof.
  unfold dotted. intros D ->. simpl in D. unfold dot in D.
  intuition discriminate.
Qed.

Lemma rsplit1_join_last (l : list string) (x : string) :
  ~ In at_sign (chars x) ->
  parts_last (rsplit1 at_sign (join "@" (l ++ [x]))) = x.
Proof.
  intros N. destruct l as [|p l].
  - simpl. now rewrite rsplit1_clean.
  - rewrite join_snoc by discriminate.
    change ("@" ++ x)%string with (String at_sign x).
    now rewrite rsplit1_app.
Qed.

Lemma decorated_dotted (d funcpath : string) :
  ranked d ->
  dotted (join "@" (map (fun p => (p ++ d)%string) (split at_sign funcpath))).
Proof.
  intros [t [-> N]]. unfold dotted.
  destruct (exists_last (@split_not_nil at_sign funcpath)) as [l [x E]].
  rewrite E, map_app. simpl.
  assert (~ In at_sign (chars x)) as C.
  { pose proof (split_clean at_sign funcpath) as F. rewrite E in F.
    rewrite Forall_forall in F. apply F. apply in_or_app. right. now left. }
  rewrite rsplit1_join_last.
  - rewrite chars_app. apply in_or_app. right. now left.
  - rewrite chars_app. intros I. apply in_app_or in I as [I|I]; [tauto|].
    simpl in I. destruct I as [I|I]; [discriminate | tauto].
Qed.

(** *** The first loop *)

(** What [add_record] stores: a fresh node that carries the record alone. *)
Lemma add_record_tree (nfiles : nat) (dec : option string) (m m' : merge)
  (funcpath : string) (cnt : Z) (t : float) :
  add_record nfiles dec m (funcpath, cnt, t) = Return m' ->
  exists node,
    tree_nodes m'
    = Dict.set (tree_nodes m) (stored_path nfiles dec funcpath) node
    /\ time node = (0 + t)%float /\ count node = (0 + cnt)%Z.
Proof.
  unfold add_record, stored_path.
  destruct (decorating nfiles dec) as [d|].
  - destruct (_prof_node _ None) as [node|e] eqn:N; simpl; [|discriminate].
    destruct (last_part _) as [funcname|e]; simpl; [|discriminate].
    unfold _prof_node in N.
    destruct (last_part _) as [short|e] in N; simpl in N; [|discriminate].
    injection N as <-.
    destruct (String.eqb funcname "$parent").
    + intros [= <-]. eexists. split; [reflexivity|]. now split.
    + destruct (match Dict.get (totals m) funcname with
                | Some tnode => Return tnode
                | None => _
                end) as [tn|e]; simpl; [|discriminate].
      intros [= <-]. eexists. split; [reflexivity|]. now split.
  - destruct (_prof_node _ None) as [node|e] eqn:N; simpl; [|discriminate].
    destruct (last_part _) as [funcname|e]; simpl; [|discriminate].
    unfold _prof_node in N.
    destruct (last_part _) as [short|e] in N; simpl in N; [|discriminate].
    injection N as <-.
    destruct (String.eqb funcname "$parent").
    + intros [= <-]. eexists. split; [reflexivity|]. now split.
    + destruct (match Dict.get (totals m) funcname with
                | Some tnode => Return tnode
                | None => _
                end) as [tn|e]; simpl; [|discriminate].
      intros [= <-]. eexists. split; [reflexivity|]. now split.
Qed.

Lemma add_record_dotted (nfiles : nat) (d : string) (dec : option string)
  (m m' : merge) (r : record) :
  decorating nfiles dec = Some d -> ranked d ->
  add_record nfiles dec m r = Return m' -> all_dotted m -> all_dotted m'.
Proof.
  intros D R H Inv k I. destruct r as [[funcpath cnt] t].
  apply add_record_tree in H as [node [E _]]. rewrite E in I.
  apply keys_set_incl in I as [->|I]; [|now apply Inv].
  unfold stored_path. rewrite D. now apply decorated_dotted.
Qed.

Lemma read_file_dotted (iter : string -> stream record) (n : nat)
  (fname d : string) (m m' : merge) :
  decoration fname = Some d ->
  read_file iter (S (S n)) m fname = Return m' -> all_dotted m -> all_dotted m'.
Proof.
  intros D H Inv. unfold read_file in H. rewrite D in H.
  destruct (foldM _ _ m) as [m1|e] eqn:F; simpl in H; [|discriminate].
  destruct (ended (iter fname)); [discriminate|]. injection H as <-.
  revert F Inv. apply foldM_inv. intros a x a'.
  apply add_record_dotted with (d := d).
  - now apply decorating_ranked with (fname := fname).
  - now apply decoration_ranked with (fname := fname).
Qed.

Lemma foldM_returns {A B : Type} (f : A -> B -> result A) :
  (forall a x, exists a', f a x = Return a') ->
  forall xs a, exists a', foldM f xs a = Return a'.
Proof.
  intros Step. induction xs as [|x xs IH]; intros a; simpl.
  - now exists a.
  - destruct (Step a x) as [a1 ->]. simpl. apply IH.
Qed.

(** The body of the first loop never raises. *)
Lemma add_record_returns (nfiles : nat) (dec : option string) (m : merge)
  (r : record) : exists m', add_record nfiles dec m r = Return m'.
Proof.
  destruct r as [[funcpath cnt] t]. unfold add_record.
  assert (forall parts : list string, parts <> [] ->
            exists x, last_part parts = Return x) as L.
  { intros parts N. destruct (last_part_not_nil N) as [x [E _]]. now exists x. }
  assert (exists parts path,
            parts <> [] /\
            match decorating nfiles dec with
            | Some d =>
                (map (fun p => (p ++ d)%string) (split at_sign funcpath),
                 join "@" (map (fun p => (p ++ d)%string)
                             (split at_sign funcpath)))
            | None => (split at_sign funcpath, funcpath)
            end = (parts, path)) as [parts [path [N ->]]].
  { destruct (decorating nfiles dec); eexists _, _; (split; [|reflexivity]).
    - intros E. apply map_eq_nil in E. now apply split_not_nil in E.
    - apply split_not_nil. }
  unfold _prof_node. destruct (L parts N) as [x ->]. simpl.
  destruct (String.eqb x "$parent"); [eexists; reflexivity|].
  destruct (Dict.get (totals m) x); simpl; eexists; reflexivity.
Qed.

(** *** The second loop *)

Lemma percentages_raises (tot tree : Dict.t node) (k : string) (n : node) :
  Dict.get tree "$total" = None ->
  parts_last (rsplit1 at_sign k) <> "$parent" ->
  raises (percentages tot tree (k, n)).
Proof.
  intros T NP. unfold percentages, raises.
  destruct (String.eqb_spec (parts_last (rsplit1 at_sign k)) "$parent")
    as [E|_]; [contradiction|]. simpl negb. cbv iota.
  destruct (Dict.lookup tot (parts_last (rsplit1 at_sign k))) as [tn|e];
    simpl; [|eexists; reflexivity].
  destruct (Dict.lookup tree (parts_first (rsplit1 at_sign k))) as [pn|e];
    simpl; [|eexists; reflexivity].
  destruct (fdiv _ _) as [pp|e]; simpl; [|eexists; reflexivity].
  rewrite (lookup_missing _ _ T). simpl. eexists; reflexivity.
Qed.

End MergeFacts.

(** C1.  Merging two raw files whose extensions read as integers never
    returns a tree: every path of both files is stored under a decorated key,
    the root included, and the lookups of the key [$total] in the second loop
    and after it find nothing.  [process_profile] ends with an exception
    whatever the two files hold. *)
Theorem merge_of_two_ranked_files_raises (iter : string -> stream record)
  (f1 f2 : string) :
  decoration f1 <> None -> decoration f2 <> None ->
  raises (process_profile iter [f1; f2]).
Proof.
  intros D1 D2.
  destruct (decoration f1) as [d1|] eqn:E1; [|congruence].
  destruct (decoration f2) as [d2|] eqn:E2; [|congruence].
  unfold process_profile. cbn [length foldM].
  destruct (read_file iter 2 _ f1) as [m1|e] eqn:R1;
    [|eexists; reflexivity]. cbn [bind].
  destruct (read_file iter 2 m1 f2) as [m2|e] eqn:R2;
    [|eexists; reflexivity]. cbn [bind].
  assert (all_dotted m2) as Inv.
  { eapply MergeFacts.read_file_dotted; [exact E2 | exact R2 |].
    eapply MergeFacts.read_file_dotted; [exact E1 | exact R1 |].
    intros k []. }
  assert (Dict.get (tree_nodes m2) "$total" = None) as T.
  { apply DictFacts.get_none_iff. intros I.
    now apply (MergeFacts.dotted_not_total (Inv _ I)). }
  destruct (tree_nodes m2) as [|[k n] rest] eqn:Tree.
  - simpl. eexists; reflexivity.
  - cbn [foldM].
    destruct (@MergeFacts.percentages_raises (totals m2) ((k, n) :: rest) k n T)
      as [e ->].
    + apply MergeFacts.dotted_not_parent. apply Inv. rewrite Tree. now left.
    + eexists; reflexivity.
Qed.

Lemma merge_of_two_ranked_files_witness :
  raises (process_profile ranked_iter ["iprof.0"; "iprof.1"]).
Proof.
  apply merge_of_two_ranked_files_raises; vm_compute; discriminate.
Defined.

(** The merge of the two rank files ends with the [KeyError] of [$total]. *)
Lemma merge_of_two_rank_files :
  process_profile ranked_iter ["iprof.0"; "iprof.1"]
  = Raise (KeyError "$total").
Proof. vm_compute. reflexivity. Qed.

(** C2, as the code has it.  A raw file that holds only the root record with
    a zero time makes [process_profile] raise [ZeroDivisionError], at the
    first division of the percentage loop: there is no sentinel. *)
Theorem zero_root_time_raises (fname : string) (cnt : Z) :
  process_profile (fun _ => yields [("$total", cnt, 0%float)]) [fname]
  = Raise ZeroDivisionError.
Proof. vm_compute. reflexivity. Qed.

(** C2 as stated fails: the call does not return on the record
    [$total 1 0.0]. *)
Lemma zero_root_time_does_not_return :
  ~ exists r,
      process_profile (fun _ => yields [("$total", 1%Z, 0%float)]) ["iprof.0"]
      = Return r.
Proof. intros [r H]. vm_compute in H. discriminate. Qed.

(** C3, as the code has it.  On the raw file with the records [A 1 2.0],
    [A@B 1 1.0], [$total 1 3.0], whatever its name, [process_profile] returns
    the three nodes as read and no synthetic node: [A] with count 1 and its
    time 2.0, which is not zeroed, [A@B] with time 1.0, the total time 2.0
    for the function [A] and [pct_total] 1.0/3.0 for [A@B]; no returned node
    has a [child_time]. *)
Theorem scenario_merge_of_three_records (fname : string) :
  exists nodes tot,
    process_profile (fun _ => yields scenario_raw) [fname]
    = Return (nodes, tot)
    /\ map summary nodes
       = [("A", 1%Z, 2%float); ("A@B", 1%Z, 1%float);
          ("$total", 1%Z, 3%float)]
    /\ map child_time nodes = [None; None; None]
    /\ option_map tot_time (Dict.get tot "A") = Some 2%float
    /\ map tot_time nodes = [2%float; 1%float; 3%float]
    /\ map pct_total nodes = [(2 / 3)%float; (1 / 3)%float; 1%float]
    /\ map pct_parent nodes = [1%float; (1 / 2)%float; 1%float].
Proof.
  eexists _, _. split; [vm_compute; reflexivity|].
  repeat split; vm_compute; reflexivity.
Qed.

(** C3 as stated fails: on the raw file with the three records alone,
    [process_profile] returns the three nodes as read, [A] with its time 2.0,
    and no node [A@$parent]. *)
Lemma scenario_raw_has_no_self_node :
  ~ exists nodes tot n,
      process_profile (fun _ => yields scenario_raw) ["iprof.0"]
      = Return (nodes, tot)
      /\ In n nodes /\ name n = "A@$parent".
Proof.
  intros [nodes [tot [n [H [I E]]]]]. vm_compute in H.
  injection H as <- _. simpl in I.
  destruct I as [<-|[<-|[<-|[]]]]; discriminate.
Qed.

(** C4 on the code.  When the path [A] comes twice in a file, the node stored
    under [A] carries the last record alone, time 1.0 and count 1, while the
    totals of the function [A] add both records up. *)
Theorem repeated_path_keeps_last_record :
  exists nodes tot,
    process_profile (fun _ => yields repeated_raw) ["iprof.0"]
    = Return (nodes, tot)
    /\ map summary nodes = [("A", 1%Z, 1%float); ("$total", 1%Z, 3%float)]
    /\ option_map tot_time (Dict.get tot "A") = Some 3%float
    /\ option_map tot_count (Dict.get tot "A") = Some 2%Z.
Proof.
  eexists _, _. split; [vm_compute; reflexivity|].
  repeat split; vm_compute; reflexivity.
Qed.

(** The same happens to the root when two files whose extensions do not read
    as integers are merged: the root node carries the second file alone,
    the totals carry both, and [tot_pct_total] of the root is 2. *)
Lemma repeated_root_across_files :
  exists nodes tot,
    process_profile (fun _ => yields [("$total", 1%Z, 1%float)])
      ["run.a"; "run.b"]
    = Return (nodes, tot)
    /\ map summary nodes = [("$total", 1%Z, 1%float)]
    /\ option_map tot_time (Dict.get tot "$total") = Some 2%float
    /\ map tot_pct_total nodes = [2%float].
Proof.
  eexists _, _. split; [vm_compute; reflexivity|].
  repeat split; vm_compute; reflexivity.
Qed.

(** ** The call-stack tracker *)

Module TrackerFacts.
Import Str StrFacts DictFacts.

Lemma pop_snoc {A : Type} (l : list A) (x : A) : pop (l ++ [x]) = Some (l, x).
Proof. unfold pop. rewrite rev_app_distr. simpl. now rewrite rev_involutive. Qed.

Lemma pop_some {A : Type} (l stack : list A) (top : A) :
  pop l = Some (stack, top) -> l = stack ++ [top].
Proof.
  unfold pop. destruct (rev l) as [|x r] eqn:E; [discriminate|].
  intros [= <- <-]. rewrite <- (rev_involutive l), E. reflexivity.
Qed.

Lemma pop_nil {A : Type} : pop (@nil A) = None.
Proof. reflexivity. Qed.

Lemma prof_node_snoc (l : list string) (x : string) (o : option pyobj) :
  exists n, _prof_node (l ++ [x]) o = Return n
            /\ time n = 0%float /\ count n = 0%Z.
Proof.
  unfold _prof_node. rewrite last_part_snoc. simpl.
  eexists. split; [reflexivity|]. now split.
Qed.

End TrackerFacts.

(** C5, as the code has it.  The handler of a return event never looks at the
    token of the returning frame.  When both stacks are non-empty it pops
    both, and adds the elapsed time and one count to the node stored under
    the join of the whole call stack, created if need be; this holds whatever
    the token of the frame is.  It raises, with [IndexError], only when the
    call stack or the timing stack is empty. *)
Theorem return_pops_without_checking_token (now : float) (f : frame)
  (g : globals) (self : pyobj) :
  matched g f = Some self ->
  (forall stack top tstack t0,
     pop (_call_stack g) = Some (stack, top) ->
     pop (_timing_stack g) = Some (tstack, t0) ->
     exists g' n0,
       _instance_profile now f return_ g = Done g'
       /\ _call_stack g' = stack /\ _timing_stack g' = tstack
       /\ (Dict.get (_inst_data g) (Str.join "@" (_call_stack g)) = Some n0
           \/ Dict.get (_inst_data g) (Str.join "@" (_call_stack g)) = None
              /\ _prof_node (_call_stack g) (Some self) = Return n0)
       /\ Dict.get (_inst_data g') (Str.join "@" (_call_stack g))
          = Some (set_count (set_time n0 (time n0 + (now - t0))%float)
                    (count n0 + 1)%Z))
  /\ (_call_stack g = [] \/ _timing_stack g = [] ->
      exists g', _instance_profile now f return_ g = Raised IndexError g').
Proof.
  intros M. split.
  - intros stack top tstack t0 PC PT.
    unfold _instance_profile. rewrite M. cbv zeta. unfold Dict.mem.
    destruct (Dict.get (_inst_data g) (Str.join "@" (_call_stack g)))
      as [n0|] eqn:G.
    + cbn [andthen]. rewrite PC. cbn [_inst_data set_call_stack].
      rewrite (DictFacts.lookup_get _ _ G). cbn [try_].
      cbn [_timing_stack set_call_stack]. rewrite PT.
      eexists _, n0. split; [reflexivity|]. cbn.
      repeat split; [now left|]. apply DictFacts.get_set_same.
    + pose proof (TrackerFacts.pop_some _ PC) as E.
      destruct (TrackerFacts.prof_node_snoc stack top (Some self))
        as [n0 [N _]].
      rewrite <- E in N. rewrite N. cbn [try_ andthen].
      cbn [_call_stack set_inst_data]. rewrite PC.
      cbn [_inst_data set_call_stack set_inst_data].
      rewrite (DictFacts.lookup_get _ _ (DictFacts.get_set_same _ _ _)).
      cbn [try_]. cbn [_timing_stack set_call_stack set_inst_data].
      rewrite PT.
      eexists _, n0. split; [reflexivity|]. cbn.
      repeat split; [now right|]. apply DictFacts.get_set_same.
  - intros E. unfold _instance_profile. rewrite M. cbv zeta.
    destruct (_call_stack g) as [|c cs] eqn:C.
    + destruct (Dict.mem (_inst_data g) (Str.join "@" [])); cbn [andthen].
      * rewrite C. cbn. eexists; reflexivity.
      * cbn. eexists; reflexivity.
    + destruct E as [E|E]; [discriminate|].
      destruct (exists_last (l := c :: cs)) as [stack [top S]];
        [discriminate|].
      rewrite S.
      unfold Dict.mem.
      destruct (Dict.get (_inst_data g) (Str.join "@" (stack ++ [top])))
        as [n0|] eqn:G.
      * cbn [andthen]. rewrite C, S, TrackerFacts.pop_snoc.
        cbn [_inst_data set_call_stack].
        rewrite (DictFacts.lookup_get _ _ G). cbn [try_].
        cbn [_timing_stack set_call_stack]. rewrite E. cbn.
        eexists; reflexivity.
      * destruct (TrackerFacts.prof_node_snoc stack top (Some self))
          as [n0 [N _]].
        rewrite N. cbn [try_ andthen]. cbn [_call_stack set_inst_data].
        rewrite C, S, TrackerFacts.pop_snoc.
        cbn [_inst_data set_call_stack set_inst_data].
        rewrite (DictFacts.lookup_get _ _ (DictFacts.get_set_same _ _ _)).
        cbn [try_]. cbn [_timing_stack set_call_stack set_inst_data].
        rewrite E. cbn. eexists; reflexivity.
Qed.

Lemma return_pops_without_checking_token_witness :
  matched mismatched0 frame0 = Some system0
  /\ exists g' n0,
       _instance_profile 5 frame0 return_ mismatched0 = Done g'
       /\ _call_stack g' = ["$total"] /\ _timing_stack g' = []
       /\ (Dict.get (_inst_data mismatched0)
             (Str.join "@" (_call_stack mismatched0)) = Some n0
           \/ Dict.get (_inst_data mismatched0)
                (Str.join "@" (_call_stack mismatched0)) = None
              /\ _prof_node (_call_stack mismatched0) (Some system0)
                 = Return n0)
       /\ Dict.get (_inst_data g') (Str.join "@" (_call_stack mismatched0))
          = Some (set_count (set_time n0 (time n0 + (5 - 3))%float)
                    (count n0 + 1)%Z).
Proof.
  split; [reflexivity|].
  apply (proj1 (@return_pops_without_checking_token 5 frame0 mismatched0
                  system0 eq_refl)
           ["$total"] "g.py#1#2#other" [] 3%float); reflexivity.
Defined.

(** C5 as stated fails: a return event of [frame0], whose token is not the
    top of the call stack, raises nothing; the top is popped and the time
    is recorded under the path that ends with it. *)
Lemma mismatched_return_is_absorbed :
  pop (_call_stack mismatched0) = Some (["$total"], "g.py#1#2#other")
  /\ token frame0 system0 <> "g.py#1#2#other"
  /\ exists g',
       _instance_profile 5 frame0 return_ mismatched0 = Done g'
       /\ _call_stack g' = ["$total"]
       /\ option_map summary
            (Dict.get (_inst_data g') "$total@g.py#1#2#other")
          = Some ("$total@g.py#1#2#other", 1%Z, 2%float).
Proof.
  split; [reflexivity|]. split; [vm_compute; discriminate|].
  eexists. split; [vm_compute; reflexivity|].
  split; vm_compute; reflexivity.
Qed.

(** C6, as the code has it.  [start()] while a session is active prints
    "profiling is already active." and returns: no exception, and nothing of
    the tracker changes.  [stop()] without an active session changes
    nothing. *)
Theorem start_when_active_and_stop_when_idle (h : host) (now : float)
  (active idle : globals) :
  _profile_start active <> None -> _profile_start idle = None ->
  start h now active
  = Done (set_stdout active (stdout active ++ ["profiling is already active."]))
  /\ stop now idle = Done idle.
Proof.
  intros A I. unfold start, stop. rewrite I.
  destruct (_profile_start active); [|congruence]. now split.
Qed.

Lemma start_when_active_and_stop_when_idle_witness :
  start host0 2 active0
  = Done (set_stdout active0 (stdout active0 ++ ["profiling is already active."]))
  /\ stop 2 initial = Done initial.
Proof.
  apply start_when_active_and_stop_when_idle;
    [vm_compute; discriminate | reflexivity].
Defined.

(** C6 as stated fails: a second [start()] raises nothing. *)
Lemma second_start_does_not_raise :
  _profile_start active0 = Some 1%float
  /\ ~ exists e g', start host0 2 active0 = Raised e g'.
Proof.
  split; [reflexivity|]. intros [e [g' H]]. vm_compute in H. discriminate.
Qed.

(** C10.  When [start()] fails because a profile function is already
    registered with the runtime, the [RuntimeError] comes after the session
    state has been changed: the start time is recorded, the root token
    [$total] is on the call stack and the root node is stored.  The failed
    [start()] does not leave the globals as they were. *)
Theorem failed_start_has_changed_the_globals (h : host) (now : float)
  (g : globals) (p : profiler) :
  _profile_start g = None -> sys_profile g = Some p ->
  _profile_setup g = true \/ can_open h (default_out h) = true ->
  exists g',
    start h now g
    = Raised (RuntimeError "another profile function is already active.") g'
    /\ _profile_start g' = Some now
    /\ _call_stack g' = _call_stack g ++ ["$total"]
    /\ Dict.mem (_inst_data g') "$total" = true
    /\ sys_profile g' = Some p
    /\ g' <> g.
Proof.
  intros S P O. unfold start. rewrite S.
  assert (exists g1,
            (if _profile_setup g then Done g
             else setup h "iprof" None None g) = Done g1
            /\ _call_stack g1 = _call_stack g
            /\ _inst_data g1 = _inst_data g
            /\ sys_profile g1 = sys_profile g) as [g1 [-> [C [D Y]]]].
  { destruct (_profile_setup g) eqn:U.
    - exists g. repeat split.
    - destruct O as [O|O]; [discriminate|].
      unfold setup. rewrite U. unfold default_out in O. rewrite O.
      eexists. split; [reflexivity|]. repeat split. }
  cbn [andthen]. cbn [_inst_data set_call_stack set_profile_start].
  assert (forall g2 : globals, _profile_start g2 = Some now -> g2 <> g) as Neq.
  { intros g2 E ->. congruence. }
  destruct (Dict.mem (_inst_data g1) "$total") eqn:Mem; cbn [andthen].
  - cbn [sys_profile set_call_stack set_profile_start]. rewrite Y, P.
    eexists. split; [reflexivity|]. cbn. rewrite C.
    repeat split; try assumption; try (rewrite Y; exact P).
    now apply Neq.
  - cbn. rewrite Y, P.
    eexists. split; [reflexivity|]. cbn. rewrite C.
    unfold Dict.mem. rewrite DictFacts.get_set_same.
    repeat split; try (rewrite Y; exact P). now apply Neq.
Qed.

Lemma failed_start_has_changed_the_globals_witness :
  exists g',
    start host0 1 foreign0
    = Raised (RuntimeError "another profile function is already active.") g'
    /\ _profile_start g' = Some 1%float
    /\ _call_stack g' = _call_stack foreign0 ++ ["$total"]
    /\ Dict.mem (_inst_data g') "$total" = true
    /\ sys_profile g' = Some other_profiler
    /\ g' <> foreign0.
Proof.
  apply failed_start_has_changed_the_globals;
    [reflexivity | reflexivity | right; reflexivity].
Defined.

(** ** The raw-trace reader *)

Module ReaderFacts.

Section WithFloat.
Variable py_float : string -> option float.

Lemma well_formed_parses (line : string) :
  well_formed py_float line = true ->
  exists r, parse_line py_float line = Return r.
Proof.
  unfold well_formed, parse_line.
  destruct (Str.split_ws line) as [|a [|c [|e [|x l]]]]; try discriminate.
  destruct (Str.py_int c); [|discriminate].
  destruct (py_float e); [|discriminate].
  eexists; reflexivity.
Qed.

Lemma malformed_raises (line : string) :
  well_formed py_float line = false ->
  exists w, parse_line py_float line = Raise (ValueError w).
Proof.
  unfold well_formed, parse_line.
  destruct (Str.split_ws line) as [|a [|c [|e [|x l]]]];
    try (intros _; eexists; reflexivity).
  destruct (Str.py_int c); [|intros _; eexists; reflexivity].
  destruct (py_float e); [discriminate|]. intros _; eexists; reflexivity.
Qed.

Lemma read_lines_app (pre : list string) (bad : string)
  (post : list string) (e : exn) :
  forallb (well_formed py_float) pre = true ->
  parse_line py_float bad = Raise e ->
  ended (read_lines py_float (pre ++ bad :: post)) = Some e
  /\ Forall2 (fun l r => parse_line py_float l = Return r) pre
       (yielded (read_lines py_float (pre ++ bad :: post))).
Proof.
  intros W B. induction pre as [|l pre IH]; simpl.
  - rewrite B. simpl. split; [reflexivity | constructor].
  - simpl in W. apply andb_true_iff in W as [Wl W].
    destruct (well_formed_parses _ Wl) as [r R]. rewrite R. simpl.
    destruct (IH W) as [E F]. split; [exact E | now constructor].
Qed.
End WithFloat.

End ReaderFacts.

(** The fields of a line are cut at any whitespace character, not at blanks
    alone. *)
Lemma unicode_spaces_separate :
  parse_line sample_float
    ("A" ++ no_break_space ++ "1" ++ em_space ++ "2.0")
  = parse_line sample_float "A 1 2.0".
Proof. vm_compute. reflexivity. Qed.

(** C9, as the code has it.  When a raw file has a malformed line (a number
    of fields other than three, or a count or time that does not read as an
    [int] or a [float]), the reader yields the records of the lines before
    the first such line and then raises [ValueError]: the line is not
    skipped.  The error is the one that the text of the line alone gives; it
    carries neither the name of the file nor the number of the line. *)
Theorem reader_raises_at_first_malformed_line
  (py_float : string -> option float) (fs : files) (rawname : string)
  (pre : list string) (bad : string) (post : list string) :
  fs rawname = Some (pre ++ bad :: post) ->
  forallb (well_formed py_float) pre = true ->
  well_formed py_float bad = false ->
  exists w,
    parse_line py_float bad = Raise (ValueError w)
    /\ ended (_iter_raw_prof_file py_float fs rawname) = Some (ValueError w)
    /\ Forall2 (fun l r => parse_line py_float l = Return r) pre
         (yielded (_iter_raw_prof_file py_float fs rawname))
    /\ process_profile_files py_float fs [rawname] = Raise (ValueError w).
Proof.
  intros F W B. destruct (@ReaderFacts.malformed_raises py_float bad B) as [w P].
  exists w. unfold process_profile_files, _iter_raw_prof_file. rewrite F.
  destruct (@ReaderFacts.read_lines_app py_float pre bad post _ W P) as [E Y].
  split; [exact P|]. split; [exact E|]. split; [exact Y|].
  unfold process_profile. cbn [length foldM].
  unfold read_file at 1. rewrite F, E.
  destruct (@MergeFacts.foldM_returns _ _ _
              (MergeFacts.add_record_returns 1 (decoration rawname))
              (yielded (read_lines py_float (pre ++ bad :: post)))
              {| tree_nodes := []; totals := [] |}) as [m ->].
  reflexivity.
Qed.

Lemma reader_raises_at_first_malformed_line_witness :
  exists w,
    parse_line sample_float "A@B one 1.0" = Raise (ValueError w)
    /\ ended (_iter_raw_prof_file sample_float broken_files "iprof.0")
       = Some (ValueError w)
    /\ Forall2 (fun l r => parse_line sample_float l = Return r) ["A 1 2.0"]
         (yielded (_iter_raw_prof_file sample_float broken_files "iprof.0"))
    /\ process_profile_files sample_float broken_files ["iprof.0"]
       = Raise (ValueError w).
Proof.
  apply (@reader_raises_at_first_malformed_line sample_float broken_files
           "iprof.0" ["A 1 2.0"] "A@B one 1.0" ["$total 1 3.0"]);
    reflexivity.
Defined.

(** C9 as stated fails in its second half: no reading of the exception gives
    back the file and the line, since the same malformed line gives the same
    exception in any file. *)
Lemma parse_error_names_no_file_and_line :
  ~ exists locate : exn -> string * nat,
      forall py_float fs rawname pre bad post e,
        fs rawname = Some (pre ++ bad :: post) ->
        forallb (well_formed py_float) pre = true ->
        well_formed py_float bad = false ->
        ended (_iter_raw_prof_file py_float fs rawname) = Some e ->
        locate e = (rawname, length pre).
Proof.
  intros [locate H].
  pose (fs := fun _ : string => Some ["A 1"]).
  assert (locate (ValueError (unpack_got 3 2)) = ("iprof.0", 0%nat)) as A
    by (apply (H sample_float fs "iprof.0" [] "A 1" []); reflexivity).
  assert (locate (ValueError (unpack_got 3 2)) = ("iprof.1", 0%nat)) as B
    by (apply (H sample_float fs "iprof.1" [] "A 1" []); reflexivity).
  rewrite A in B. discriminate.
Qed.

(** ** The scenario of the finalize passes *)



(** In the scenario, [$parent] is a segment of no recorded path, and the one
    synthetic node is the self node of [A], with time 1.0. *)
Lemma scenario_self_node :
  (forall q m, In (q, m) scenario_timed ->
     ~ In "$parent" (Str.split Str.at_sign q))
  /\ option_map (map (fun e => (fst e, summary (snd e))))
       (match parent_nodes scenario_timed with
        | Return l => Some l
        | Raise _ => None
        end)
     = Some [("A@$parent", ("A@$parent", 1%Z, 1%float))].
Proof.
  split; [|vm_compute; reflexivity].
  intros q m I. vm_compute in I.
  destruct I as [I|[I|[I|[]]]]; injection I as <- <-; vm_compute;
    intuition discriminate.
Qed.

(** The child-time pass adds to what the nodes hold: run a second time on the
    same data, as a second finalize would, it leaves [A] with twice the time
    of its child. *)
Lemma second_child_time_pass_adds_again :
  option_map child_time
    (Dict.get (state_of (child_times scenario_timed)) "A")
  = Some (Some 2%float).
Proof. vm_compute. reflexivity. Qed.


(** * Further properties *)

(** ** The tracker: how its operations compose *)

Module TrackerMore.
Import Str StrFacts DictFacts.

Lemma set_set {V : Type} (d : Dict.t V) (k : string) (v v' : V) :
  Dict.set (Dict.set d k v) k v' = Dict.set d k v'.
Proof.
  induction d as [|[k0 v0] d IH]; simpl.
  - now rewrite String.eqb_refl.
  - destruct (String.eqb k0 k) eqn:E; simpl; rewrite E;
      [reflexivity | now rewrite IH].
Qed.

(** A call event does not touch what decides whether a frame is matched. *)
Lemma matched_after_call (now : float) (f f' : frame) (g g1 : globals) :
  _instance_profile now f call g = Done g1 -> matched g1 f' = matched g f'.
Proof.
  unfold _instance_profile. destruct (matched g f); now intros [= <-].
Qed.

(** The return of a matched frame, with the top of both stacks known. *)
Lemma return_step (now t0 : float) (f : frame) (g : globals) (self : pyobj)
  (stack : list string) (top : string) (tstack : list float) :
  matched g f = Some self ->
  _call_stack g = stack ++ [top] -> _timing_stack g = tstack ++ [t0] ->
  exists n0,
    (Dict.get (_inst_data g) (join "@" (stack ++ [top])) = Some n0
     \/ Dict.get (_inst_data g) (join "@" (stack ++ [top])) = None
        /\ _prof_node (stack ++ [top]) (Some self) = Return n0)
    /\ _instance_profile now f return_ g
       = Done (set_inst_data
                 (set_timing_stack (set_call_stack g stack) tstack)
                 (Dict.set (_inst_data g) (join "@" (stack ++ [top]))
                    (set_count (set_time n0 (time n0 + (now - t0))%float)
                       (count n0 + 1)%Z))).
Proof.
  intros M C T. unfold _instance_profile. rewrite M. cbv zeta.
  rewrite C. unfold Dict.mem.
  destruct (Dict.get (_inst_data g) (join "@" (stack ++ [top])))
    as [n0|] eqn:G.
  - exists n0. split; [now left|]. cbn [andthen].
    rewrite C, TrackerFacts.pop_snoc. cbn [_inst_data set_call_stack].
    rewrite (lookup_get _ _ G). cbn [try_].
    cbn [_timing_stack set_call_stack]. rewrite T, TrackerFacts.pop_snoc.
    reflexivity.
  - destruct (TrackerFacts.prof_node_snoc stack top (Some self))
      as [n0 [N _]].
    exists n0. split; [right; now split|].
    rewrite N. cbn [try_ andthen]. cbn [_call_stack set_inst_data].
    rewrite C, TrackerFacts.pop_snoc.
    cbn [_inst_data set_call_stack set_inst_data].
    rewrite (lookup_get _ _ (get_set_same _ _ _)). cbn [try_].
    cbn [_timing_stack set_call_stack set_inst_data].
    rewrite T, TrackerFacts.pop_snoc.
    cbn [_inst_data set_timing_stack set_call_stack set_inst_data].
    now rewrite set_set.
Qed.

End TrackerMore.

(** X1.  A matched call followed by the return of the same frame leaves both
    stacks as they were and adds one count and the elapsed time to the node
    stored under the call stack joined with the token of the frame; that
    node is created when the path is new, and no other node changes. *)
Theorem call_then_return_records_the_call (t1 t2 : float) (f : frame)
  (g : globals) (self : pyobj) :
  matched g f = Some self ->
  exists g1 g2 n0,
    _instance_profile t1 f call g = Done g1
    /\ _instance_profile t2 f return_ g1 = Done g2
    /\ _call_stack g2 = _call_stack g
    /\ _timing_stack g2 = _timing_stack g
    /\ (Dict.get (_inst_data g)
          (Str.join "@" (_call_stack g ++ [token f self])) = Some n0
        \/ Dict.get (_inst_data g)
             (Str.join "@" (_call_stack g ++ [token f self])) = None
           /\ _prof_node (_call_stack g ++ [token f self]) (Some self)
              = Return n0)
    /\ Dict.get (_inst_data g2)
         (Str.join "@" (_call_stack g ++ [token f self]))
       = Some (set_count (set_time n0 (time n0 + (t2 - t1))%float)
                 (count n0 + 1)%Z)
    /\ forall k, k <> Str.join "@" (_call_stack g ++ [token f self]) ->
         Dict.get (_inst_data g2) k = Dict.get (_inst_data g) k.
Proof.
  intros M.
  assert (_instance_profile t1 f call g
          = Done (set_timing_stack
                    (set_call_stack g (_call_stack g ++ [token f self]))
                    (_timing_stack g ++ [t1]))) as C
    by (unfold _instance_profile; now rewrite M).
  set (g1 := set_timing_stack _ _) in C.
  destruct (@TrackerMore.return_step t2 t1 f g1 self (_call_stack g)
              (token f self) (_timing_stack g)) as [n0 [N R]];
    try reflexivity.
  { rewrite (@TrackerMore.matched_after_call t1 f f g g1 C). exact M. }
  eexists g1, _, n0. split; [exact C|]. split; [exact R|].
  cbn. repeat split; try exact N.
  - apply DictFacts.get_set_same.
  - intros k NE. now apply DictFacts.get_set_other.
Qed.

Lemma call_then_return_records_the_call_witness :
  exists g1 g2 n0,
    _instance_profile 2 frame0 call active0 = Done g1
    /\ _instance_profile 5 frame0 return_ g1 = Done g2
    /\ _call_stack g2 = _call_stack active0
    /\ _timing_stack g2 = _timing_stack active0
    /\ (Dict.get (_inst_data active0)
          (Str.join "@" (_call_stack active0 ++ [token frame0 system0]))
        = Some n0
        \/ Dict.get (_inst_data active0)
             (Str.join "@" (_call_stack active0 ++ [token frame0 system0]))
           = None
           /\ _prof_node (_call_stack active0 ++ [token frame0 system0])
                (Some system0) = Return n0)
    /\ Dict.get (_inst_data g2)
         (Str.join "@" (_call_stack active0 ++ [token frame0 system0]))
       = Some (set_count (set_time n0 (time n0 + (5 - 2))%float)
                 (count n0 + 1)%Z)
    /\ forall k,
         k <> Str.join "@" (_call_stack active0 ++ [token frame0 system0]) ->
         Dict.get (_inst_data g2) k = Dict.get (_inst_data active0) k.
Proof.
  apply call_then_return_records_the_call. reflexivity.
Defined.

(** X2.  A session: [start()] at [t1] and [stop()] at [t2], from globals
    without a session and without a registered profile function.  The
    profile function is registered in between and removed at the end, the
    call stack is as before, the duration is added to [_profile_total], and
    the root node holds the accumulated total as its time (it is set, not
    added) and one more count. *)
Theorem start_then_stop_is_one_session (h : host) (t1 t2 : float)
  (g : globals) :
  _profile_start g = None -> sys_profile g = None ->
  _profile_setup g = true \/ can_open h (default_out h) = true ->
  exists g1 g2 root,
    start h t1 g = Done g1 /\ stop t2 g1 = Done g2
    /\ _profile_start g1 = Some t1
    /\ sys_profile g1 = Some instance_profile
    /\ _call_stack g1 = _call_stack g ++ ["$total"]
    /\ _profile_start g2 = None /\ sys_profile g2 = None
    /\ _call_stack g2 = _call_stack g
    /\ _timing_stack g2 = _timing_stack g
    /\ _profile_total g2 = (_profile_total g + (t2 - t1))%float
    /\ Dict.get (_inst_data g2) "$total" = Some root
    /\ time root = _profile_total g2
    /\ count root = (root_count (_inst_data g) + 1)%Z
    /\ forall k, k <> "$total" ->
         Dict.get (_inst_data g2) k = Dict.get (_inst_data g) k.
Proof.
  intros S P O. unfold start. rewrite S.
  assert (exists g0,
            (if _profile_setup g then Done g
             else setup h "iprof" None None g) = Done g0
            /\ _call_stack g0 = _call_stack g
            /\ _timing_stack g0 = _timing_stack g
            /\ _inst_data g0 = _inst_data g
            /\ sys_profile g0 = sys_profile g
            /\ _profile_total g0 = _profile_total g)
    as [g0 [-> [C [T [D [Y L]]]]]].
  { destruct (_profile_setup g) eqn:U.
    - exists g. repeat split.
    - destruct O as [O|O]; [discriminate|].
      unfold setup. rewrite U. unfold default_out in O. rewrite O.
      eexists. split; [reflexivity|]. repeat split. }
  cbn [andthen]. cbn [_inst_data set_call_stack set_profile_start].
  unfold root_count. rewrite <- D. unfold Dict.mem.
  destruct (Dict.get (_inst_data g0) "$total") as [r|] eqn:G; cbn [andthen].
  - cbn [sys_profile set_call_stack set_profile_start]. rewrite Y, P.
    eexists _, _, _. split; [reflexivity|].
    unfold stop. cbn. rewrite TrackerFacts.pop_snoc. cbn.
    rewrite (DictFacts.lookup_get _ _ G). cbn.
    split; [reflexivity|].
    repeat split; cbn; rewrite ?C, ?T, ?L; try reflexivity;
      try apply DictFacts.get_set_same.
    all: try reflexivity.
    intros k NE. now apply DictFacts.get_set_other.
  - cbn. rewrite Y, P.
    eexists _, _, _. split; [reflexivity|].
    unfold stop. cbn. rewrite TrackerFacts.pop_snoc. cbn.
    rewrite (DictFacts.lookup_get _ _ (DictFacts.get_set_same _ _ _)). cbn.
    split; [reflexivity|].
    repeat split; cbn; rewrite ?C, ?T, ?L; try reflexivity;
      try apply DictFacts.get_set_same.
    all: try reflexivity.
    intros k NE. rewrite DictFacts.get_set_other by exact NE.
    now apply DictFacts.get_set_other.
Qed.

Lemma start_then_stop_is_one_session_witness :
  exists g1 g2 root,
    start host0 1 initial = Done g1 /\ stop 4 g1 = Done g2
    /\ _profile_start g1 = Some 1%float
    /\ sys_profile g1 = Some instance_profile
    /\ _call_stack g1 = _call_stack initial ++ ["$total"]
    /\ _profile_start g2 = None /\ sys_profile g2 = None
    /\ _call_stack g2 = _call_stack initial
    /\ _timing_stack g2 = _timing_stack initial
    /\ _profile_total g2 = (_profile_total initial + (4 - 1))%float
    /\ Dict.get (_inst_data g2) "$total" = Some root
    /\ time root = _profile_total g2
    /\ count root = (root_count (_inst_data initial) + 1)%Z
    /\ forall k, k <> "$total" ->
         Dict.get (_inst_data g2) k = Dict.get (_inst_data initial) k.
Proof.
  apply start_then_stop_is_one_session;
    [reflexivity | reflexivity | right; reflexivity].
Defined.


(** X4.  [stop()] is idempotent: after a [stop()] that returns, the session
    is over and the profile function of the tracker is not registered, and a
    second [stop()], at any time, changes nothing. *)
Theorem stop_twice_is_stop_once (t t' : float) (g g1 : globals) :
  stop t g = Done g1 ->
  _profile_start g1 = None /\ stop t' g1 = Done g1
  /\ (_profile_start g <> None -> sys_profile g1 = None).
Proof.
  unfold stop at 1. destruct (_profile_start g) as [t0|] eqn:S.
  - destruct (pop (_call_stack (set_sys_profile g None))) as [[stack x]|];
      [|discriminate].
    unfold try_. destruct (Dict.lookup _ "$total") as [root|e];
      [|discriminate].
    intros [= <-]. split; [reflexivity|]. split; [reflexivity|].
    reflexivity.
  - intros [= <-]. split; [exact S|]. split; [|congruence].
    unfold stop. now rewrite S.
Qed.

Lemma stop_twice_is_stop_once_witness :
  _profile_start (state_of (stop 4 active0)) = None
  /\ stop 9 (state_of (stop 4 active0)) = Done (state_of (stop 4 active0))
  /\ (_profile_start active0 <> None ->
      sys_profile (state_of (stop 4 active0)) = None).
Proof.
  apply (@stop_twice_is_stop_once 4 9 active0). reflexivity.
Defined.

(** ** The methods to profile *)

Module CollectFacts.
Import DictFacts.

Lemma lists_add_match (m : Dict.t (list string)) (n c n' c' : string) :
  lists (add_match m n c) n' c' <-> lists m n' c' \/ (n' = n /\ c' = c).
Proof.
  unfold lists, add_match.
  destruct (String.eqb_spec n' n) as [->|NE].
  - destruct (Dict.get m n) as [cs|] eqn:G; rewrite get_set_same.
    + split.
      * intros [l [[= <-] I]]. apply in_app_or in I as [I|[<-|[]]].
        -- left. now exists cs.
        -- now right.
      * intros [[l [[= <-] I]]|[_ ->]]; eexists; (split; [reflexivity|]);
          apply in_or_app; [now left | right; now left].
    + split.
      * intros [l [[= <-] [<-|[]]]]. now right.
      * intros [[l [E _]]|[_ ->]]; [discriminate|].
        eexists; split; [reflexivity | now left].
  - assert (forall v, Dict.get (Dict.set m n v) n' = Dict.get m n') as O
      by (intros v; now apply get_set_other).
    destruct (Dict.get m n) as [cs|]; rewrite O; split; auto;
      intros [H|[E _]]; auto; contradiction.
Qed.

(** A loop that only adds listings. *)
Lemma lists_fold {X : Type} (step : Dict.t (list string) -> X -> Dict.t (list string))
  (Q : X -> Prop) (n c : string) :
  (forall m x, lists (step m x) n c <-> lists m n c \/ Q x) ->
  forall xs m,
    lists (fold_left step xs m) n c
    <-> lists m n c \/ exists x, In x xs /\ Q x.
Proof.
  intros Step. induction xs as [|x xs IH]; intros m; simpl.
  - split; [now left | intros [H|[x [[] _]]]; exact H].
  - rewrite IH, Step. split.
    + intros [[H|H]|[y [I H]]]; auto.
      * right. exists x. auto.
      * right. exists y. auto.
    + intros [H|[y [[<-|I] H]]]; auto. right. now exists y.
Qed.

End CollectFacts.

(** X5.  What [_collect_methods] returns: a class is listed under a method
    name exactly when some entry of the method dictionary has the class,
    the class has a callable member of that name, and the pattern of the
    entry is ["*"] or matches the name. *)
Theorem collected_methods_are_the_matching_callables (h : host)
  (method_dict : Dict.t (list string)) (name class_ : string) :
  lists (_collect_methods h method_dict) name class_
  <-> exists pattern classes,
        In (pattern, classes) method_dict /\ In class_ classes
        /\ In (name, true) (getmembers h class_)
        /\ (pattern = "*" \/ fnmatchcase h name pattern = true).
Proof.
  unfold _collect_methods.
  rewrite (@CollectFacts.lists_fold _ _
             (fun entry : string * list string =>
                In class_ (snd entry)
                /\ In (name, true) (getmembers h class_)
                /\ (fst entry = "*" \/ fnmatchcase h name (fst entry) = true))).
  - split.
    + intros [[l [E _]]|[[p cs] [I [Ic [Im Hp]]]]]; [discriminate|].
      now exists p, cs.
    + intros [p [cs [I [Ic [Im Hp]]]]]. right. now exists (p, cs).
  - intros m [p cs]. cbn [fst snd].
    rewrite (@CollectFacts.lists_fold _ _
               (fun c : string =>
                  c = class_ /\ In (name, true) (getmembers h class_)
                  /\ (p = "*" \/ fnmatchcase h name p = true))).
    + split.
      * intros [H|[c [I [-> [Im Hp]]]]]; auto.
      * intros [H|[Ic [Im Hp]]]; auto. right. now exists class_.
    + intros m' c.
      rewrite (@CollectFacts.lists_fold _ _
                 (fun member : string * bool =>
                    member = (name, true) /\ c = class_
                    /\ (p = "*" \/ fnmatchcase h name p = true))).
      * split.
        -- intros [H|[mb [I [-> [-> Hp]]]]]; auto.
        -- intros [H|[-> [Im Hp]]]; auto. right. now exists (name, true).
      * intros m'' [n b].
        destruct b; cbn [andb];
          [|split; [now left | intros [H|[[= ] _]]; exact H]].
        destruct (String.eqb_spec p "*") as [->|NP]; cbn [orb].
        -- rewrite CollectFacts.lists_add_match. split.
           ++ intros [H|[-> ->]]; auto.
           ++ intros [H|[[= ->] [-> _]]]; auto.
        -- destruct (fnmatchcase h n p) eqn:F.
           ++ rewrite CollectFacts.lists_add_match. split.
              ** intros [H|[-> ->]]; auto.
              ** intros [H|[[= ->] [-> _]]]; auto.
           ++ split; [now left|].
              intros [H|[[= ->] [_ [E|E]]]]; auto; congruence.
Qed.

(** ** The reader and unreadable files *)

Module ReaderMore.

Lemma read_lines_all (py_float : string -> option float) (lines : list string) :
  forallb (well_formed py_float) lines = true ->
  ended (read_lines py_float lines) = None
  /\ Forall2 (fun l r => parse_line py_float l = Return r) lines
       (yielded (read_lines py_float lines)).
Proof.
  induction lines as [|l lines IH]; simpl; intros W.
  - split; [reflexivity | constructor].
  - apply andb_true_iff in W as [Wl W].
    destruct (@ReaderFacts.well_formed_parses py_float l Wl) as [r R].
    rewrite R. simpl. destruct (IH W) as [E F].
    split; [exact E | now constructor].
Qed.

Lemma read_file_returns (iter : string -> stream record) (n : nat) (m : merge)
  (fname : string) :
  ended (iter fname) = None -> exists m', read_file iter n m fname = Return m'.
Proof.
  intros E. unfold read_file. rewrite E.
  destruct (@MergeFacts.foldM_returns _ _ _
              (MergeFacts.add_record_returns n (decoration fname))
              (yielded (iter fname)) m) as [m' ->].
  now exists m'.
Qed.

End ReaderMore.

(** X6.  A raw file whose lines are all well formed is read to its end
    without an exception, and gives one record per line, in order. *)
Theorem reader_yields_one_record_per_line (py_float : string -> option float)
  (fs : files) (rawname : string) (lines : list string) :
  fs rawname = Some lines ->
  forallb (well_formed py_float) lines = true ->
  ended (_iter_raw_prof_file py_float fs rawname) = None
  /\ Forall2 (fun l r => parse_line py_float l = Return r) lines
       (yielded (_iter_raw_prof_file py_float fs rawname)).
Proof.
  intros F W. unfold _iter_raw_prof_file. rewrite F.
  now apply ReaderMore.read_lines_all.
Qed.

Lemma reader_yields_one_record_per_line_witness :
  ended (_iter_raw_prof_file sample_float
           (fun _ => Some ["A 1 2.0"; " $total  1 3.0 "]) "iprof.0") = None
  /\ Forall2 (fun l r => parse_line sample_float l = Return r)
       ["A 1 2.0"; " $total  1 3.0 "]
       (yielded (_iter_raw_prof_file sample_float
                   (fun _ => Some ["A 1 2.0"; " $total  1 3.0 "]) "iprof.0")).
Proof.
  apply reader_yields_one_record_per_line; reflexivity.
Defined.

(** X7.  When a file of the list cannot be opened and the files before it are
    read without error, [process_profile] raises the [IOError] of that file:
    nothing is merged from the files that were read. *)
Theorem unreadable_file_stops_the_merge (py_float : string -> option float)
  (fs : files) (pre : list string) (rawname : string) (post : list string) :
  fs rawname = None ->
  (forall f, In f pre ->
     exists lines, fs f = Some lines
                   /\ forallb (well_formed py_float) lines = true) ->
  process_profile_files py_float fs (pre ++ rawname :: post)
  = Raise (IOError rawname).
Proof.
  intros F Pre. unfold process_profile_files, process_profile.
  generalize (length (pre ++ rawname :: post)) as n. intros n.
  generalize ({| tree_nodes := []; totals := [] |}) as m.
  induction pre as [|f pre IH]; intros m.
  - cbn [app foldM]. unfold read_file at 1.
    unfold _iter_raw_prof_file at 1 2. rewrite F. reflexivity.
  - cbn [app foldM].
    destruct (Pre f (or_introl eq_refl)) as [lines [Ff W]].
    destruct (@ReaderMore.read_file_returns
                (_iter_raw_prof_file py_float fs) n m f) as [m' ->].
    + unfold _iter_raw_prof_file. rewrite Ff.
      now apply ReaderMore.read_lines_all.
    + cbn [bind]. apply IH. intros f' I. apply Pre. now right.
Qed.

Lemma unreadable_file_stops_the_merge_witness :
  process_profile_files sample_float
    (fun f => if String.eqb f "iprof.0" then Some ["$total 1 3.0"] else None)
    (["iprof.0"] ++ "iprof.1" :: [])
  = Raise (IOError "iprof.1").
Proof.
  apply unreadable_file_stops_the_merge; [reflexivity|].
  intros f [<-|[]]. eexists. split; reflexivity.
Defined.

(** ** The finalize step as a whole *)

Module FinalizeFacts.
Import Str StrFacts DictFacts.

Lemma stop_done_idle (now : float) (g g1 : globals) :
  stop now g = Done g1 ->
  _profile_start g1 = None /\ _profile_prefix g1 = _profile_prefix g.
Proof.
  unfold stop. destruct (_profile_start g) as [t0|] eqn:S.
  - destruct (pop (_call_stack (set_sys_profile g None))) as [[stack x]|];
      [|discriminate].
    unfold try_. destruct (Dict.lookup _ "$total") as [root|e];
      [|discriminate].
    intros [= <-]. now split.
  - intros [= <-]. now split.
Qed.

(** A node after the child-time loop: as before, apart from its child
    time. *)
Lemma add_child_time_same (d : Dict.t node) (item : string * node) (p : string) :
  match Dict.get d p with
  | Some n =>
      exists c,
        Dict.get (state_of (add_child_time d item)) p
        = Some (set_child_time n c)
  | None => Dict.get (state_of (add_child_time d item)) p = None
  end.
Proof.
  assert (forall n : node, n = set_child_time n (child_time n)) as Same
    by (now intros []).
  assert (match Dict.get d p with
          | Some n => exists c, Dict.get d p = Some (set_child_time n c)
          | None => Dict.get d p = None
          end) as Id.
  { destruct (Dict.get d p) as [n|]; [|reflexivity].
    exists (child_time n). now rewrite <- Same. }
  destruct item as [q c]. unfold add_child_time.
  destruct (parts_many (rsplit1 at_sign q)); simpl; [|exact Id].
  unfold Dict.lookup.
  destruct (Dict.get d (parts_first (rsplit1 at_sign q))) as [pn|] eqn:G;
    simpl; [|exact Id].
  unfold get_child_time. destruct (child_time pn) as [c0|]; simpl;
    [|exact Id].
  destruct (String.eqb_spec p (parts_first (rsplit1 at_sign q))) as [->|N].
  - rewrite G, get_set_same. eexists; reflexivity.
  - rewrite get_set_other by exact N. exact Id.
Qed.

Lemma child_loop_same (xs : Dict.t node) : forall (d : Dict.t node) (p : string),
  match Dict.get d p with
  | Some n =>
      exists c,
        Dict.get (state_of (forM add_child_time xs d)) p
        = Some (set_child_time n c)
  | None => Dict.get (state_of (forM add_child_time xs d)) p = None
  end.
Proof.
  induction xs as [|item xs IH]; intros d p.
  - simpl. destruct (Dict.get d p) as [n|]; [|reflexivity].
    exists (child_time n). now destruct n.
  - simpl. pose proof (add_child_time_same d item p) as A.
    destruct (add_child_time d item) as [d1|e s] eqn:E; simpl in *.
    + specialize (IH d1 p).
      destruct (Dict.get d p) as [n|].
      * destruct A as [c A]. rewrite A in IH. destruct IH as [c' IH].
        exists c'. exact IH.
      * now rewrite A in IH.
    + exact A.
Qed.

Lemma finalize_inst_data (h : host) (now : float) (g : globals) :
  _profile_start g = None ->
  _inst_data (state_of (_finalize_profile h now g)) = _inst_data g
  \/ _inst_data (state_of (_finalize_profile h now g))
     = state_of (child_times (_inst_data g)).
Proof.
  intros S. unfold _finalize_profile, stop. rewrite S. cbn [andthen].
  destruct (fix_names h (_inst_data g)) as [obj_map|e]; cbn [try_];
    [|now left].
  destruct (child_times (_inst_data g)) as [inst|e s] eqn:C; cbn [state_of];
    [|now right].
  cbn [_inst_data set_inst_data].
  destruct (parent_nodes inst) as [parnodes|e]; cbn [try_]; [|now right].
  cbn [_profile_prefix set_inst_data].
  destruct (_profile_prefix g) as [prefix|]; [|now right].
  destruct (can_open h _); [|now right].
  destruct (ended _); now right.
Qed.

End FinalizeFacts.

(** X9.  Outside a session, the finalize step adds no node, removes none, and
    changes nothing of a stored node but its [child_time]: name, time, count
    and instance stay as they are, also when the step raises. *)
Theorem finalize_changes_child_times_only (h : host) (now : float)
  (g : globals) (p : string) :
  _profile_start g = None ->
  match Dict.get (_inst_data g) p with
  | Some n =>
      exists c,
        Dict.get (_inst_data (state_of (_finalize_profile h now g))) p
        = Some (set_child_time n c)
  | None =>
      Dict.get (_inst_data (state_of (_finalize_profile h now g))) p = None
  end.
Proof.
  intros S.
  destruct (FinalizeFacts.finalize_inst_data h now g S) as [-> | ->].
  - destruct (Dict.get (_inst_data g) p) as [n|]; [|reflexivity].
    exists (child_time n). now destruct n.
  - apply FinalizeFacts.child_loop_same.
Qed.

Lemma finalize_changes_child_times_only_witness :
  match Dict.get (_inst_data (state_of (stop 4 active0))) "$total" with
  | Some n =>
      exists c,
        Dict.get
          (_inst_data
             (state_of (_finalize_profile host0 9 (state_of (stop 4 active0)))))
          "$total"
        = Some (set_child_time n c)
  | None =>
      Dict.get
        (_inst_data
           (state_of (_finalize_profile host0 9 (state_of (stop 4 active0)))))
        "$total" = None
  end.
Proof.
  apply (@finalize_changes_child_times_only host0 9
           (state_of (stop 4 active0)) "$total").
  reflexivity.
Defined.

(** ** The ordinals of the instances *)

Module OrdinalFacts.
Import DictFacts.

Lemma owner_eqb_spec (a b : option string * option string) :
  owner_eqb a b = true <-> a = b.
Proof.
  destruct a as [a1 a2], b as [b1 b2]. unfold owner_eqb, option_string_eqb.
  simpl. rewrite andb_true_iff.
  destruct a1 as [x|], b1 as [y|], a2 as [u|], b2 as [v|];
    rewrite ?String.eqb_eq; split; intros H;
    try (destruct H; congruence); try (injection H; intros; subst; auto);
    try discriminate; auto.
Qed.

Section Owners.
Variable V : Type.
Implicit Types (d : list ((option string * option string) * V)).

Lemma aget_aset_same d o v : aget owner_eqb (aset owner_eqb d o v) o = Some v.
Proof.
  assert (owner_eqb o o = true) as R by now apply owner_eqb_spec.
  induction d as [|[o' v'] d IH]; simpl.
  - now rewrite R.
  - destruct (owner_eqb o' o) eqn:E; simpl; rewrite E; [reflexivity|exact IH].
Qed.

Lemma aget_aset_other d o o' v :
  o' <> o -> aget owner_eqb (aset owner_eqb d o v) o' = aget owner_eqb d o'.
Proof.
  intros N.
  assert (owner_eqb o o' = false) as F.
  { destruct (owner_eqb o o') eqn:E; [|reflexivity].
    apply owner_eqb_spec in E. congruence. }
  induction d as [|[o0 v0] d IH]; simpl.
  - now rewrite F.
  - destruct (owner_eqb o0 o) eqn:E; simpl.
    + apply owner_eqb_spec in E. subst o0. now rewrite F.
    + destruct (owner_eqb o0 o'); [reflexivity|exact IH].
Qed.
End Owners.

Lemma set_absent (idict : Dict.t Z) (k : string) (v : Z) :
  Dict.get idict k = None -> Dict.set idict k v = idict ++ [(k, v)].
Proof.
  induction idict as [|[k' v'] d IH]; simpl; [reflexivity|].
  destruct (String.eqb k' k); [discriminate|].
  intros G. now rewrite (IH G).
Qed.

Lemma numbered_nil : numbered [].
Proof. split; [reflexivity | constructor]. Qed.

Lemma numbered_next (idict : Dict.t Z) (k : string) :
  numbered idict -> Dict.get idict k = None ->
  numbered (Dict.set idict k (Z.of_nat (length idict))).
Proof.
  intros [M N] G. rewrite (set_absent _ _ _ G). split.
  - rewrite map_app, length_app, M. simpl.
    rewrite Nat.add_1_r, seq_S, map_app. reflexivity.
  - unfold Dict.keys. rewrite map_app. simpl.
    apply NoDup_app; [exact N | repeat constructor; intros [] |].
    intros x I [<-|[]]. now apply get_none_iff in G.
Qed.

Lemma fix_name_numbered (h : host) (st st' : names) (item : string * node) :
  fix_name h st item = Return st' ->
  all_numbered (idents st) -> all_numbered (idents st').
Proof.
  destruct item as [funcpath data]. unfold fix_name.
  destruct (String.eqb _ "$total"); [now intros [= <-]|].
  destruct (Str.split Str.hash _) as [|filename [|line [|ident [|x [|y l]]]]];
    try discriminate.
  destruct (Str.py_int line) as [ln|]; simpl; [|discriminate].
  destruct (_find_qualified_name h filename ln) as [[[qfile qclass] qname]|e];
    simpl; [|discriminate].
  intros H Inv.
  assert (numbered
            match aget owner_eqb (idents st) (qfile, qclass) with
            | Some d => d
            | None => []
            end) as Nd.
  { destruct (aget owner_eqb (idents st) (qfile, qclass)) as [d|] eqn:A;
      [now apply (Inv _ _ A) | apply numbered_nil]. }
  revert H Nd.
  generalize (match aget owner_eqb (idents st) (qfile, qclass) with
              | Some d => d
              | None => []
              end) as idict.
  intros idict H Nd.
  destruct (Dict.get idict ident) as [i|] eqn:G.
  - destruct (obj data) as [o|]; simpl in H; [|discriminate].
    injection H as <-. simpl. intros o' d'.
    destruct (owner_eqb_spec (qfile, qclass) o') as [_ Eq].
    destruct (owner_eqb (qfile, qclass) o') eqn:E.
    + apply owner_eqb_spec in E. subst o'. rewrite aget_aset_same.
      now intros [= <-].
    + rewrite aget_aset_other; [apply Inv|]. intros ->.
      discriminate (Eq eq_refl).
  - destruct (obj data) as [o|]; simpl in H; [|discriminate].
    injection H as <-. simpl. intros o' d'.
    destruct (owner_eqb_spec (qfile, qclass) o') as [_ Eq].
    destruct (owner_eqb (qfile, qclass) o') eqn:E.
    + apply owner_eqb_spec in E. subst o'. rewrite aget_aset_same.
      intros [= <-]. now apply numbered_next.
    + rewrite aget_aset_other; [apply Inv|]. intros ->.
      discriminate (Eq eq_refl).
Qed.

Lemma same_ordinal (idict : Dict.t Z) (i1 i2 : string) (n : Z) :
  numbered idict ->
  Dict.get idict i1 = Some n -> Dict.get idict i2 = Some n -> i1 = i2.
Proof.
  intros [M _] G1 G2. apply get_in in G1, G2.
  assert (NoDup (map snd idict)) as ND.
  { rewrite M. apply Finite.Injective_map_NoDup; [|apply seq_NoDup].
    intros a b. apply Nat2Z.inj. }
  clear M. induction idict as [|[k v] d IH]; [destruct G1|].
  simpl in ND. inversion ND as [|? ? NI ND']; subst.
  destruct G1 as [E1|I1], G2 as [E2|I2].
  - congruence.
  - injection E1 as -> ->. exfalso. apply NI.
    now apply (in_map snd) in I2.
  - injection E2 as -> ->. exfalso. apply NI.
    now apply (in_map snd) in I1.
  - now apply IH.
Qed.

End OrdinalFacts.

(** X10.  In the loop that fixes the names, the instances of one owner (a
    source file or a class) are numbered 0, 1, 2, ... in the order in which
    they are met: when the loop completes, two raw instance identities of
    the same owner never share an ordinal. *)
Theorem instances_of_an_owner_get_distinct_ordinals (h : host)
  (inst : Dict.t node) (st : names) (owner : option string * option string)
  (idict : Dict.t Z) (i1 i2 : string) (n : Z) :
  fix_names_loop h inst = Return st ->
  aget owner_eqb (idents st) owner = Some idict ->
  Dict.get idict i1 = Some n -> Dict.get idict i2 = Some n ->
  numbered idict /\ i1 = i2.
Proof.
  intros L A G1 G2.
  assert (numbered idict) as N.
  { revert A. generalize owner, idict.
    change (all_numbered (idents st)).
    unfold fix_names_loop in L.
    refine (@MergeFacts.foldM_inv _ _ (fix_name h)
              (fun s => all_numbered (idents s)) _ _ _ _ L _).
    - intros a x a'. apply OrdinalFacts.fix_name_numbered.
    - intros o d. discriminate. }
  split; [exact N|]. now apply (@OrdinalFacts.same_ordinal idict i1 i2 n).
Qed.

Lemma instances_of_an_owner_get_distinct_ordinals_witness :
  numbered [("7", 0%Z); ("8", 1%Z)] /\ "8" = "8".
Proof.
  eapply (@instances_of_an_owner_get_distinct_ordinals host0 two_instances _
            (None, Some "System") [("7", 0%Z); ("8", 1%Z)] "8" "8" 1%Z);
    vm_compute; reflexivity.
Defined.

(** ** The merge: what the first loop builds *)

Module FirstLoop.
Import Str StrFacts DictFacts.

Lemma last_part_last (parts : list string) :
  parts <> [] -> last_part parts = Return (last parts "").
Proof.
  intros N. destruct (exists_last N) as [l [x ->]].
  now rewrite last_part_snoc, last_last.
Qed.

Lemma stored_parts_not_nil (nfiles : nat) (dec : option string)
  (funcpath : string) : stored_parts nfiles dec funcpath <> [].
Proof.
  unfold stored_parts. destruct (decorating nfiles dec).
  - intros E. apply map_eq_nil in E. now apply split_not_nil in E.
  - apply split_not_nil.
Qed.

(** What the body of the first loop does, as an equation. *)
Lemma add_record_eq (nfiles : nat) (dec : option string) (m : merge)
  (r : record) :
  add_record nfiles dec m r = Return (add_record_result nfiles m (dec, r)).
Proof.
  destruct r as [[funcpath cnt] t].
  unfold add_record, add_record_result, path_of, name_of, record_node,
    bump_total. cbn [fst snd]. unfold fresh_node, stored_path, stored_name.
  pose proof (stored_parts_not_nil nfiles dec funcpath) as N.
  unfold stored_parts in *.
  destruct (decorating nfiles dec) as [d|].
  - unfold _prof_node. rewrite (last_part_last N). cbn [bind].
    destruct (String.eqb _ "$parent"); [reflexivity|].
    destruct (Dict.get (totals m) _); reflexivity.
  - unfold _prof_node. rewrite (last_part_last N). cbn [bind].
    destruct (String.eqb _ "$parent"); [reflexivity|].
    destruct (Dict.get (totals m) _); reflexivity.
Qed.

Lemma foldM_app {A B : Type} (f : A -> B -> result A) (xs ys : list B) (a : A) :
  foldM f (xs ++ ys) a = (a' <- foldM f xs a ;; foldM f ys a').
Proof.
  revert a. induction xs as [|x xs IH]; intros a; simpl; [reflexivity|].
  destruct (f a x); simpl; [apply IH | reflexivity].
Qed.

Lemma foldM_add_record (nfiles : nat) (dec : option string)
  (rs : list record) (m : merge) :
  foldM (add_record nfiles dec) rs m
  = Return (fold_left (add_record_result nfiles)
              (map (fun r => (dec, r)) rs) m).
Proof.
  revert m. induction rs as [|r rs IH]; intros m; simpl; [reflexivity|].
  rewrite add_record_eq. simpl. apply IH.
Qed.

(** The first loop, when it completes, is the fold of the records read. *)
Lemma read_files_fold (iter : string -> stream record) (nfiles : nat)
  (flist : list string) : forall m m',
  foldM (read_file iter nfiles) flist m = Return m' ->
  m' = fold_left (add_record_result nfiles) (labelled iter flist) m.
Proof.
  induction flist as [|f flist IH]; intros m m'; simpl.
  - now intros [= <-].
  - unfold read_file at 1. rewrite foldM_add_record. cbn [bind].
    destruct (ended (iter f)); [discriminate|]. cbn [bind].
    intros H. rewrite (IH _ _ H). unfold labelled. simpl.
    now rewrite fold_left_app.
Qed.

Lemma keys_set_mono {V : Type} (d : Dict.t V) (k k' : string) (v : V) :
  In k (Dict.keys d) -> In k (Dict.keys (Dict.set d k' v)).
Proof.
  induction d as [|[k0 v0] d IH]; simpl; [tauto|].
  destruct (String.eqb k0 k'); simpl; intros [E|I]; auto.
Qed.

Lemma keys_set_key {V : Type} (d : Dict.t V) (k : string) (v : V) :
  In k (Dict.keys (Dict.set d k v)).
Proof.
  induction d as [|[k0 v0] d IH]; simpl; [now left|].
  destruct (String.eqb_spec k0 k) as [->|N]; simpl; auto.
Qed.

Lemma nodup_set {V : Type} (d : Dict.t V) (k : string) (v : V) :
  NoDup (Dict.keys d) -> NoDup (Dict.keys (Dict.set d k v)).
Proof.
  induction d as [|[k0 v0] d IH]; simpl; intros ND.
  - repeat constructor. intros [].
  - inversion ND as [|? ? NI ND']; subst.
    destruct (String.eqb_spec k0 k) as [->|N]; simpl.
    + now constructor.
    + constructor; [|now apply IH].
      intros I. apply keys_set_incl in I as [->|I]; [congruence | contradiction].
Qed.

(** The keys of the tree are the stored paths of the records. *)
Lemma tree_keys (nfiles : nat) (lrs : list (option string * record)) :
  forall m k,
    In k (Dict.keys (tree_nodes (fold_left (add_record_result nfiles) lrs m)))
    <-> In k (Dict.keys (tree_nodes m))
        \/ exists lr, In lr lrs /\ path_of nfiles lr = k.
Proof.
  induction lrs as [|lr lrs IH]; intros m k; simpl.
  - split; [now left | intros [H|[lr [[] _]]]; exact H].
  - rewrite IH. cbn [tree_nodes add_record_result]. split.
    + intros [H|[lr' [I E]]].
      * apply keys_set_incl in H as [->|H]; [|now left].
        right. exists lr. split; [now left | reflexivity].
      * right. exists lr'. split; [now right | exact E].
    + intros [H|[lr' [[<-|I] E]]].
      * left. now apply keys_set_mono.
      * left. subst k. apply keys_set_key.
      * right. now exists lr'.
Qed.

End FirstLoop.

Module FirstLoopMore.
Import Str StrFacts DictFacts FirstLoop.

Lemma tree_nodup (nfiles : nat) (lrs : list (option string * record)) :
  forall m, NoDup (Dict.keys (tree_nodes m)) ->
    NoDup (Dict.keys (tree_nodes (fold_left (add_record_result nfiles) lrs m))).
Proof.
  induction lrs as [|lr lrs IH]; intros m ND; simpl; [exact ND|].
  apply IH. cbn [tree_nodes add_record_result]. now apply nodup_set.
Qed.

(** Every node of the tree is the node of a record stored under its key. *)
Lemma tree_entries (nfiles : nat) (lrs : list (option string * record)) :
  forall m k n,
    Dict.get (tree_nodes (fold_left (add_record_result nfiles) lrs m)) k
    = Some n ->
    Dict.get (tree_nodes m) k = Some n
    \/ exists lr, In lr lrs /\ path_of nfiles lr = k
                  /\ n = record_node nfiles lr.
Proof.
  induction lrs as [|lr lrs IH]; intros m k n; simpl; [now left|].
  intros G. apply IH in G as [G|[lr' [I [E ->]]]].
  - cbn [tree_nodes add_record_result] in G.
    destruct (String.eqb_spec k (path_of nfiles lr)) as [->|NE].
    + rewrite get_set_same in G. injection G as <-.
      right. exists lr. repeat split. now left.
    + rewrite get_set_other in G by exact NE. now left.
  - right. exists lr'. repeat split; [now right | exact E].
Qed.

(** The totals entry of [f] after the records [lrs], from the entry
    [acc]. *)
Lemma totals_get (nfiles : nat) (f : string)
  (lrs : list (option string * record)) : forall m,
  Dict.get (totals (fold_left (add_record_result nfiles) lrs m)) f
  = fold_left
      (fun acc lr =>
         if String.eqb (name_of nfiles lr) f && negb (String.eqb f "$parent")
         then Some (bump_total nfiles lr acc) else acc)
      lrs (Dict.get (totals m) f).
Proof.
  induction lrs as [|lr lrs IH]; intros m; simpl; [reflexivity|].
  rewrite IH. f_equal. cbn [totals add_record_result].
  destruct (String.eqb_spec (name_of nfiles lr) f) as [E|NE]; cbn [andb].
  - subst f. destruct (String.eqb (name_of nfiles lr) "$parent");
      cbn [negb]; [reflexivity|]. now rewrite get_set_same.
  - destruct (String.eqb (name_of nfiles lr) "$parent"); [reflexivity|].
    rewrite get_set_other; [reflexivity|]. congruence.
Qed.

Lemma totals_sums (nfiles : nat) (f : string)
  (lrs : list (option string * record)) : forall acc c0 t0,
  (match acc with
   | Some a => tot_count a = c0 /\ tot_time a = t0
   | None => c0 = 0%Z /\ t0 = 0%float
   end) ->
  let res :=
    fold_left
      (fun acc lr =>
         if String.eqb (name_of nfiles lr) f && negb (String.eqb f "$parent")
         then Some (bump_total nfiles lr acc) else acc)
      lrs acc in
  match res with
  | Some tn =>
      tot_count tn
      = fold_left Z.add (map record_count (counted_for nfiles f lrs)) c0
      /\ tot_time tn
         = fold_left PrimFloat.add
             (map record_time (counted_for nfiles f lrs)) t0
  | None => acc = None /\ counted_for nfiles f lrs = []
  end.
Proof.
  induction lrs as [|lr lrs IH]; intros acc c0 t0 H; simpl.
  - destruct acc as [a|]; [exact H | now split].
  - destruct (String.eqb (name_of nfiles lr) f
              && negb (String.eqb f "$parent")) eqn:C.
    + specialize (IH (Some (bump_total nfiles lr acc))
                    (c0 + record_count lr)%Z (t0 + record_time lr)%float).
      cbn zeta in IH. simpl.
      destruct (fold_left _ lrs (Some (bump_total nfiles lr acc))) as [tn|].
      * apply IH. destruct lr as [dec [[fp cnt] t]].
        unfold bump_total, record_count, record_time. cbn [fst snd].
        destruct acc as [a|];
          [destruct H as [<- <-] | destruct H as [-> ->]]; now split.
      * destruct IH as [IH _]; [|discriminate].
        destruct lr as [dec [[fp cnt] t]].
        unfold bump_total, record_count, record_time. cbn [fst snd].
        destruct acc as [a|];
          [destruct H as [<- <-] | destruct H as [-> ->]]; now split.
    + apply (IH acc c0 t0 H).
Qed.

End FirstLoopMore.

(** ** The merge: the second loop and the end *)

Module LastLoops.
Import Str StrFacts DictFacts.

Lemma percentages_eq (tot tree : Dict.t node) (k : string) (n : node) :
  percentages tot tree (k, n)
  = (n' <- percent_node tot tree k n ;; Return (Dict.set tree k n')).
Proof.
  unfold percentages, percent_node. cbv zeta.
  match goal with
  | |- bind ?r _ = _ => destruct r as [n1|e]; cbn [bind]; [|reflexivity]
  end.
  destruct (del_obj n1) as [n2|e]; cbn [bind]; [|reflexivity].
  destruct (del_child_time n2); reflexivity.
Qed.

Lemma percent_node_ext (tot d T : Dict.t node) (k : string) (n : node) :
  same_times d T -> percent_node tot d k n = percent_node tot T k n.
Proof.
  intros S. unfold percent_node. cbv zeta.
  destruct (negb (String.eqb (parts_last (rsplit1 at_sign k)) "$parent"));
    [|reflexivity].
  f_equal.
  destruct (Dict.lookup tot (parts_last (rsplit1 at_sign k))) as [tn|e];
    cbn [bind]; [|reflexivity].
  assert (forall key (F G : node -> result node),
            (forall p q, time p = time q -> F p = G q) ->
            (p <- Dict.lookup d key ;; F p) = (p <- Dict.lookup T key ;; G p))
    as L.
  { intros key F G HF. pose proof (S key) as A. unfold Dict.lookup.
    destruct (Dict.get d key) as [p|], (Dict.get T key) as [q|];
      simpl in A; try discriminate; cbn [bind]; [|reflexivity].
    apply HF. congruence. }
  apply L. intros p q E. rewrite E.
  destruct (fdiv _ (time q)) as [pp|e]; cbn [bind]; [|reflexivity].
  apply L. intros r r' E'. rewrite E'.
  destruct (fdiv _ (time r')) as [pt|e]; cbn [bind]; [|reflexivity].
  apply L. intros u u' E''. now rewrite E''.
Qed.

(** The fields that the second loop leaves alone, and those it deletes. *)
Lemma percent_node_keeps (tot T : Dict.t node) (k : string) (n n' : node) :
  percent_node tot T k n = Return n' ->
  name n' = name n /\ short_name n' = short_name n /\ time n' = time n
  /\ count n' = count n /\ child_time n' = None /\ obj n' = None.
Proof.
  unfold percent_node. cbv zeta.
  assert (forall n1, (n2 <- del_obj n1 ;; del_child_time n2) = Return n' ->
            name n' = name n1 /\ short_name n' = short_name n1
            /\ time n' = time n1 /\ count n' = count n1
            /\ child_time n' = None /\ obj n' = None) as Del.
  { intros n1. unfold del_obj, del_child_time.
    destruct (obj n1); cbn [bind]; [|discriminate].
    cbn [child_time set_obj]. destruct (child_time n1); [|discriminate].
    intros [= <-]. repeat split. }
  destruct (negb _).
  - destruct (Dict.lookup tot _) as [tn|e]; cbn [bind]; [|discriminate].
    destruct (Dict.lookup T (parts_first _)) as [pn|e]; cbn [bind];
      [|discriminate].
    destruct (fdiv _ (time pn)) as [pp|e]; cbn [bind]; [|discriminate].
    destruct (Dict.lookup T "$total") as [root|e]; cbn [bind];
      [|discriminate].
    destruct (fdiv _ (time root)) as [pt|e]; cbn [bind]; [|discriminate].
    destruct (fdiv (tot_time tn) (time root)) as [tpt|e]; cbn [bind];
      [|discriminate].
    intros H. apply Del in H. exact H.
  - cbn [bind]. apply Del.
Qed.

Lemma percent_loop (tot T : Dict.t node) : forall (xs d d' : Dict.t node),
  NoDup (Dict.keys xs) ->
  (forall k n, In (k, n) xs -> Dict.get d k = Some n) ->
  same_times d T ->
  foldM (percentages tot) xs d = Return d' ->
  Dict.keys d' = Dict.keys d
  /\ (forall k n, In (k, n) xs ->
        exists n', percent_node tot T k n = Return n'
                   /\ Dict.get d' k = Some n')
  /\ (forall k, ~ In k (Dict.keys xs) -> Dict.get d' k = Dict.get d k).
Proof.
  induction xs as [|[k0 n0] xs IH]; intros d d' ND Cur S H.
  - simpl in H. injection H as <-. split; [reflexivity|].
    split; [intros k n [] | reflexivity].
  - cbn [foldM] in H. rewrite percentages_eq in H.
    rewrite (percent_node_ext tot k0 n0 S) in H.
    destruct (percent_node tot T k0 n0) as [n1|e] eqn:P; cbn [bind] in H;
      [|discriminate].
    simpl in ND. inversion ND as [|? ? NI ND']; subst.
    pose proof (Cur k0 n0 (or_introl eq_refl)) as G0.
    destruct (percent_node_keeps _ _ _ _ P) as [_ [_ [Tm _]]].
    destruct (IH (Dict.set d k0 n1) d' ND') as [K [In' Out]].
    + intros k n I. rewrite get_set_other; [apply Cur; now right|].
      intros ->. apply NI. now apply (in_map fst) in I.
    + intros k. destruct (String.eqb_spec k k0) as [->|NE].
      * rewrite get_set_same. rewrite <- (S k0), G0. simpl. now rewrite Tm.
      * rewrite get_set_other by exact NE. apply S.
    + exact H.
    + split; [rewrite K; now apply keys_set_present with (v0 := n0)|].
      split.
      * intros k n [E|I].
        -- injection E as <- <-. exists n1. split; [exact P|].
           rewrite (Out k0 NI). apply get_set_same.
        -- now apply In'.
      * intros k NK. simpl in NK. rewrite Out by tauto.
        apply get_set_other. intros ->. apply NK. now left.
Qed.

Lemma zero_loop : forall (xs d d' : Dict.t node),
  foldM zero_parent xs d = Return d' ->
  Dict.keys d' = Dict.keys d
  /\ forall k,
       Dict.get d' k
       = option_map
           (fun n => if zeroed_by (Dict.keys xs) k then set_time n 0 else n)
           (Dict.get d k).
Proof.
  induction xs as [|[k2 n2] xs IH]; intros d d' H.
  - simpl in H. injection H as <-. split; [reflexivity|].
    intros k. now destruct (Dict.get d k).
  - cbn [foldM] in H. unfold zero_parent at 1 in H. cbn [fst] in H.
    cbn [Dict.keys map fst zeroed_by existsb].
    fold (Dict.keys xs). fold (zeroed_by (Dict.keys xs)).
    destruct (String.eqb (parts_last (rsplit1 at_sign k2)) "$parent");
      cbn [andb].
    + unfold Dict.lookup in H.
      destruct (Dict.get d (parts_first (rsplit1 at_sign k2))) as [p|] eqn:G;
        cbn [bind] in H; [|discriminate].
      destruct (IH _ _ H) as [K R]. split.
      * rewrite K. now apply keys_set_present with (v0 := p).
      * intros k. rewrite R.
        destruct (String.eqb_spec (parts_first (rsplit1 at_sign k2)) k)
          as [<-|NE]; cbn [orb].
        -- rewrite get_set_same, G. simpl.
           now destruct (zeroed_by (Dict.keys xs) _).
        -- rewrite get_set_other by congruence. reflexivity.
    + cbn [bind] in H. destruct (IH _ _ H) as [K R]. split; [exact K|].
      intros k. now rewrite R.
Qed.

(** Two dictionaries with the same keys, related key by key. *)
Lemma dict_forall2 (R : string -> node -> node -> Prop) :
  forall d d' : Dict.t node,
    Dict.keys d' = Dict.keys d -> NoDup (Dict.keys d) ->
    (forall k n, In (k, n) d ->
       exists n', Dict.get d' k = Some n' /\ R k n n') ->
    Forall2 (fun kv n' => R (fst kv) (snd kv) n') d (Dict.values d').
Proof.
  induction d as [|[k n] d IH]; intros d' K ND H.
  - destruct d'; [constructor | discriminate].
  - destruct d' as [|[k' n'] d']; [discriminate|].
    simpl in K. injection K as -> K.
    inversion ND as [|? ? NI ND']; subst.
    simpl. constructor.
    + destruct (H k n (or_introl eq_refl)) as [n1 [G R1]].
      simpl in G. rewrite String.eqb_refl in G. now injection G as <-.
    + apply IH; [exact K | exact ND'|].
      intros k2 n2 I. destruct (H k2 n2 (or_intror I)) as [n3 [G R3]].
      exists n3. split; [|exact R3].
      simpl in G. destruct (String.eqb_spec k k2) as [->|NE]; [|exact G].
      exfalso. apply NI. now apply (in_map fst) in I.
Qed.

End LastLoops.

Module MergeResult.
Import Str StrFacts DictFacts.

Lemma percent_node_pct (tot T : Dict.t node) (k : string) (n n' : node) :
  percent_node tot T k n = Return n' ->
  parts_last (rsplit1 at_sign k) <> "$parent" ->
  exists tn pn root,
    Dict.get tot (parts_last (rsplit1 at_sign k)) = Some tn
    /\ Dict.get T (parts_first (rsplit1 at_sign k)) = Some pn
    /\ Dict.get T "$total" = Some root
    /\ tot_time n' = tot_time tn /\ tot_count n' = tot_count tn
    /\ fdiv (time n) (time pn) = Return (pct_parent n')
    /\ fdiv (time n) (time root) = Return (pct_total n')
    /\ fdiv (tot_time tn) (time root) = Return (tot_pct_total n').
Proof.
  unfold percent_node. cbv zeta. intros H NP.
  destruct (String.eqb_spec (parts_last (rsplit1 at_sign k)) "$parent")
    as [E|_]; [contradiction|]. cbn [negb] in H.
  unfold Dict.lookup in H.
  destruct (Dict.get tot _) as [tn|]; cbn [bind] in H; [|discriminate].
  destruct (Dict.get T (parts_first _)) as [pn|]; cbn [bind] in H;
    [|discriminate].
  destruct (fdiv _ (time pn)) as [pp|e] eqn:F1; cbn [bind] in H;
    [|discriminate].
  destruct (Dict.get T "$total") as [root|]; cbn [bind] in H;
    [|discriminate].
  destruct (fdiv _ (time root)) as [pt|e] eqn:F2; cbn [bind] in H;
    [|discriminate].
  destruct (fdiv (tot_time tn) (time root)) as [tpt|e] eqn:F3;
    cbn [bind] in H; [|discriminate].
  unfold del_obj, del_child_time in H. cbn in H.
  destruct (obj n); cbn [bind] in H; [|discriminate]. cbn in H.
  destruct (child_time n); [|discriminate]. injection H as <-.
  exists tn, pn, root. cbn in *. repeat split; assumption.
Qed.

Lemma finish_keeps (ks : list string) (k : string) (n : node) :
  name (finish ks k n) = name n /\ count (finish ks k n) = count n
  /\ child_time (finish ks k n) = child_time n
  /\ obj (finish ks k n) = obj n
  /\ tot_count (finish ks k n) = tot_count n
  /\ pct_parent (finish ks k n) = pct_parent n
  /\ pct_total (finish ks k n) = pct_total n
  /\ tot_pct_total (finish ks k n) = tot_pct_total n
  /\ (k <> "$total" -> tot_time (finish ks k n) = tot_time n)
  /\ time (finish ks k n) = if zeroed_by ks k then 0%float else time n.
Proof.
  unfold finish.
  destruct (String.eqb_spec k "$total") as [->|NE];
    destruct (zeroed_by ks _); cbn; repeat split; congruence.
Qed.

Lemma name_record_node (nfiles : nat) (lr : option string * record) :
  name (record_node nfiles lr) = path_of nfiles lr.
Proof.
  destruct lr as [dec [[fp cnt] t]].
  unfold record_node, path_of, fresh_node, stored_path, stored_parts.
  cbn. destruct (decorating nfiles dec); [reflexivity|].
  change "@" with (String at_sign ""). apply join_split.
Qed.

(** The result of [process_profile], node by node. *)
Lemma process_profile_result (iter : string -> stream record)
  (flist : list string) (nodes : list node) (tot : Dict.t node) :
  process_profile iter flist = Return (nodes, tot) ->
  exists m,
    m = fold_left (add_record_result (length flist)) (labelled iter flist)
          {| tree_nodes := []; totals := [] |}
    /\ tot = totals m
    /\ NoDup (Dict.keys (tree_nodes m))
    /\ In "$total" (Dict.keys (tree_nodes m))
    /\ Forall2
         (fun kv n3 =>
            exists n2,
              percent_node (totals m) (tree_nodes m) (fst kv) (snd kv)
              = Return n2
              /\ n3 = finish (Dict.keys (tree_nodes m)) (fst kv) n2)
         (tree_nodes m) nodes.
Proof.
  unfold process_profile.
  destruct (foldM (read_file iter (length flist)) flist _) as [m|e] eqn:R;
    cbn [bind]; [|discriminate].
  apply FirstLoop.read_files_fold in R.
  assert (NoDup (Dict.keys (tree_nodes m))) as ND.
  { rewrite R. apply FirstLoopMore.tree_nodup. constructor. }
  destruct (foldM (percentages (totals m)) (tree_nodes m) (tree_nodes m))
    as [d2|e] eqn:P; cbn [bind]; [|discriminate].
  destruct (@LastLoops.percent_loop (totals m) (tree_nodes m) (tree_nodes m)
              (tree_nodes m) d2 ND) as [K2 [In2 _]]; try exact P.
  { intros k n I. now apply in_get. }
  { intros k. reflexivity. }
  unfold Dict.lookup.
  destruct (Dict.get d2 "$total") as [root|] eqn:G; cbn [bind];
    [|discriminate].
  destruct (foldM zero_parent _ _) as [d4|e] eqn:Z; cbn [bind];
    [|discriminate].
  intros [= <- <-].
  destruct (LastLoops.zero_loop _ _ Z) as [K4 R4].
  assert (Dict.keys (Dict.set d2 "$total" (set_tot_time root (time root)))
          = Dict.keys (tree_nodes m)) as K3.
  { rewrite <- K2. now apply keys_set_present with (v0 := root). }
  exists m. split; [exact R|]. split; [reflexivity|]. split; [exact ND|].
  split.
  { rewrite <- K2. apply get_in in G. now apply (in_map fst) in G. }
  apply (LastLoops.dict_forall2
           (fun k n n3 =>
              exists n2,
                percent_node (totals m) (tree_nodes m) k n = Return n2
                /\ n3 = finish (Dict.keys (tree_nodes m)) k n2));
    [now rewrite K4 | exact ND|].
  intros k n I. destruct (In2 k n I) as [n2 [Pn G2]].
  eexists. split; [|exists n2; split; [exact Pn | reflexivity]].
  rewrite R4, K3. unfold finish.
  destruct (String.eqb_spec k "$total") as [->|NE].
  - rewrite get_set_same. rewrite G in G2. injection G2 as ->. reflexivity.
  - rewrite get_set_other by exact NE. rewrite G2. reflexivity.
Qed.

Lemma Forall2_impl_in {A B : Type} (R R' : A -> B -> Prop) (l : list A)
  (l' : list B) :
  (forall a b, In a l -> R a b -> R' a b) ->
  Forall2 R l l' -> Forall2 R' l l'.
Proof.
  intros H F. induction F as [|a b l l' Rab F IH]; constructor.
  - apply H; [now left | exact Rab].
  - apply IH. intros a' b' I. apply H. now right.
Qed.

Lemma Forall2_names (T : Dict.t node) (nodes : list node) :
  Forall2 (fun kv n3 => name n3 = fst kv) T nodes ->
  map name nodes = Dict.keys T.
Proof.
  intros F. induction F as [|[k n] n3 T' nodes' E F IH]; [reflexivity|].
  simpl in *. now rewrite E, IH.
Qed.

Lemma Forall2_in_r {A B : Type} (R : A -> B -> Prop) (l : list A)
  (l' : list B) (b : B) :
  Forall2 R l l' -> In b l' -> exists a, In a l /\ R a b.
Proof.
  intros F. induction F as [|a b' l l' Rab F IH]; intros I; [destruct I|].
  destruct I as [<-|I].
  - exists a. split; [now left | exact Rab].
  - destruct (IH I) as [a' [I' R']]. exists a'. split; [now right | exact R'].
Qed.

(** A node of the tree of the first loop is the node of a record stored
    under its key. *)
Lemma tree_node_of_record (nfiles : nat) (lrs : list (option string * record))
  (k : string) (n : node) :
  In (k, n)
    (tree_nodes (fold_left (add_record_result nfiles) lrs
                   {| tree_nodes := []; totals := [] |})) ->
  exists lr, In lr lrs /\ path_of nfiles lr = k /\ n = record_node nfiles lr.
Proof.
  intros I.
  assert (NoDup (Dict.keys
                   (tree_nodes (fold_left (add_record_result nfiles) lrs
                                  {| tree_nodes := []; totals := [] |}))))
    as ND by (apply FirstLoopMore.tree_nodup; constructor).
  apply (in_get _ _ _ ND) in I.
  apply FirstLoopMore.tree_entries in I as [I|H]; [discriminate | exact H].
Qed.

(** Every returned node, with the record it comes from. *)
Lemma returned_node (iter : string -> stream record) (flist : list string)
  (nodes : list node) (tot : Dict.t node) (n3 : node) :
  process_profile iter flist = Return (nodes, tot) -> In n3 nodes ->
  exists m lr n2,
    m = fold_left (add_record_result (length flist)) (labelled iter flist)
          {| tree_nodes := []; totals := [] |}
    /\ tot = totals m
    /\ map name nodes = Dict.keys (tree_nodes m)
    /\ In lr (labelled iter flist)
    /\ name n3 = path_of (length flist) lr
    /\ percent_node (totals m) (tree_nodes m) (name n3)
         (record_node (length flist) lr) = Return n2
    /\ n3 = finish (map name nodes) (name n3) n2.
Proof.
  intros H I.
  destruct (process_profile_result _ _ H) as [m [Em [Et [ND [_ F]]]]].
  assert (map name nodes = Dict.keys (tree_nodes m)) as Names.
  { apply Forall2_names. revert F. apply Forall2_impl_in.
    intros [k n] b Ia [n2 [P ->]]. cbn [fst snd] in *.
    destruct (finish_keeps (Dict.keys (tree_nodes m)) k n2) as [-> _].
    destruct (LastLoops.percent_node_keeps _ _ _ _ P) as [-> _].
    rewrite Em in Ia. apply tree_node_of_record in Ia as [lr [_ [E ->]]].
    rewrite <- E. apply name_record_node. }
  destruct (Forall2_in_r _ F I) as [[k n] [Ia [n2 [P E3]]]].
  cbn [fst snd] in *.
  pose proof Ia as Ia'. rewrite Em in Ia'.
  apply tree_node_of_record in Ia' as [lr [Il [Ek En]]].
  assert (name n3 = k) as Nk.
  { rewrite E3.
    destruct (finish_keeps (Dict.keys (tree_nodes m)) k n2) as [-> _].
    destruct (LastLoops.percent_node_keeps _ _ _ _ P) as [-> _].
    rewrite En, <- Ek. apply name_record_node. }
  exists m, lr, n2. rewrite Names, Nk. subst n.
  repeat split; try assumption. now symmetry.
Qed.

End MergeResult.

Module MergeMore.
Import Str StrFacts DictFacts.

Lemma not_counted (nfiles : nat) (f : string)
  (lrs : list (option string * record)) : forall acc,
  counted_for nfiles f lrs = [] ->
  fold_left
    (fun acc lr =>
       if String.eqb (name_of nfiles lr) f && negb (String.eqb f "$parent")
       then Some (bump_total nfiles lr acc) else acc)
    lrs acc = acc.
Proof.
  induction lrs as [|lr lrs IH]; intros acc; simpl; [reflexivity|].
  destruct (String.eqb (name_of nfiles lr) f && negb (String.eqb f "$parent"));
    [discriminate | apply IH].
Qed.

(** [zeroed_by] in words. *)
Lemma zeroed_by_spec (ks : list string) (k : string) :
  zeroed_by ks k = true
  <-> In (k ++ "@$parent")%string ks \/ (k = "$parent" /\ In "$parent" ks).
Proof.
  unfold zeroed_by. rewrite existsb_exists. split.
  - intros [k2 [I H]]. apply andb_true_iff in H as [L F].
    apply String.eqb_eq in L, F.
    destruct (rsplit1 at_sign k2) as [[h|] t] eqn:E;
      unfold parts_last, parts_first in *; simpl in *; subst.
    + left. apply rsplit1_some in E as [-> _]. exact I.
    + right. apply rsplit1_none in E as [<- _]. now split.
  - intros [I|[-> I]].
    + exists (k ++ "@$parent")%string. split; [exact I|].
      change (k ++ "@$parent")%string with (k ++ String at_sign "$parent")%string.
      rewrite rsplit1_app by (simpl; intuition discriminate).
      unfold parts_last, parts_first. simpl. now rewrite String.eqb_refl.
    + exists "$parent". split; [exact I | reflexivity].
Qed.

End MergeMore.

(** X11.  When [process_profile] returns, the totals of a function [f] add up
    the records, of all files, whose last stored segment is [f]:
    [tot_count] is the sum of their counts and [tot_time] the sum of their
    times, in reading order.  Records that end in [$parent] are not counted,
    and a function without a counted record has no entry. *)
Theorem totals_add_up_by_function (iter : string -> stream record)
  (flist : list string) (nodes : list node) (tot : Dict.t node) (f : string) :
  process_profile iter flist = Return (nodes, tot) ->
  match counted_for (length flist) f (labelled iter flist) with
  | [] => Dict.get tot f = None
  | counted =>
      exists tn,
        Dict.get tot f = Some tn
        /\ tot_count tn = zsum (map record_count counted)
        /\ tot_time tn = fsum (map record_time counted)
  end.
Proof.
  intros H.
  destruct (MergeResult.process_profile_result _ _ H) as [m [Em [-> _]]].
  rewrite Em, FirstLoopMore.totals_get. cbn [totals Dict.get].
  pose proof (@FirstLoopMore.totals_sums (length flist) f
                (labelled iter flist) None 0%Z 0%float (conj eq_refl eq_refl))
    as S.
  cbv zeta in S.
  destruct (counted_for (length flist) f (labelled iter flist))
    as [|lr counted] eqn:C.
  - now rewrite MergeMore.not_counted.
  - destruct (fold_left _ (labelled iter flist) None) as [tn|].
    + exists tn. split; [reflexivity|]. exact S.
    + destruct S as [_ S]. discriminate.
Qed.

Lemma totals_add_up_by_function_witness :
  match counted_for (length ["iprof.0"]) "A"
          (labelled scenario_iter ["iprof.0"]) with
  | [] => Dict.get (snd scenario_result) "A" = None
  | counted =>
      exists tn,
        Dict.get (snd scenario_result) "A" = Some tn
        /\ tot_count tn = zsum (map record_count counted)
        /\ tot_time tn = fsum (map record_time counted)
  end.
Proof.
  apply (@totals_add_up_by_function scenario_iter ["iprof.0"]
           (fst scenario_result) (snd scenario_result) "A").
  vm_compute. reflexivity.
Defined.

(** X12.  When [process_profile] returns, the list has exactly one node per
    stored path of the records read: the names of the nodes are distinct,
    every name is the stored path of a record and every stored path is the
    name of a node; and no returned node has the keys [obj] and
    [child_time] any more. *)
Theorem returned_nodes_are_the_stored_paths (iter : string -> stream record)
  (flist : list string) (nodes : list node) (tot : Dict.t node) :
  process_profile iter flist = Return (nodes, tot) ->
  NoDup (map name nodes)
  /\ (forall k, In k (map name nodes)
                <-> exists lr, In lr (labelled iter flist)
                               /\ path_of (length flist) lr = k)
  /\ Forall (fun n => child_time n = None /\ obj n = None) nodes.
Proof.
  intros H.
  destruct (MergeResult.process_profile_result _ _ H)
    as [m [Em [Et [ND [_ F]]]]].
  assert (map name nodes = Dict.keys (tree_nodes m)) as Names.
  { apply MergeResult.Forall2_names. revert F.
    apply MergeResult.Forall2_impl_in.
    intros [k n] b Ia [n2 [P ->]]. cbn [fst snd] in *.
    destruct (MergeResult.finish_keeps (Dict.keys (tree_nodes m)) k n2)
      as [-> _].
    destruct (LastLoops.percent_node_keeps _ _ _ _ P) as [-> _].
    rewrite Em in Ia.
    apply MergeResult.tree_node_of_record in Ia as [lr [_ [E ->]]].
    rewrite <- E. apply MergeResult.name_record_node. }
  split; [now rewrite Names|]. split.
  - intros k. rewrite Names, Em, FirstLoop.tree_keys. cbn [tree_nodes Dict.keys map].
    split; [intros [[]|E]; exact E | now right].
  - apply Forall_forall. intros n3 I.
    destruct (MergeResult.Forall2_in_r _ F I) as [[k n] [_ [n2 [P ->]]]].
    destruct (MergeResult.finish_keeps (Dict.keys (tree_nodes m)) (fst (k, n)) n2)
      as [_ [_ [-> [-> _]]]].
    destruct (LastLoops.percent_node_keeps _ _ _ _ P)
      as [_ [_ [_ [_ [C O]]]]].
    now split.
Qed.

Lemma returned_nodes_are_the_stored_paths_witness :
  NoDup (map name (fst scenario_result))
  /\ (forall k, In k (map name (fst scenario_result))
                <-> exists lr, In lr (labelled scenario_iter ["iprof.0"])
                               /\ path_of (length ["iprof.0"]) lr = k)
  /\ Forall (fun n => child_time n = None /\ obj n = None)
       (fst scenario_result).
Proof.
  apply (@returned_nodes_are_the_stored_paths scenario_iter ["iprof.0"]
           (fst scenario_result) (snd scenario_result)).
  vm_compute. reflexivity.
Defined.

(** X13.  When [process_profile] returns, every node has the count of a
    record read under its path.  Its time is zero when the list also holds
    the node of its path extended by [$parent] (or when its path is the
    single segment [$parent]); otherwise it is the time of that record. *)
Theorem only_parents_of_self_nodes_lose_their_time
  (iter : string -> stream record) (flist : list string) (nodes : list node)
  (tot : Dict.t node) (n : node) :
  process_profile iter flist = Return (nodes, tot) -> In n nodes ->
  exists lr,
    In lr (labelled iter flist)
    /\ path_of (length flist) lr = name n
    /\ count n = record_count lr
    /\ (In (name n ++ "@$parent")%string (map name nodes)
        \/ name n = "$parent" -> time n = 0%float)
    /\ (~ In (name n ++ "@$parent")%string (map name nodes) ->
        name n <> "$parent" -> time n = (0 + record_time lr)%float).
Proof.
  intros H I.
  destruct (MergeResult.returned_node _ _ n H I)
    as [m [lr [n2 [Em [Et [Names [Il [En [P E3]]]]]]]]].
  exists lr. split; [exact Il|]. split; [now symmetry|].
  destruct (MergeResult.finish_keeps (map name nodes) (name n) n2)
    as [_ [Cn [_ [_ [_ [_ [_ [_ [_ Tm]]]]]]]]].
  destruct (LastLoops.percent_node_keeps _ _ _ _ P)
    as [_ [_ [T2 [C2 _]]]].
  rewrite <- E3 in Cn, Tm.
  assert (count (record_node (length flist) lr) = record_count lr
          /\ time (record_node (length flist) lr) = (0 + record_time lr)%float)
    as [Cr Tr].
  { destruct lr as [dec [[fp cnt] t]]. now split. }
  split; [congruence|]. split.
  - intros Z. rewrite Tm.
    assert (zeroed_by (map name nodes) (name n) = true) as ->; [|reflexivity].
    apply MergeMore.zeroed_by_spec. destruct Z as [Z|Z]; [now left|].
    right. split; [exact Z|]. rewrite <- Z. now apply in_map.
  - intros NZ NP. rewrite Tm.
    destruct (zeroed_by (map name nodes) (name n)) eqn:Z; [|congruence].
    apply MergeMore.zeroed_by_spec in Z as [Z|[Z _]]; contradiction.
Qed.

Lemma only_parents_of_self_nodes_lose_their_time_witness :
  exists lr,
    In lr (labelled scenario_iter ["iprof.0"])
    /\ path_of (length ["iprof.0"]) lr = name (hd (stored "" 0 0) (fst scenario_result))
    /\ count (hd (stored "" 0 0) (fst scenario_result)) = record_count lr
    /\ (In (name (hd (stored "" 0 0) (fst scenario_result)) ++ "@$parent")%string
          (map name (fst scenario_result))
        \/ name (hd (stored "" 0 0) (fst scenario_result)) = "$parent" ->
        time (hd (stored "" 0 0) (fst scenario_result)) = 0%float)
    /\ (~ In (name (hd (stored "" 0 0) (fst scenario_result)) ++ "@$parent")%string
            (map name (fst scenario_result)) ->
        name (hd (stored "" 0 0) (fst scenario_result)) <> "$parent" ->
        time (hd (stored "" 0 0) (fst scenario_result))
        = (0 + record_time lr)%float).
Proof.
  apply (@only_parents_of_self_nodes_lose_their_time scenario_iter
           ["iprof.0"] (fst scenario_result) (snd scenario_result)).
  - vm_compute. reflexivity.
  - vm_compute. now left.
Defined.

(** X14.  [process_profile] returns only when some record is stored under the
    path [$total]: without a root record (no file, no record, or every root
    decorated) the call ends with an exception. *)
Theorem merge_needs_a_root_record (iter : string -> stream record)
  (flist : list string) (r : list node * Dict.t node) :
  process_profile iter flist = Return r ->
  exists lr, In lr (labelled iter flist)
             /\ path_of (length flist) lr = "$total".
Proof.
  destruct r as [nodes tot]. intros H.
  destruct (MergeResult.process_profile_result _ _ H)
    as [m [Em [_ [_ [I _]]]]].
  rewrite Em in I. apply FirstLoop.tree_keys in I as [[]|E]. exact E.
Qed.

Lemma merge_needs_a_root_record_witness :
  exists lr, In lr (labelled scenario_iter ["iprof.0"])
             /\ path_of (length ["iprof.0"]) lr = "$total".
Proof.
  apply (@merge_needs_a_root_record scenario_iter ["iprof.0"] scenario_result).
  vm_compute. reflexivity.
Defined.

(** X15.  When [process_profile] returns, a node whose last segment is not
    [$parent] has the total count of its function, and its total time unless
    it is the root; its percentages are the quotients of the times as read:
    [pct_parent] over the time of the record stored under the path without
    its last segment (its own for a one-segment path), [pct_total] and
    [tot_pct_total] over the time of the root record, and none of these
    divisors is zero. *)
Theorem percentages_are_quotients_of_the_times_read
  (iter : string -> stream record) (flist : list string) (nodes : list node)
  (tot : Dict.t node) (n : node) :
  process_profile iter flist = Return (nodes, tot) -> In n nodes ->
  Str.parts_last (Str.rsplit1 Str.at_sign (name n)) <> "$parent" ->
  exists lr lp lroot tn,
    In lr (labelled iter flist) /\ In lp (labelled iter flist)
    /\ In lroot (labelled iter flist)
    /\ path_of (length flist) lr = name n
    /\ path_of (length flist) lp
       = Str.parts_first (Str.rsplit1 Str.at_sign (name n))
    /\ path_of (length flist) lroot = "$total"
    /\ Dict.get tot (Str.parts_last (Str.rsplit1 Str.at_sign (name n)))
       = Some tn
    /\ tot_count n = tot_count tn
    /\ (name n <> "$total" -> tot_time n = tot_time tn)
    /\ fdiv (0 + record_time lr) (0 + record_time lp) = Return (pct_parent n)
    /\ fdiv (0 + record_time lr) (0 + record_time lroot)
       = Return (pct_total n)
    /\ fdiv (tot_time tn) (0 + record_time lroot)
       = Return (tot_pct_total n).
Proof.
  intros H I NP.
  destruct (MergeResult.returned_node _ _ n H I)
    as [m [lr [n2 [Em [Et [Names [Il [En [P E3]]]]]]]]].
  destruct (MergeResult.percent_node_pct _ _ _ _ P NP)
    as [tn [pn [root [Gt [Gp [Gr [Tt [Tc [F1 [F2 F3]]]]]]]]]].
  destruct (MergeResult.finish_keeps (map name nodes) (name n) n2)
    as [_ [_ [_ [_ [Kc [Kpp [Kpt [Ktp [Ktt _]]]]]]]]].
  rewrite <- E3 in Kc, Kpp, Kpt, Ktp, Ktt.
  assert (forall k v, Dict.get (tree_nodes m) k = Some v ->
            exists l, In l (labelled iter flist)
                      /\ path_of (length flist) l = k
                      /\ time v = (0 + record_time l)%float) as Rec.
  { intros k v G. apply DictFacts.get_in in G. rewrite Em in G.
    apply MergeResult.tree_node_of_record in G as [l [Il' [Ek ->]]].
    exists l. split; [exact Il'|]. split; [exact Ek|].
    now destruct l as [dec [[fp cnt] t]]. }
  destruct (Rec _ _ Gp) as [lp [Ilp [Ep Tp]]].
  destruct (Rec _ _ Gr) as [lroot [Ilr [Er Tr]]].
  assert (time (record_node (length flist) lr) = (0 + record_time lr)%float)
    as Tn by now destruct lr as [dec [[fp cnt] t]].
  rewrite Tn, Tp in F1. rewrite Tn, Tr in F2. rewrite Tr in F3.
  exists lr, lp, lroot, tn. rewrite Et.
  repeat split; try assumption; try congruence.
  intros NT. rewrite (Ktt NT). exact Tt.
Qed.

Lemma percentages_are_quotients_of_the_times_read_witness :
  exists lr lp lroot tn,
    In lr (labelled scenario_iter ["iprof.0"])
    /\ In lp (labelled scenario_iter ["iprof.0"])
    /\ In lroot (labelled scenario_iter ["iprof.0"])
    /\ path_of (length ["iprof.0"]) lr
       = name (nth 1 (fst scenario_result) (stored "" 0 0))
    /\ path_of (length ["iprof.0"]) lp
       = Str.parts_first
           (Str.rsplit1 Str.at_sign
              (name (nth 1 (fst scenario_result) (stored "" 0 0))))
    /\ path_of (length ["iprof.0"]) lroot = "$total"
    /\ Dict.get (snd scenario_result)
         (Str.parts_last
            (Str.rsplit1 Str.at_sign
               (name (nth 1 (fst scenario_result) (stored "" 0 0)))))
       = Some tn
    /\ tot_count (nth 1 (fst scenario_result) (stored "" 0 0)) = tot_count tn
    /\ (name (nth 1 (fst scenario_result) (stored "" 0 0)) <> "$total" ->
        tot_time (nth 1 (fst scenario_result) (stored "" 0 0)) = tot_time tn)
    /\ fdiv (0 + record_time lr) (0 + record_time lp)
       = Return (pct_parent (nth 1 (fst scenario_result) (stored "" 0 0)))
    /\ fdiv (0 + record_time lr) (0 + record_time lroot)
       = Return (pct_total (nth 1 (fst scenario_result) (stored "" 0 0)))
    /\ fdiv (tot_time tn) (0 + record_time lroot)
       = Return (tot_pct_total (nth 1 (fst scenario_result) (stored "" 0 0))).
Proof.
  apply (@percentages_are_quotients_of_the_times_read scenario_iter
           ["iprof.0"] (fst scenario_result) (snd scenario_result)).
  - vm_compute. reflexivity.
  - vm_compute. right. now left.
  - vm_compute. discriminate.
Defined.

(** X16.  With a single file nothing is decorated: when [process_profile]
    returns, the names of the nodes are exactly the paths of the records of
    the file, whatever its extension. *)
Theorem single_file_keeps_the_paths (iter : string -> stream record)
  (fname : string) (nodes : list node) (tot : Dict.t node) (k : string) :
  process_profile iter [fname] = Return (nodes, tot) ->
  In k (map name nodes)
  <-> exists cnt t, In (k, cnt, t) (yielded (iter fname)).
Proof.
  intros H.
  destruct (MergeResult.process_profile_result _ _ H)
    as [m [Em [Et [ND [_ F]]]]].
  assert (map name nodes = Dict.keys (tree_nodes m)) as Names.
  { apply MergeResult.Forall2_names. revert F.
    apply MergeResult.Forall2_impl_in.
    intros [k' n] b Ia [n2 [P ->]]. cbn [fst snd] in *.
    destruct (MergeResult.finish_keeps (Dict.keys (tree_nodes m)) k' n2)
      as [-> _].
    destruct (LastLoops.percent_node_keeps _ _ _ _ P) as [-> _].
    rewrite Em in Ia.
    apply MergeResult.tree_node_of_record in Ia as [lr [_ [E ->]]].
    rewrite <- E. apply MergeResult.name_record_node. }
  rewrite Names, Em, FirstLoop.tree_keys.
  cbn [tree_nodes Dict.keys map length labelled flat_map].
  rewrite app_nil_r. split.
  - intros [[]|[lr [I E]]]. apply in_map_iff in I as [[[fp cnt] t] [<- I]].
    unfold path_of, stored_path in E. cbn in E. subst fp. now exists cnt, t.
  - intros [cnt [t I]]. right. exists (decoration fname, (k, cnt, t)).
    split; [|reflexivity].
    apply in_map_iff. now exists (k, cnt, t).
Qed.

Lemma single_file_keeps_the_paths_witness :
  In "A@B" (map name (fst scenario_result))
  <-> exists cnt t, In ("A@B", cnt, t) (yielded (scenario_iter "iprof.0")).
Proof.
  apply (@single_file_keeps_the_paths scenario_iter "iprof.0"
           (fst scenario_result) (snd scenario_result) "A@B").
  vm_compute. reflexivity.
Defined.

(** ** The tracker: what it keeps *)

Module TrackerKeeps.
Import Str StrFacts DictFacts.

Lemma nodes_ok_set (d : Dict.t node) (k : string) (v : node) :
  nodes_ok d ->
  name v = k -> child_time v = Some 0%float -> obj v <> None ->
  nodes_ok (Dict.set d k v).
Proof.
  intros Ok N C O p n G.
  destruct (String.eqb_spec p k) as [->|NE].
  - rewrite get_set_same in G. injection G as <-. now repeat split.
  - rewrite get_set_other in G by exact NE. now apply Ok.
Qed.

Lemma prof_node_ok (parts : list string) (o : option pyobj) (n : node) :
  _prof_node parts o = Return n ->
  name n = join "@" parts /\ child_time n = Some 0%float /\ obj n <> None
  /\ time n = 0%float /\ count n = 0%Z.
Proof.
  unfold _prof_node. destruct (last_part parts); cbn [bind]; [|discriminate].
  intros [= <-]. cbn. repeat split. discriminate.
Qed.

(** Adding a time and a count keeps a node as the tracker stores it. *)
Lemma nodes_ok_update (d : Dict.t node) (k : string) (n : node) (t : float)
  (c : Z) :
  nodes_ok d -> Dict.get d k = Some n ->
  nodes_ok (Dict.set d k (set_count (set_time n t) c)).
Proof.
  intros Ok G. destruct (Ok k n G) as [N [C O]].
  apply nodes_ok_set; assumption.
Qed.

Lemma setup_inst_data (h : host) (prefix : string)
  (methods : option (Dict.t (list string))) (prof_dir : option string)
  (g : globals) :
  _inst_data (state_of (setup h prefix methods prof_dir g)) = _inst_data g
  /\ _call_stack (state_of (setup h prefix methods prof_dir g)) = _call_stack g
  /\ _timing_stack (state_of (setup h prefix methods prof_dir g))
     = _timing_stack g.
Proof.
  unfold setup. destruct (_profile_setup g); [now repeat split|].
  destruct (can_open h _); now repeat split.
Qed.

End TrackerKeeps.

(** X17.  The tracker keeps its nodes well formed: after [setup], [start],
    [stop] or an event of the profile function, whether it returns or
    raises, every stored node still has the path it is stored under as its
    name, a zero child time and its [obj] key.  The child-time pass of the
    finalize step therefore starts from zero. *)
Theorem tracker_keeps_its_nodes_well_formed (h : host) (now : float)
  (f : frame) (ev : event) (prefix : string)
  (methods : option (Dict.t (list string))) (prof_dir : option string)
  (g : globals) :
  nodes_ok (_inst_data g) ->
  nodes_ok (_inst_data (state_of (setup h prefix methods prof_dir g)))
  /\ nodes_ok (_inst_data (state_of (start h now g)))
  /\ nodes_ok (_inst_data (state_of (stop now g)))
  /\ nodes_ok (_inst_data (state_of (_instance_profile now f ev g))).
Proof.
  intros Ok. split; [|split; [|split]].
  - now rewrite (proj1 (TrackerKeeps.setup_inst_data h prefix methods prof_dir g)).
  - unfold start. destruct (_profile_start g); [exact Ok|].
    assert (nodes_ok
              (_inst_data
                 (state_of (if _profile_setup g then Done g
                            else setup h "iprof" None None g)))) as Ok1.
    { destruct (_profile_setup g); [exact Ok|].
      now rewrite (proj1 (TrackerKeeps.setup_inst_data h "iprof" None None g)). }
    destruct (if _profile_setup g then Done g
              else setup h "iprof" None None g) as [g0|e g0];
      cbn [andthen state_of] in *; [|exact Ok1].
    cbn [_inst_data set_call_stack set_profile_start].
    destruct (Dict.mem (_inst_data g0) "$total"); cbn [andthen].
    + cbn [sys_profile set_call_stack set_profile_start].
      destruct (sys_profile g0); exact Ok1.
    + cbn. destruct (sys_profile g0); cbn;
        (apply TrackerKeeps.nodes_ok_set;
         [exact Ok1 | reflexivity | reflexivity | discriminate]).
  - unfold stop. destruct (_profile_start g); [|exact Ok].
    cbn [_call_stack set_sys_profile].
    destruct (pop (_call_stack g)) as [[stack x]|]; [|exact Ok].
    cbn [_inst_data set_profile_total set_call_stack set_sys_profile].
    unfold Dict.lookup.
    destruct (Dict.get (_inst_data g) "$total") as [root|] eqn:G;
      cbn [try_ state_of]; [|exact Ok].
    cbn. now apply TrackerKeeps.nodes_ok_update.
  - unfold _instance_profile. destruct ev; [| |exact Ok].
    + destruct (matched g f); exact Ok.
    + destruct (matched g f) as [self|]; [|exact Ok]. cbv zeta.
      unfold Dict.mem.
      destruct (Dict.get (_inst_data g) (Str.join "@" (_call_stack g)))
        as [n0|] eqn:G; cbn [andthen].
      * destruct (pop (_call_stack g)) as [[stack x]|]; [|exact Ok].
        cbn [_inst_data set_call_stack].
        rewrite (DictFacts.lookup_get _ _ G). cbn [try_].
        cbn [_timing_stack set_call_stack].
        destruct (pop (_timing_stack g)) as [[tstack t0]|]; [|exact Ok].
        cbn. now apply TrackerKeeps.nodes_ok_update.
      * destruct (_prof_node (_call_stack g) (Some self)) as [n0|e] eqn:N;
          cbn [try_ andthen]; [|exact Ok].
        destruct (TrackerKeeps.prof_node_ok _ _ N) as [Nm [Ct [Ob _]]].
        assert (nodes_ok (Dict.set (_inst_data g)
                            (Str.join "@" (_call_stack g)) n0)) as Ok1
          by (apply TrackerKeeps.nodes_ok_set; assumption).
        cbn [_call_stack set_inst_data].
        destruct (pop (_call_stack g)) as [[stack x]|]; [|exact Ok1].
        cbn [_inst_data set_call_stack set_inst_data].
        rewrite (DictFacts.lookup_get _ _ (DictFacts.get_set_same _ _ _)).
        cbn [try_]. cbn [_timing_stack set_call_stack set_inst_data].
        destruct (pop (_timing_stack g)) as [[tstack t0]|]; [|exact Ok1].
        cbn. apply TrackerKeeps.nodes_ok_update; [exact Ok1|].
        apply DictFacts.get_set_same.
Qed.

Lemma tracker_keeps_its_nodes_well_formed_witness :
  nodes_ok (_inst_data running0)
  /\ nodes_ok (_inst_data (state_of (setup host0 "iprof" None None running0)))
  /\ nodes_ok (_inst_data (state_of (start host0 4 running0)))
  /\ nodes_ok (_inst_data (state_of (stop 4 running0)))
  /\ nodes_ok
       (_inst_data (state_of (_instance_profile 4 frame0 return_ running0))).
Proof.
  assert (H : nodes_ok (_inst_data running0)).
  { intros p n. set (d := _inst_data running0). vm_compute in d. subst d.
    unfold Dict.get.
    repeat match goal with
           | |- context [String.eqb ?k p] =>
               destruct (String.eqb_spec k p) as [<-|_]
           end; try discriminate;
      intros [= <-]; repeat split; discriminate. }
  split; [exact H|].
  apply tracker_keeps_its_nodes_well_formed. exact H.
Defined.

(** X18.  An event that the profile function handles without raising moves
    both stacks together: the lengths of the call stack and of the timing
    stack change by the same amount. *)
Theorem events_keep_the_stacks_in_step (now : float) (f : frame) (ev : event)
  (g g' : globals) :
  _instance_profile now f ev g = Done g' ->
  (length (_call_stack g') + length (_timing_stack g)
   = length (_call_stack g) + length (_timing_stack g'))%nat.
Proof.
  unfold _instance_profile. destruct ev.
  - destruct (matched g f); intros [= <-]; [|reflexivity].
    cbn. rewrite !length_app. simpl. lia.
  - destruct (matched g f) as [self|]; [|now intros [= <-]]. cbv zeta.
    assert (forall g1 : globals,
              _call_stack g1 = _call_stack g ->
              _timing_stack g1 = _timing_stack g ->
              forall k : globals -> string,
              match pop (_call_stack g1) with
              | Some (stack, _) =>
                  try_ (Dict.lookup (_inst_data (set_call_stack g1 stack))
                          (k g1))
                    (set_call_stack g1 stack)
                    (fun pdata =>
                       match pop (_timing_stack (set_call_stack g1 stack)) with
                       | Some (tstack, t0) =>
                           Done (set_inst_data
                                   (set_timing_stack (set_call_stack g1 stack)
                                      tstack)
                                   (Dict.set
                                      (_inst_data
                                         (set_timing_stack
                                            (set_call_stack g1 stack) tstack))
                                      (k g1)
                                      (set_count
                                         (set_time pdata
                                            (time pdata + (now - t0))%float)
                                         (count pdata + 1)%Z)))
                       | None => Raised IndexError (set_call_stack g1 stack)
                       end)
              | None => Raised IndexError g1
              end = Done g' ->
              (length (_call_stack g') + length (_timing_stack g)
               = length (_call_stack g) + length (_timing_stack g'))%nat)
      as Pop.
    { intros g1 C T k.
      destruct (pop (_call_stack g1)) as [[stack x]|] eqn:PC; [|discriminate].
      unfold try_. destruct (Dict.lookup _ _) as [pdata|e]; [|discriminate].
      cbn [_timing_stack set_call_stack].
      destruct (pop (_timing_stack g1)) as [[tstack t0]|] eqn:PT;
        [|discriminate].
      intros [= <-]. cbn.
      apply TrackerFacts.pop_some in PC, PT. rewrite <- C, <- T, PC, PT.
      rewrite !length_app. simpl. lia. }
    destruct (Dict.mem (_inst_data g) (Str.join "@" (_call_stack g)));
      cbn [andthen].
    + apply (Pop g eq_refl eq_refl (fun g1 => Str.join "@" (_call_stack g))).
    + destruct (_prof_node (_call_stack g) (Some self)) as [n0|e];
        cbn [try_ andthen]; [|discriminate].
      apply (Pop (set_inst_data g
                    (Dict.set (_inst_data g) (Str.join "@" (_call_stack g)) n0))
               eq_refl eq_refl (fun g1 => Str.join "@" (_call_stack g))).
  - now intros [= <-].
Qed.

Lemma events_keep_the_stacks_in_step_witness :
  (length (_call_stack (state_of (_instance_profile 2 frame0 call active0)))
   + length (_timing_stack active0)
   = length (_call_stack active0)
     + length (_timing_stack
                 (state_of (_instance_profile 2 frame0 call active0))))%nat.
Proof.
  apply (@events_keep_the_stacks_in_step 2 frame0 call active0). reflexivity.
Defined.

(** ** The name resolver *)

Module ResolverFacts.

Lemma aget_aset_Z {V : Type} (d : list (Z * V)) (k k' : Z) (v : V) :
  aget Z.eqb (aset Z.eqb d k v) k'
  = if Z.eqb k k' then Some v else aget Z.eqb d k'.
Proof.
  induction d as [|[k0 v0] d IH]; simpl; [reflexivity|].
  destruct (Z.eqb_spec k0 k) as [->|N]; simpl.
  - destruct (Z.eqb k k'); reflexivity.
  - rewrite IH. destruct (Z.eqb_spec k0 k') as [->|N'].
    + destruct (Z.eqb_spec k k'); [congruence | reflexivity].
    + reflexivity.
Qed.

Lemma visit_children (fname : string) (stack : list string)
  (children : list ast) :
  Forall (fun a => forall stack cache,
            stack <> [] \/ stack = [] ->
            cache_ok fname cache -> cache_ok fname (visit fname stack cache a))
    children ->
  forall cache, cache_ok fname cache ->
    cache_ok fname (fold_left (visit fname stack) children cache).
Proof.
  intros F. induction F as [|a l Ha F IH]; intros cache Ok; simpl;
    [exact Ok|].
  apply IH. apply Ha; [|exact Ok].
  destruct stack; [now right | left; discriminate].
Qed.

Lemma visit_ok (fname : string) (a : ast) : forall stack cache,
  stack <> [] \/ stack = [] ->
  cache_ok fname cache -> cache_ok fname (visit fname stack cache a).
Proof.
  induction a as [c body IH|n l|children IH] using ast_rect';
    intros stack cache _ Ok.
  - simpl. now apply visit_children.
  - simpl. intros l' q. rewrite aget_aset_Z.
    destruct (Z.eqb l l'); [|apply Ok].
    intros [= <-]. destruct stack as [|s stack].
    + left. now split.
    + right. split; [reflexivity|]. exists (s :: stack).
      split; [discriminate | reflexivity].
  - simpl. now apply visit_children.
Qed.

End ResolverFacts.

(** X19.  A qualified name that [_find_qualified_name] returns is either that
    of a free function, with the file in angle brackets and no class, or that
    of a method, with no file and the enclosing classes joined by dots: the
    class is never missing when the file is. *)
Theorem qualified_names_have_a_file_or_a_class (h : host) (filename : string)
  (line : Z) (q : qual) :
  _find_qualified_name h filename line = Return q ->
  qualified_in filename q.
Proof.
  unfold _find_qualified_name.
  destruct (parse_source h filename) as [tree|e]; cbn [bind]; [|discriminate].
  destruct (aget Z.eqb (visit filename [] [] tree) line) as [q'|] eqn:G;
    [|discriminate].
  intros [= <-]. revert G.
  apply (@ResolverFacts.visit_ok filename tree [] []); [now right|].
  intros l q0. discriminate.
Qed.

Lemma qualified_names_have_a_file_or_a_class_witness :
  qualified_in "f.py" (None, Some "System", "run").
Proof.
  apply (@qualified_names_have_a_file_or_a_class host0 "f.py" 10).
  reflexivity.
Defined.

(** ** The names written by the finalize step *)

Module WriteFacts.
Import Str StrFacts DictFacts.

Lemma segments_length (obj_map : Dict.t string) (segs : list string) :
  forall acc res,
    foldM (fun acc s => d <- Dict.lookup obj_map s ;; Return (acc ++ [d]))
      segs acc = Return res ->
    length res = (length acc + length segs)%nat.
Proof.
  induction segs as [|s segs IH]; intros acc res; simpl.
  - intros [= <-]. lia.
  - destruct (Dict.lookup obj_map s) as [d|e]; cbn [bind]; [|discriminate].
    intros H. rewrite (IH _ _ H), length_app. simpl. lia.
Qed.

Lemma fix_names_reserved (h : host) (inst : Dict.t node)
  (obj_map : Dict.t string) :
  fix_names h inst = Return obj_map ->
  Dict.get obj_map "$total" = Some "$total"
  /\ Dict.get obj_map "$parent" = Some "$parent".
Proof.
  unfold fix_names. destruct (foldM _ _ _) as [st|e]; cbn [bind];
    [|discriminate].
  intros [= <-]. split.
  - rewrite get_set_other by discriminate. apply get_set_same.
  - apply get_set_same.
Qed.

End WriteFacts.

(** X20.  In the names that the finalize step writes, the reserved segments
    stand for themselves, and the line of a synthetic node has the written
    name of its parent followed by [@$parent]: the merge finds the parent of
    a [$parent] line by cutting that segment off. *)
Theorem self_line_extends_the_line_of_its_parent (h : host)
  (inst : Dict.t node) (obj_map : Dict.t string) (p : string) (n ex : node)
  (l : out_record) :
  fix_names h inst = Return obj_map ->
  out_line obj_map (p, n) = Return l ->
  Dict.get obj_map "$total" = Some "$total"
  /\ out_line obj_map ((p ++ "@$parent")%string, ex)
     = Return ((fst (fst l) ++ "@$parent")%string, count ex, time ex)
  /\ Str.rsplit1 Str.at_sign (fst (fst l) ++ "@$parent")
     = (Some (fst (fst l)), "$parent").
Proof.
  intros Fx O.
  destruct (WriteFacts.fix_names_reserved _ _ Fx) as [Gt Gp].
  split; [exact Gt|]. split.
  - unfold out_line in *.
    change (p ++ "@$parent")%string
      with (p ++ String Str.at_sign "$parent")%string.
    rewrite ParentNodes.split_app, FirstLoop.foldM_app.
    destruct (foldM _ (Str.split Str.at_sign p) []) as [segs|e] eqn:S;
      cbn [bind] in *; [|discriminate].
    injection O as <-. cbn [fst].
    change (Str.split Str.at_sign "$parent") with ["$parent"].
    cbn [foldM]. rewrite (DictFacts.lookup_get _ _ Gp). cbn [bind].
    rewrite StrFacts.join_snoc; [reflexivity|].
    apply WriteFacts.segments_length in S. intros ->.
    pose proof (@StrFacts.split_not_nil Str.at_sign p) as N.
    destruct (Str.split Str.at_sign p); [congruence | discriminate].
  - change (fst (fst l) ++ "@$parent")%string
      with (fst (fst l) ++ String Str.at_sign "$parent")%string.
    apply StrFacts.rsplit1_app. simpl. intuition discriminate.
Qed.

Lemma self_line_extends_the_line_of_its_parent_witness :
  Dict.get [("$total", "$total"); ("$parent", "$parent")] "$total"
  = Some "$total"
  /\ out_line [("$total", "$total"); ("$parent", "$parent")]
       ("$total@$parent"%string, stored "" 1 2)
     = Return ("$total@$parent"%string, count (stored "" 1 2),
               time (stored "" 1 2))
  /\ Str.rsplit1 Str.at_sign "$total@$parent" = (Some "$total", "$parent").
Proof.
  apply (@self_line_extends_the_line_of_its_parent host0
           [("$total", stored "$total" 1 3)]
           [("$total", "$total"); ("$parent", "$parent")]
           "$total" (stored "$total" 1 3) (stored "" 1 2)
           ("$total", 1%Z, 3%float)); reflexivity.
Defined.

(** ** The file written by the finalize step *)

Module WrittenFacts.
Import Str StrFacts DictFacts.

Lemma same_refl (d : Dict.t node) : Forall2 same_but_child_time d d.
Proof.
  induction d as [|[k n] d IH]; constructor; [|exact IH].
  split; [reflexivity|]. exists (child_time n). now destruct n.
Qed.

Lemma same_trans (d1 d2 : Dict.t node) :
  Forall2 same_but_child_time d1 d2 ->
  forall d3, Forall2 same_but_child_time d2 d3 ->
  Forall2 same_but_child_time d1 d3.
Proof.
  induction 1 as [|[k1 n1] [k2 n2] d1 d2 [K [c E]] F IH]; intros d3 H3.
  - inversion H3. constructor.
  - inversion H3 as [|a [k3 n3] b d3' [K' [c' E']] F']; subst.
    constructor; [|now apply IH].
    simpl in *. subst. split; [reflexivity|]. exists c'. now destruct n1.
Qed.

Lemma set_same (d : Dict.t node) (k : string) (p : node)
  (c : option float) :
  Dict.get d k = Some p ->
  Forall2 same_but_child_time d (Dict.set d k (set_child_time p c)).
Proof.
  induction d as [|[k' v] d IH]; simpl; [discriminate|].
  destruct (String.eqb k' k).
  - intros [= ->]. constructor; [|apply same_refl].
    split; [reflexivity|]. now exists c.
  - intros G. constructor; [|now apply IH].
    split; [reflexivity|]. exists (child_time v). now destruct v.
Qed.

Lemma add_child_time_shape (d : Dict.t node) (item : string * node) :
  Forall2 same_but_child_time d (state_of (add_child_time d item)).
Proof.
  destruct item as [q c]. unfold add_child_time.
  destruct (parts_many (rsplit1 at_sign q)); simpl; [|apply same_refl].
  unfold Dict.lookup.
  destruct (Dict.get d (parts_first (rsplit1 at_sign q))) as [pn|] eqn:G;
    simpl; [|apply same_refl].
  unfold get_child_time. destruct (child_time pn) as [c0|]; simpl;
    [|apply same_refl].
  now apply set_same.
Qed.

(** The child-time loop keeps the paths, in their order, and everything of
    the nodes but their child times. *)
Lemma child_loop_shape (xs : Dict.t node) : forall d : Dict.t node,
  Forall2 same_but_child_time d (state_of (forM add_child_time xs d)).
Proof.
  induction xs as [|item xs IH]; intros d; simpl; [apply same_refl|].
  pose proof (add_child_time_shape d item) as A.
  destruct (add_child_time d item) as [d1|e s]; simpl in *; [|exact A].
  exact (same_trans A (IH d1)).
Qed.

(** The loop that fixes the names reads the paths and the instances only. *)
Lemma fix_name_same (h : host) (st : names) (a b : string * node) :
  same_but_child_time a b -> fix_name h st b = fix_name h st a.
Proof.
  destruct a as [k n], b as [k' n']. intros [K [c E]]. simpl in K, E.
  subst. reflexivity.
Qed.

Lemma fix_names_same (h : host) (xs ys : Dict.t node) :
  Forall2 same_but_child_time xs ys -> fix_names h ys = fix_names h xs.
Proof.
  intros F. unfold fix_names. f_equal.
  generalize {| _obj_map := []; idents := [] |}.
  induction F as [|a b xs ys S F IH]; intros st; simpl; [reflexivity|].
  rewrite (fix_name_same h st S).
  destruct (fix_name h st a) as [st'|e]; simpl; [apply IH | reflexivity].
Qed.

Lemma lookups (obj_map : Dict.t string) (segs : list string) :
  forall acc res,
    foldM (fun acc s => d <- Dict.lookup obj_map s ;; Return (acc ++ [d]))
      segs acc = Return res ->
    exists ds,
      res = acc ++ ds
      /\ Forall2 (fun s d => Dict.get obj_map s = Some d) segs ds.
Proof.
  induction segs as [|s segs IH]; intros acc res; simpl.
  - intros [= <-]. exists []. split; [now rewrite app_nil_r | constructor].
  - unfold Dict.lookup. destruct (Dict.get obj_map s) as [d|] eqn:G;
      cbn [bind]; [|discriminate].
    intros H. destruct (IH _ _ H) as [ds [-> F]].
    exists (d :: ds). split; [now rewrite <- List.app_assoc | now constructor].
Qed.

Lemma out_line_of (obj_map : Dict.t string) (item : string * node)
  (l : out_record) :
  out_line obj_map item = Return l -> line_of obj_map item (fmt_line l).
Proof.
  destruct item as [k n]. unfold out_line.
  destruct (foldM _ (split at_sign k) []) as [segs|e] eqn:S; cbn [bind];
    [|discriminate].
  intros [= <-]. destruct (lookups _ _ _ S) as [ds [-> F]].
  exists ds. split; [exact F | reflexivity].
Qed.

Lemma out_lines_of (obj_map : Dict.t string)
  (items : list (string * node)) :
  ended (out_lines obj_map items) = None ->
  Forall2 (line_of obj_map) items
    (map fmt_line (yielded (out_lines obj_map items))).
Proof.
  induction items as [|item items IH]; [constructor|].
  cbn [out_lines].
  destruct (out_line obj_map item) as [l|e] eqn:O; cbn [ended yielded map];
    [|discriminate].
  intros E. constructor; [now apply out_line_of | now apply IH].
Qed.

End WrittenFacts.

(** X8.  When the finalize step completes, the session is over and the file
    written under the base name of the profile prefix and the rank holds one
    line per stored node, in order, followed by one line per synthetic node.
    The line of a node is ["%s %d %f\n"] of its path, in which every segment
    is replaced by its entry of the map that the loop over the names builds
    for the stored data, of its count and of its time. *)
Theorem finalize_writes_what_is_stored (h : host) (now : float)
  (g g' : globals) :
  _finalize_profile h now g = Done g' ->
  _profile_start g' = None
  /\ exists prefix obj_map parnodes lines,
       _profile_prefix g = Some prefix
       /\ fix_names h (_inst_data g') = Return obj_map
       /\ parent_nodes (_inst_data g') = Return parnodes
       /\ Dict.get (written g') (finalize_out h prefix) = Some lines
       /\ Forall2 (line_of obj_map) (_inst_data g' ++ parnodes) lines.
Proof.
  unfold _finalize_profile.
  destruct (stop now g) as [g1|e s] eqn:St; cbn [andthen]; [|discriminate].
  destruct (FinalizeFacts.stop_done_idle _ _ St) as [Idle Pre].
  destruct (fix_names h (_inst_data g1)) as [obj_map|e] eqn:Fx; cbn [try_];
    [|discriminate].
  pose proof (WrittenFacts.child_loop_shape (_inst_data g1) (_inst_data g1))
    as Sh.
  fold (child_times (_inst_data g1)) in Sh.
  destruct (child_times (_inst_data g1)) as [inst|e s] eqn:C; [|discriminate].
  cbn [state_of] in *. destruct (parent_nodes inst) as [parnodes|e] eqn:P;
    cbn [try_]; [|discriminate].
  cbn [_profile_prefix set_inst_data]. rewrite Pre.
  destruct (_profile_prefix g) as [prefix|]; [|discriminate].
  destruct (can_open h _); [|discriminate].
  destruct (ended (out_lines obj_map (inst ++ parnodes))) eqn:E;
    [discriminate|].
  intros [= <-]. cbn. split; [exact Idle|].
  exists prefix, obj_map, parnodes,
    (map fmt_line (yielded (out_lines obj_map (inst ++ parnodes)))).
  split; [reflexivity|].
  split; [now rewrite (WrittenFacts.fix_names_same h Sh)|].
  split; [exact P|]. split; [apply DictFacts.get_set_same|].
  now apply WrittenFacts.out_lines_of.
Qed.

Lemma finalize_writes_what_is_stored_witness :
  Dict.get (written (state_of (_finalize_profile host0 6 session0))) "iprof.0"
  = Some [("$total 1 5.000000" ++ Str.newline)%string;
          ("$total@<System#0.run> 1 2.000000" ++ Str.newline)%string;
          ("$total@$parent 1 3.000000" ++ Str.newline)%string]
  /\ _profile_start (state_of (_finalize_profile host0 6 session0)) = None
  /\ exists prefix obj_map parnodes lines,
       _profile_prefix session0 = Some prefix
       /\ fix_names host0
            (_inst_data (state_of (_finalize_profile host0 6 session0)))
          = Return obj_map
       /\ parent_nodes
            (_inst_data (state_of (_finalize_profile host0 6 session0)))
          = Return parnodes
       /\ Dict.get (written (state_of (_finalize_profile host0 6 session0)))
            (finalize_out host0 prefix) = Some lines
       /\ Forall2 (line_of obj_map)
            (_inst_data (state_of (_finalize_profile host0 6 session0))
             ++ parnodes) lines.
Proof.
  split; [vm_compute; reflexivity|].
  apply (@finalize_writes_what_is_stored host0 6 session0).
  vm_compute. reflexivity.
Defined.
